(** * Sphinx proposal orchestration: a shallow embedding

    The development follows two source files of the repository:

    - the [propose] command of the Foundry plugin ([buildParsedConfigArray],
      [propose], [getProjectDeploymentForChain]);
    - the Hardhat test helpers ([getSignatures],
      [proposeThenApproveDeploymentThenExecute]).

    Collaborators that live outside these files (wallets, the remote
    registry, the Merkle tree builder, the Forge collection run) appear as
    records of functions, so every statement below is about the control flow
    and the data flow of the code in those two files. *)

From Stdlib Require Import String DecimalString.
From Stdlib Require Import List ZArith Lia Bool Permutation Sorted.
Import ListNotations.
Local Open Scope string_scope.
Local Open Scope list_scope.
Local Open Scope Z_scope.

Set Implicit Arguments.

(* ===================================================================== *)
(** * Part I: definitions *)
(* ===================================================================== *)

(** ** Signature collection ([getSignatures], test helpers) *)

Module Sig.

(** The two wallet primitives that [getSignatures] uses.  A private key is
    the string handed to [new ethers.Wallet]; [walletAddress] is
    [BigInt(new ethers.Wallet(k).address)]. *)
Record Wallets : Type := {
  walletAddress : string -> Z;
  signAuthRootMetaTxn : string -> string -> string
}.

(** The comparator given to [Array.prototype.sort]. *)
Definition compareKeys (w : Wallets) (a b : string) : Z :=
  let aAddress := walletAddress w a in
  let bAddress := walletAddress w b in
  if aAddress <? bAddress then -1
  else if aAddress >? bAddress then 1
  else 0.

(** [Array.prototype.sort] is a stable sort: elements the comparator deems
    equal keep their input order.  Insertion from the right, placing an
    element in front of the first one it does not exceed, is such a sort. *)
Fixpoint insertSorted (cmp : string -> string -> Z) (x : string)
  (l : list string) : list string :=
  match l with
  | [] => [x]
  | y :: ys => if cmp x y <=? 0 then x :: y :: ys
               else y :: insertSorted cmp x ys
  end.

Fixpoint arraySort (cmp : string -> string -> Z) (l : list string)
  : list string :=
  match l with
  | [] => []
  | x :: xs => insertSorted cmp x (arraySort cmp xs)
  end.

(** The [for ... of] loop: sign, push, and leave the loop when the number of
    signatures pushed so far is strictly equal to [threshold].  [threshold]
    is a JavaScript number; its integral values are the ones modelled. *)
Fixpoint signLoop (w : Wallets) (root : string) (threshold : Z)
  (keys : list string) (signatures : list string) : list string :=
  match keys with
  | [] => signatures
  | ownerPrivateKey :: rest =>
      let signature := signAuthRootMetaTxn w ownerPrivateKey root in
      let signatures' := signatures ++ [signature] in
      if Z.of_nat (length signatures') =? threshold then signatures'
      else signLoop w root threshold rest signatures'
  end.

(** [getSignatures].  The sort is in place in the source, so the caller's
    array ends up holding [sortedOwnerPrivateKeys]; it is the first component
    of [getSignaturesSt], and [getSignatures] is the value returned. *)
Definition sortedOwnerPrivateKeys (w : Wallets) (ownerPrivateKeys : list string)
  : list string :=
  arraySort (compareKeys w) ownerPrivateKeys.

Definition getSignaturesSt (w : Wallets) (ownerPrivateKeys : list string)
  (root : string) (threshold : Z) : list string * list string :=
  let sorted := sortedOwnerPrivateKeys w ownerPrivateKeys in
  (sorted, signLoop w root threshold sorted []).

Definition getSignatures (w : Wallets) (ownerPrivateKeys : list string)
  (root : string) (threshold : Z) : list string :=
  snd (getSignaturesSt w ownerPrivateKeys root threshold).

(** The callers follow every collection by
    [expect(signatures.length).equals(threshold)], which throws chai's
    assertion error when the lengths differ. *)
Inductive Checked (A : Type) : Type :=
| Passed (a : A)
| AssertionError (actual expected : Z).
Arguments AssertionError {A} actual expected.

Definition getSignaturesChecked (w : Wallets) (ownerPrivateKeys : list string)
  (root : string) (threshold : Z) : Checked (list string) :=
  let signatures := getSignatures w ownerPrivateKeys root threshold in
  if Z.of_nat (length signatures) =? threshold then Passed signatures
  else AssertionError (Z.of_nat (length signatures)) threshold.

(** How many keys the loop consumes out of [n]. *)
Definition signedCount (threshold : Z) (n : nat) : nat :=
  if (1 <=? threshold) && (threshold <=? Z.of_nat n) then Z.to_nat threshold
  else n.

(** Sample wallets for the concrete runs: the address of a key is its length,
    a signature is the key followed by the root. *)
Definition sampleWallets : Wallets := {|
  walletAddress := fun k => Z.of_nat (String.length k);
  signAuthRootMetaTxn := fun k root => (k ++ "@" ++ root)%string
|}.

End Sig.

(** ** Leaves shared by both files

    The plugin reads leaf types through the [SphinxLeafType] enumeration; the
    test helpers compare the tag of a leaf with the string ['setup'].  Both
    are rendered by one enumeration. *)

Module SphinxLeafType.

Inductive t : Type := SETUP | PROPOSE | APPROVE | EXECUTE.

Definition eqb (a b : t) : bool :=
  match a, b with
  | SETUP, SETUP | PROPOSE, PROPOSE | APPROVE, APPROVE | EXECUTE, EXECUTE => true
  | _, _ => false
  end.

End SphinxLeafType.

(** ** The propose command *)

Module Propose.

(** *** Data *)

(** The part of a parsed configuration that [propose] reads.  Chain ids are
    decimal strings in the source and are read through [Number] and [BigInt];
    here they are the integers those conversions yield. *)
Record SphinxConfig : Type := {
  orgId : string;
  projectName : string;
  owners : list string;
  threshold : Z;
  saltNonce : string
}.

Record InitialState : Type := { isExecuting : bool }.

Definition ActionInput : Type := string.
Definition ConfigArtifacts : Type := string.
Definition Preview : Type := string.

Record ParsedConfig : Type := {
  chainId : Z;
  actionInputs : list ActionInput;
  newConfig : SphinxConfig;
  safeAddress : string;
  moduleAddress : string;
  safeInitData : string;
  initialState : InitialState
}.

Record SphinxLeaf : Type := {
  leafChainId : Z;
  leafIndex : Z;
  leafType : SphinxLeafType.t;
  leafData : string
}.

Record LeafWithProof : Type := { leaf : SphinxLeaf; proof : list string }.

Record SphinxMerkleTree : Type := {
  root : string;
  leavesWithProofs : list LeafWithProof
}.

Record ProjectDeployment : Type := {
  pdChainId : Z;
  deploymentId : string;
  name : string;
  pdIsExecuting : bool
}.

Record ChainStatus : Type := { csChainId : Z; numLeaves : Z }.

Record GasEstimate : Type := { geChainId : Z; estimatedGas : string }.

Record ProposalTree : Type := {
  treeRoot : string;
  chainStatus : list ChainStatus
}.

Record ProposalRequest : Type := {
  apiKey : string;
  prOrgId : string;
  prIsTestnet : bool;
  chainIds : list Z;
  deploymentName : string;
  prOwners : list string;
  prThreshold : Z;
  prSafeAddress : string;
  prModuleAddress : string;
  prSafeInitData : string;
  safeInitSaltNonce : string;
  projectDeployments : list ProjectDeployment;
  gasEstimates : list GasEstimate;
  diff : Preview;
  compilerConfigId : option string;
  tree : ProposalTree
}.

(** [proposalRequest.compilerConfigId = id]. *)
Definition setCompilerConfigId (r : ProposalRequest) (id : option string)
  : ProposalRequest :=
  {| apiKey := apiKey r; prOrgId := prOrgId r; prIsTestnet := prIsTestnet r;
     chainIds := chainIds r; deploymentName := deploymentName r;
     prOwners := prOwners r; prThreshold := prThreshold r;
     prSafeAddress := prSafeAddress r; prModuleAddress := prModuleAddress r;
     prSafeInitData := prSafeInitData r;
     safeInitSaltNonce := safeInitSaltNonce r;
     projectDeployments := projectDeployments r;
     gasEstimates := gasEstimates r; diff := diff r;
     compilerConfigId := id; tree := tree r |}.

(** The object returned by [buildParsedConfigArray]. *)
Record BuildResult : Type := {
  parsedConfigArray : option (list ParsedConfig);
  configArtifacts : option ConfigArtifacts;
  isEmpty : bool
}.

(** The object returned by [propose]; every field is optional in the source,
    and [return {}] leaves them all undefined. *)
Record ProposeResult : Type := {
  proposalRequest : option ProposalRequest;
  canonicalConfigData : option string;
  resConfigArtifacts : option ConfigArtifacts;
  resParsedConfigArray : option (list ParsedConfig);
  merkleTree : option SphinxMerkleTree
}.

Definition emptyResult : ProposeResult :=
  {| proposalRequest := None; canonicalConfigData := None;
     resConfigArtifacts := None; resParsedConfigArray := None;
     merkleTree := None |}.

(** *** Effects: a trace of collaborator calls and an outcome *)

Inductive Error : Type :=
| ProcessExit (code : Z)
| Thrown (message : string)
| Rejected (collaborator : string).

(** What the collection of transactions does to the outside. *)
Inductive CollectEvent : Type :=
| CollectConsoleError (text : string)
| CollectConsoleLog (text : string)
| ForgeScriptCollect (rpcUrl : string)
| Recompile.

(** What [propose] does to the outside; [Collecting] wraps the events of the
    injected [buildParsedConfigArray].  The spinner and the making of
    [getConfigArtifacts] leave no event. *)
Inductive Event : Type :=
| ConsoleError (text : string)
| ConsoleLog (text : string)
| Compile (silent force : bool)
| GetFoundryToml
| ReadInterface (contractName : string)
| Collecting (e : CollectEvent)
| GetNetworkGasEstimate (chain : Z)
| Prompt (text : string)
| StoreCanonicalConfig (key org : string) (data : list string)
| RelayProposal (request : ProposalRequest).

Inductive Outcome (A : Type) : Type :=
| Ok (a : A)
| Err (e : Error).
Arguments Err {A} e.

Definition Eff (E A : Type) : Type := (list E * Outcome A)%type.

Definition ret {E A : Type} (a : A) : Eff E A := ([], Ok a).
Definition throw {E A : Type} (e : Error) : Eff E A := ([], Err e).
Definition emit {E : Type} (ev : E) : Eff E unit := ([ev], Ok tt).
Definition lift {E A : Type} (o : Outcome A) : Eff E A := ([], o).

Definition bind {E A B : Type} (m : Eff E A) (k : A -> Eff E B) : Eff E B :=
  match m with
  | (t, Err e) => (t, Err e)
  | (t, Ok a) => let (t', r) := k a in (t ++ t', r)
  end.

Definition mapTrace {E F A : Type} (f : E -> F) (m : Eff E A) : Eff F A :=
  (map f (fst m), snd m).

Notation "x <- m ;; k" := (bind m (fun x => k))
  (at level 61, m at next level, right associativity).
Notation "m ;;; k" := (bind m (fun _ => k))
  (at level 61, right associativity).

Definition trace {E A : Type} (m : Eff E A) : list E := fst m.
Definition outcome {E A : Type} (m : Eff E A) : Outcome A := snd m.

Definition M (A : Type) : Type := Eff Event A.

(** A call that reaches the remote registry. *)
Definition isRemoteCall (ev : Event) : bool :=
  match ev with
  | StoreCanonicalConfig _ _ _ | RelayProposal _ => true
  | _ => false
  end.

Definition noRemoteCall (t : list Event) : bool :=
  forallb (fun ev => negb (isRemoteCall ev)) t.

(** *** Collaborators *)

(** The injected [sphinxContext].  A collaborator whose promise is rejected
    answers None; what it was rejected with is its own business. *)
Record SphinxContext : Type := {
  buildParsedConfigArray :
    string -> bool -> bool -> option string -> Eff CollectEvent BuildResult;
  getNetworkGasEstimate : list ParsedConfig -> Z -> option GasEstimate;
  prompt : string -> option unit;
  storeCanonicalConfig : string -> string -> list string -> option string;
  relayProposal : ProposalRequest -> option unit
}.

(** Awaiting a collaborator. *)
Definition await {A : Type} (collaborator : string) (answer : option A)
  : Outcome A :=
  match answer with
  | Some a => Ok a
  | None => Err (Rejected collaborator)
  end.

(** Pure functions imported from the core and contracts packages.
    [makeMerkleTree] is [makeSphinxMerkleTree(makeDeploymentData(...))], and
    [canonicalConfigJson] is [JSON.stringify] of
    [getParsedConfigWithCompilerInputs(...)]. *)
Record Core : Type := {
  makeMerkleTree : list ParsedConfig -> SphinxMerkleTree;
  getPreview : list ParsedConfig -> Preview;
  getPreviewString : Preview -> bool -> string;
  canonicalConfigJson : list ParsedConfig -> ConfigArtifacts -> string
}.

Record ProposeArgs : Type := {
  confirm : bool;
  isTestnet : bool;
  isDryRun : bool;
  silent : bool;
  scriptPath : string;
  sphinxContext : SphinxContext;
  forceRecompile : bool;
  targetContract : option string
}.

Definition withDryRun (b : bool) (a : ProposeArgs) : ProposeArgs :=
  {| confirm := confirm a; isTestnet := isTestnet a; isDryRun := b;
     silent := silent a; scriptPath := scriptPath a;
     sphinxContext := sphinxContext a; forceRecompile := forceRecompile a;
     targetContract := targetContract a |}.

(** [process.env]. *)
Record ProcessEnv : Type := { SPHINX_API_KEY : option string }.

(** JavaScript truthiness of an optional string: [undefined] and the empty
    string are falsy. *)
Definition truthy (s : option string) : option string :=
  match s with
  | Some EmptyString => None
  | other => other
  end.

(** *** The cross-chain equality check *)

Record ShouldBeEqual : Type := {
  sbNewConfig : SphinxConfig;
  sbSafeAddress : string;
  sbModuleAddress : string;
  sbSafeInitData : string
}.

Definition shouldBeEqualOf (parsedConfig : ParsedConfig) : ShouldBeEqual :=
  {| sbNewConfig := newConfig parsedConfig;
     sbSafeAddress := safeAddress parsedConfig;
     sbModuleAddress := moduleAddress parsedConfig;
     sbSafeInitData := safeInitData parsedConfig |}.

Definition SphinxConfig_eq_dec (a b : SphinxConfig) : {a = b} + {a <> b}.
Proof.
  decide equality;
    first [ apply string_dec | apply Z.eq_dec
          | apply list_eq_dec, string_dec ].
Defined.

Definition ShouldBeEqual_eq_dec (a b : ShouldBeEqual) : {a = b} + {a <> b}.
Proof.
  decide equality;
    first [ apply string_dec | apply SphinxConfig_eq_dec ].
Defined.

(** Modelled from the spec: [elementsEqual] of the core package, which is
    not among the sources.  The fields "must be identical across all chains";
    the check is deep equality of every element with the first one. *)
Definition elementsEqual (ary : list ShouldBeEqual) : bool :=
  match ary with
  | [] => true
  | first :: _ =>
      forallb (fun e => if ShouldBeEqual_eq_dec e first then true else false)
              ary
  end.

(** The fields the specification names: owner set, threshold, Safe address,
    module address and Safe init data. *)
Definition agreeOnNamedFields (p q : ParsedConfig) : Prop :=
  owners (newConfig p) = owners (newConfig q)
  /\ threshold (newConfig p) = threshold (newConfig q)
  /\ safeAddress p = safeAddress q
  /\ moduleAddress p = moduleAddress q
  /\ safeInitData p = safeInitData q.

Definition differOnNamedFields (p q : ParsedConfig) : Prop :=
  owners (newConfig p) <> owners (newConfig q)
  \/ threshold (newConfig p) <> threshold (newConfig q)
  \/ safeAddress p <> safeAddress q
  \/ moduleAddress p <> moduleAddress q
  \/ safeInitData p <> safeInitData q.

Definition InconsistentConfiguration : Error :=
  Thrown ("Detected different Safe or SphinxModule addresses for different chains. This is currently unsupported."
          ++ "Please use the same Safe and SphinxModule on all chains.").

(** *** [getProjectDeploymentForChain] *)

Definition isApprovalLeafFor (chain : Z) (l : LeafWithProof) : bool :=
  SphinxLeafType.eqb (leafType (leaf l)) SphinxLeafType.APPROVE
  && (leafChainId (leaf l) =? chain).

Definition approvalLeaves (t : SphinxMerkleTree) (chain : Z)
  : list LeafWithProof :=
  filter (isApprovalLeafFor chain) (leavesWithProofs t).

Definition MultipleApprovalLeaves (chain : Z) : Error :=
  Thrown ("Found multiple approval leaves for chain "
          ++ NilZero.string_of_int (Z.to_int chain)
          ++ ". Should never happen.").

Definition getProjectDeploymentForChain (t : SphinxMerkleTree)
  (parsedConfig : ParsedConfig) : Outcome (option ProjectDeployment) :=
  match approvalLeaves t (chainId parsedConfig) with
  | [] => Ok None
  | [_] =>
      Ok (Some {| pdChainId := chainId parsedConfig;
                  deploymentId := root t;
                  name := projectName (newConfig parsedConfig);
                  pdIsExecuting := isExecuting (initialState parsedConfig) |})
  | _ :: _ :: _ => Err (MultipleApprovalLeaves (chainId parsedConfig))
  end.

(** *** The per-chain loop of [propose] *)

Record LoopState : Type := {
  lsProjectDeployments : list ProjectDeployment;
  lsChainStatus : list ChainStatus;
  lsChainIds : list Z
}.

Definition hasActions (parsedConfig : ParsedConfig) : bool :=
  negb (Nat.eqb (length (actionInputs parsedConfig)) 0).

(** The object pushed onto [chainStatus]. *)
Definition chainStatusEntry (parsedConfig : ParsedConfig) : ChainStatus :=
  {| csChainId := chainId parsedConfig;
     numLeaves := Z.of_nat (length (actionInputs parsedConfig)) + 1 |}.

Definition emptyLoopState : LoopState :=
  {| lsProjectDeployments := []; lsChainStatus := []; lsChainIds := [] |}.

Fixpoint chainLoop (t : SphinxMerkleTree) (configs : list ParsedConfig)
  (st : LoopState) : Outcome LoopState :=
  match configs with
  | [] => Ok st
  | parsedConfig :: rest =>
      if Nat.eqb (length (actionInputs parsedConfig)) 0
      then chainLoop t rest st
      else
        match getProjectDeploymentForChain t parsedConfig with
        | Err e => Err e
        | Ok projectDeployment =>
            chainLoop t rest
              {| lsProjectDeployments :=
                   lsProjectDeployments st ++
                   match projectDeployment with
                   | Some d => [d]
                   | None => []
                   end;
                 lsChainStatus :=
                   lsChainStatus st ++ [chainStatusEntry parsedConfig];
                 lsChainIds := lsChainIds st ++ [chainId parsedConfig] |}
        end
  end.

(** [Promise.all] over the gas estimate calls: every call is started, and the
    first rejection, if any, is the rejection of the whole. *)
Fixpoint promiseAll {E A : Type} (calls : list (E * Outcome A))
  : Eff E (list A) :=
  match calls with
  | [] => ret []
  | (ev, o) :: rest =>
      let (t, r) := promiseAll rest in
      match o, r with
      | Err e, _ => (ev :: t, Err e)
      | Ok _, Err e => (ev :: t, Err e)
      | Ok a, Ok l => (ev :: t, Ok (a :: l))
      end
  end.

(** *** [propose] *)

Definition ApiKeyMessage : string :=
  "You must specify a 'SPHINX_API_KEY' environment variable.".

Definition NotDefinedMessage : string :=
  "ParsedConfig or ConfigArtifacts not defined. Should never happen.".

(** Destructuring [parsedConfigArray[0]] of an empty array. *)
Definition UndefinedFirstConfig : Error :=
  Thrown "TypeError: Cannot destructure property 'newConfig' of 'parsedConfigArray[0]' as it is undefined.".

Definition buildRequest (key : string) (args : ProposeArgs)
  (first : ParsedConfig) (t : SphinxMerkleTree) (st : LoopState)
  (estimates : list GasEstimate) (preview : Preview) : ProposalRequest :=
  {| apiKey := key;
     prOrgId := orgId (newConfig first);
     prIsTestnet := isTestnet args;
     chainIds := lsChainIds st;
     deploymentName := projectName (newConfig first);
     prOwners := owners (newConfig first);
     prThreshold := threshold (newConfig first);
     prSafeAddress := safeAddress first;
     prModuleAddress := moduleAddress first;
     prSafeInitData := safeInitData first;
     safeInitSaltNonce := saltNonce (newConfig first);
     projectDeployments := lsProjectDeployments st;
     gasEstimates := estimates;
     diff := preview;
     compilerConfigId := None;
     tree := {| treeRoot := root t; chainStatus := lsChainStatus st |} |}.

(** The tail of [propose], once the equality check has passed: the
    per-chain loop, the request, and the registration unless dry. *)
Definition assembleAndRelay (core : Core) (key : string) (args : ProposeArgs)
  (configs : list ParsedConfig) (artifacts : ConfigArtifacts)
  (t : SphinxMerkleTree) (estimates : list GasEstimate) (preview : Preview)
  : M ProposeResult :=
  let ctx := sphinxContext args in
  match configs with
  | [] => throw UndefinedFirstConfig
  | first :: _ =>
      st <- lift (chainLoop t configs emptyLoopState) ;;
      let request := buildRequest key args first t st estimates preview in
      let canonical := canonicalConfigJson core configs artifacts in
      if isDryRun args
      then
        ret {| proposalRequest := Some request;
               canonicalConfigData := Some canonical;
               resConfigArtifacts := Some artifacts;
               resParsedConfigArray := Some configs;
               merkleTree := Some t |}
      else
        emit (StoreCanonicalConfig key (orgId (newConfig first))
                [canonical]) ;;;
        id <- lift (await "storeCanonicalConfig"
                      (storeCanonicalConfig ctx key
                         (orgId (newConfig first)) [canonical])) ;;
        let request' := setCompilerConfigId request (Some id) in
        emit (RelayProposal request') ;;;
        lift (await "relayProposal" (relayProposal ctx request')) ;;;
        ret {| proposalRequest := Some request';
               canonicalConfigData := Some canonical;
               resConfigArtifacts := Some artifacts;
               resParsedConfigArray := Some configs;
               merkleTree := Some t |}
  end.

(** The equality check, then the tail. *)
Definition finishProposal (core : Core) (key : string) (args : ProposeArgs)
  (configs : list ParsedConfig) (artifacts : ConfigArtifacts)
  (t : SphinxMerkleTree) (estimates : list GasEstimate) (preview : Preview)
  : M ProposeResult :=
  if negb (elementsEqual (map shouldBeEqualOf configs))
  then throw InconsistentConfiguration
  else assembleAndRelay core key args configs artifacts t estimates preview.

(** The simulation and the preview, between tree construction and the
    equality check. *)
Definition simulateAndPreview (core : Core) (args : ProposeArgs)
  (configs : list ParsedConfig) : M (list GasEstimate * Preview) :=
  let ctx := sphinxContext args in
  estimates <-
    promiseAll
      (map (fun parsedConfig =>
              (GetNetworkGasEstimate (chainId parsedConfig),
               await "getNetworkGasEstimate"
                 (getNetworkGasEstimate ctx configs (chainId parsedConfig))))
           (filter hasActions configs)) ;;
  let preview := getPreview core configs in
  (if confirm args || isDryRun args
   then
     if negb (silent args)
     then emit (ConsoleLog (getPreviewString core preview false))
     else ret tt
   else
     emit (Prompt (getPreviewString core preview true)) ;;;
     lift (await "prompt" (prompt ctx (getPreviewString core preview true)))) ;;;
  ret (estimates, preview).

(** What [propose] does before it collects: the compiler run, the read of
    [foundry.toml] and the read of the plugin's interface.  The three are
    taken to succeed. *)
Definition preamble (args : ProposeArgs) : list Event :=
  [Compile (silent args) false; GetFoundryToml;
   ReadInterface "SphinxPluginTypes"].

Definition propose (core : Core) (env : ProcessEnv) (args : ProposeArgs)
  : M ProposeResult :=
  match truthy (SPHINX_API_KEY env) with
  | None => emit (ConsoleError ApiKeyMessage) ;;; throw (ProcessExit 1)
  | Some key =>
      emit (Compile (silent args) false) ;;;
      emit GetFoundryToml ;;;
      emit (ReadInterface "SphinxPluginTypes") ;;;
      built <- mapTrace Collecting
                 (buildParsedConfigArray (sphinxContext args)
                    (scriptPath args) (isTestnet args) (forceRecompile args)
                    (targetContract args)) ;;
      if isEmpty built then ret emptyResult
      else
        match parsedConfigArray built, configArtifacts built with
        | Some configs, Some artifacts =>
            let t := makeMerkleTree core configs in
            sp <- simulateAndPreview core args configs ;;
            finishProposal core key args configs artifacts t (fst sp) (snd sp)
        | _, _ => throw (Thrown NotDefinedMessage)
        end
  end.

(** What a run of [propose] recorded for the chains, when it produced a
    request. *)
Definition proposedRequest (m : M ProposeResult) : option ProposalRequest :=
  match outcome m with
  | Ok out => proposalRequest out
  | Err _ => None
  end.

Definition proposedChainStatus (m : M ProposeResult)
  : option (list ChainStatus) :=
  option_map (fun r => chainStatus (tree r)) (proposedRequest m).

(** *** [buildParsedConfigArray], the implementation the plugin injects *)

Module Collect.

Record DeploymentInfo : Type := { diChainId : Z; diPayload : string }.

Record DryRun : Type := {
  transactions : list string;
  dryRunLibraries : list string
}.

(** The result of [spawnAsync]. *)
Record SpawnOutput : Type := {
  code : Z;
  stdout : string;
  stderr : string
}.

(** What a successful [forge script ... sphinxCollectProposal] leaves
    behind: the deployment info file and, when the script broadcast
    something, the dry run file. *)
Record ForgeRun : Type := {
  runDeploymentInfo : DeploymentInfo;
  collectionDryRun : option DryRun
}.

Record Collected : Type := {
  deploymentInfo : DeploymentInfo;
  rawActionInputs : list string;
  libraries : list string;
  forkUrl : string
}.

Record ScriptConfig : Type := {
  testnets : list string;
  mainnets : list string;
  scriptSafeAddress : string
}.

(** The Foundry side: the script configuration, [foundry.toml], the Forge
    run on a network (script, RPC URL, target contract, sender), the files
    it leaves behind, and the decoding helpers. *)
Record Foundry : Type := {
  getSphinxConfigFromScript : string -> option string -> ScriptConfig;
  rpcEndpoints : string -> option string;
  forgeScriptCollect :
    string -> string -> option string -> string -> SpawnOutput;
  readForgeRun : string -> string -> ForgeRun;
  convertFoundryDryRunToActionInputs :
    DeploymentInfo -> DryRun -> list string;
  getSphinxLeafGasEstimates : list Collected -> list (list Z);
  getConfigArtifacts : list Collected -> ConfigArtifacts;
  makeParsedConfig :
    DeploymentInfo -> list string -> option (list Z) -> ConfigArtifacts ->
    list string -> ParsedConfig
}.

Definition NoRpcEndpointMessage (networkName : string) : string :=
  "No RPC endpoint specified in your foundry.toml for the network: "
  ++ networkName ++ ".".

(** The loop over the network names.  What lies between the Forge run and
    the entry pushed onto [collected], the read and the decoding of the
    deployment info file and the read of the dry run, is [readForgeRun];
    it and [ensureSphinxAndGnosisSafeDeployed] are taken to return, and leave
    no event. *)
Fixpoint collectLoop (f : Foundry) (script : string) (target : option string)
  (safe : string) (networkNames : list string) (collected : list Collected)
  : Eff CollectEvent (list Collected) :=
  match networkNames with
  | [] => ret collected
  | networkName :: rest =>
      match truthy (rpcEndpoints f networkName) with
      | None =>
          emit (CollectConsoleError (NoRpcEndpointMessage networkName)) ;;;
          throw (ProcessExit 1)
      | Some rpcUrl =>
          emit (ForgeScriptCollect rpcUrl) ;;;
          let spawnOutput := forgeScriptCollect f script rpcUrl target safe in
          if negb (code spawnOutput =? 0)
          then
            emit (CollectConsoleLog (stdout spawnOutput)) ;;;
            emit (CollectConsoleLog (stderr spawnOutput)) ;;;
            throw (ProcessExit 1)
          else
              let run := readForgeRun f script rpcUrl in
              let info := runDeploymentInfo run in
              let inputs :=
                match collectionDryRun run with
                | Some dry => convertFoundryDryRunToActionInputs f info dry
                | None => []
                end in
              let libs :=
                match collectionDryRun run with
                | Some dry => dryRunLibraries dry
                | None => []
                end in
              collectLoop f script target safe rest
                (collected ++
                 [{| deploymentInfo := info; rawActionInputs := inputs;
                     libraries := libs; forkUrl := rpcUrl |}])
      end
  end.

Definition nothingToExecute (collected : list Collected) : bool :=
  Nat.eqb (length collected) 0
  || forallb (fun c => Nat.eqb (length (rawActionInputs c)) 0) collected.

(** [collected.map((c, i) => makeParsedConfig(..., gasEstimatesArray[i], ...))]. *)
Fixpoint mapParsedConfig (f : Foundry) (gasEstimatesArray : list (list Z))
  (artifacts : ConfigArtifacts) (i : nat) (collected : list Collected)
  : list ParsedConfig :=
  match collected with
  | [] => []
  | c :: rest =>
      makeParsedConfig f (deploymentInfo c) (rawActionInputs c)
        (nth_error gasEstimatesArray i) artifacts (libraries c)
      :: mapParsedConfig f gasEstimatesArray artifacts (S i) rest
  end.

Definition buildParsedConfigArray (f : Foundry) (script : string)
  (testnet : bool) (recompile : bool) (target : option string)
  : Eff CollectEvent BuildResult :=
  let cfg := getSphinxConfigFromScript f script target in
  let networkNames := if testnet then testnets cfg else mainnets cfg in
  collected <- collectLoop f script target (scriptSafeAddress cfg)
                 networkNames [] ;;
  if nothingToExecute collected
  then ret {| isEmpty := true; parsedConfigArray := None;
              configArtifacts := None |}
  else
    let gasEstimatesArray := getSphinxLeafGasEstimates f collected in
    (if recompile then emit Recompile else ret tt) ;;;
    let artifacts := getConfigArtifacts f collected in
    ret {| parsedConfigArray :=
             Some (mapParsedConfig f gasEstimatesArray artifacts 0 collected);
           configArtifacts := Some artifacts;
           isEmpty := false |}.

End Collect.

(** The context of the plugin: [buildParsedConfigArray] above, and the
    remaining collaborators as given. *)
Definition pluginContext (f : Collect.Foundry) (rest : SphinxContext)
  : SphinxContext :=
  {| buildParsedConfigArray := Collect.buildParsedConfigArray f;
     getNetworkGasEstimate := getNetworkGasEstimate rest;
     prompt := prompt rest;
     storeCanonicalConfig := storeCanonicalConfig rest;
     relayProposal := relayProposal rest |}.

End Propose.

(** ** Reading a collection *)

Module CollectObs.
Import Propose Propose.Collect.

(** The entry pushed onto [collected] for a network whose Forge run went
    through. *)
Definition entryFor (f : Foundry) (script rpcUrl : string) : Collected :=
  let run := readForgeRun f script rpcUrl in
  {| deploymentInfo := runDeploymentInfo run;
     rawActionInputs :=
       match collectionDryRun run with
       | Some dry =>
           convertFoundryDryRunToActionInputs f (runDeploymentInfo run) dry
       | None => []
       end;
     libraries :=
       match collectionDryRun run with
       | Some dry => dryRunLibraries dry
       | None => []
       end;
     forkUrl := rpcUrl |}.

(** A network collects when [foundry.toml] has an RPC endpoint for it and
    the Forge run on that endpoint exits with code 0. *)
Definition collects (f : Foundry) (script : string) (target : option string)
  (safe : string) (networkName : string) : bool :=
  match truthy (rpcEndpoints f networkName) with
  | Some rpcUrl => code (forgeScriptCollect f script rpcUrl target safe) =? 0
  | None => false
  end.

(** The endpoints of the networks that have one, in order. *)
Definition endpointsOf (f : Foundry) (networkNames : list string)
  : list string :=
  flat_map (fun networkName =>
              match truthy (rpcEndpoints f networkName) with
              | Some rpcUrl => [rpcUrl]
              | None => []
              end) networkNames.

(** The network names [buildParsedConfigArray] goes through. *)
Definition networksOf (f : Foundry) (script : string) (testnet : bool)
  (target : option string) : list string :=
  let cfg := getSphinxConfigFromScript f script target in
  if testnet then testnets cfg else mainnets cfg.

Definition safeOf (f : Foundry) (script : string) (target : option string)
  : string :=
  scriptSafeAddress (getSphinxConfigFromScript f script target).

End CollectObs.

(** ** Reading the trace of a run *)

Module Observe.
Import Propose.

(** No event of the trace satisfies [p]. *)
Definition never (p : Event -> bool) (t : list Event) : bool :=
  forallb (fun ev => negb (p ev)) t.

Definition isPrompt (ev : Event) : bool :=
  match ev with Prompt _ => true | _ => false end.

(** What the collection printed with [console.log], in order. *)
Definition collectLogged (t : list CollectEvent) : list string :=
  flat_map (fun e => match e with
                     | CollectConsoleLog text => [text]
                     | _ => []
                     end) t.

(** Everything a run printed with [console.log], in order: by [propose]
    itself and, through [Collecting], by the collection. *)
Definition consoleLogged (t : list Event) : list string :=
  flat_map (fun ev => match ev with
                      | ConsoleLog text => [text]
                      | Collecting e => collectLogged [e]
                      | _ => []
                      end) t.

Definition isRelay (ev : Event) : bool :=
  match ev with RelayProposal _ => true | _ => false end.

(** The events of the preview: the preview is printed when the run is
    confirmed or dry and not silent, and put to the user otherwise. *)
Definition previewEvents (core : Core) (args : ProposeArgs)
  (configs : list ParsedConfig) : list Event :=
  let preview := getPreview core configs in
  if confirm args || isDryRun args
  then if negb (silent args)
       then [ConsoleLog (getPreviewString core preview false)]
       else []
  else [Prompt (getPreviewString core preview true)].

(** The events of the registration of a request. *)
Definition registryEvents (args : ProposeArgs) (canonical : string)
  (r : ProposalRequest) : list Event :=
  if isDryRun args then []
  else [StoreCanonicalConfig (apiKey r) (prOrgId r) [canonical];
        RelayProposal r].

(** The deployments the per-chain loop pushes for a list of chains. *)
Definition deploymentsOf (t : SphinxMerkleTree) (configs : list ParsedConfig)
  : list ProjectDeployment :=
  flat_map (fun p => match getProjectDeploymentForChain t p with
                     | Ok (Some d) => [d]
                     | _ => []
                     end)
           (filter hasActions configs).

End Observe.

(** ** The authorization run of the test helpers *)

Module AuthStatus.

Inductive t : Type := EMPTY | SETUP | PROPOSED | COMPLETED.

End AuthStatus.

Module Auth.

(** Modelled from the spec: the payload of a leaf (section 3), whose
    encoding is not among the sources.  A SETUP or PROPOSE leaf declares
    the number of leaves of its chain, which is how [numLeafs] "becomes
    known" to the contract (section 4.4); the other payloads stay opaque. *)
Inductive LeafData : Type :=
| DeclaredLeafs (count : Z)
| ActionData (encoded : string).

(** A leaf of [proposalRequest.tree.leaves].  The helper reads [chainId],
    [leafType] and [siblings]; [index] and [data] are the other attributes
    of the leaf of section 3 of the spec. *)
Record ProposalRequestLeaf : Type := {
  chainId : Z;
  index : Z;
  leafType : SphinxLeafType.t;
  data : LeafData;
  siblings : list string
}.

(** Modelled from the spec: the leaf as the contract takes it, the leaf of
    section 3 without its proof. *)
Record RawAuthLeaf : Type := {
  rawChainId : Z;
  rawIndex : Z;
  rawLeafType : SphinxLeafType.t;
  rawData : LeafData
}.

(** Modelled from the spec: [fromProposalRequestLeafToRawAuthLeaf] of the
    core package, which is not among the sources; it keeps the attributes
    of the leaf of section 3 and drops the proof. *)
Definition fromProposalRequestLeafToRawAuthLeaf (leaf : ProposalRequestLeaf)
  : RawAuthLeaf :=
  {| rawChainId := chainId leaf; rawIndex := index leaf;
     rawLeafType := leafType leaf; rawData := data leaf |}.

Record AuthState : Type := {
  status : AuthStatus.t;
  leafsExecuted : Z;
  numLeafs : Z
}.

(** *** What the helper computes from [proposalRequest.tree.leaves] *)

Definition containsSetupLeaf (leaves : list ProposalRequestLeaf) (chain : Z)
  : bool :=
  existsb (fun leaf =>
             SphinxLeafType.eqb (leafType leaf) SphinxLeafType.SETUP
             && (chainId leaf =? chain)) leaves.

Definition expectedNumLeafs (leaves : list ProposalRequestLeaf) (chain : Z)
  : Z :=
  Z.of_nat (length (filter (fun leaf => chainId leaf =? chain) leaves)).

Definition proposalLeafIndex (leaves : list ProposalRequestLeaf) (chain : Z)
  : Z :=
  if containsSetupLeaf leaves chain then 1 else 0.

Definition expectedInitialStatus (leaves : list ProposalRequestLeaf)
  (chain : Z) : AuthStatus.t :=
  if containsSetupLeaf leaves chain then AuthStatus.SETUP
  else AuthStatus.EMPTY.

(** The state the helper expects to read after [Auth.propose]. *)
Definition expectedAfterPropose (leaves : list ProposalRequestLeaf)
  (chain : Z) : AuthState :=
  {| status := AuthStatus.PROPOSED;
     leafsExecuted := if containsSetupLeaf leaves chain then 2 else 1;
     numLeafs := expectedNumLeafs leaves chain |}.

(** Modelled from the spec: [findProposalRequestLeaf] of the core package,
    which is not among the sources.  A leaf is identified by its chain and
    its per-chain index ("unique per chain"); None stands for the exception
    raised when no such leaf exists. *)
Definition findProposalRequestLeaf (leaves : list ProposalRequestLeaf)
  (i : Z) (chain : Z) : option ProposalRequestLeaf :=
  find (fun leaf => (index leaf =? i) && (chainId leaf =? chain)) leaves.

(** *** The leaf builder *)

Record ChainInput : Type := {
  inputChainId : Z;
  setupRequired : bool;
  numActions : nat
}.

(** Modelled from the spec: the LeafBuilder's emission order for one chain,
    which is not among the sources.  One SETUP leaf first when setup is
    required, then exactly one PROPOSE and one APPROVE leaf, then the EXECUTE
    leaves ("SETUP before PROPOSE before APPROVE before EXECUTE-1..N"). *)
Definition emissionOrder (c : ChainInput) : list SphinxLeafType.t :=
  (if setupRequired c then [SphinxLeafType.SETUP] else [])
  ++ [SphinxLeafType.PROPOSE; SphinxLeafType.APPROVE]
  ++ repeat SphinxLeafType.EXECUTE (numActions c).

(** Modelled from the spec: the payload the LeafBuilder gives a leaf of a
    chain that gets [total] leaves. *)
Definition leafData (total : Z) (ty : SphinxLeafType.t) : LeafData :=
  match ty with
  | SphinxLeafType.SETUP | SphinxLeafType.PROPOSE => DeclaredLeafs total
  | _ => ActionData EmptyString
  end.

(** Modelled from the spec: "indices are assigned strictly in emission
    order", starting at 0 on every chain. *)
Fixpoint assignIndices (chain : Z) (total : Z) (next : Z)
  (types : list SphinxLeafType.t) : list ProposalRequestLeaf :=
  match types with
  | [] => []
  | ty :: rest =>
      {| chainId := chain; index := next; leafType := ty;
         data := leafData total ty; siblings := [] |}
      :: assignIndices chain total (next + 1) rest
  end.

(** Modelled from the spec: the LeafBuilder.  A chain with zero actions
    fails with EmptyActionSet (None) and is dropped from the proposal; the
    count a chain's leaves declare is the number of leaves emitted for it. *)
Definition leafBuilder (c : ChainInput) : option (list ProposalRequestLeaf) :=
  match numActions c with
  | O => None
  | S _ =>
      Some (assignIndices (inputChainId c)
              (Z.of_nat (length (emissionOrder c))) 0 (emissionOrder c))
  end.

Definition chainLeaves (c : ChainInput) : list ProposalRequestLeaf :=
  match leafBuilder c with
  | Some ls => ls
  | None => []
  end.

(** Modelled from the spec: the global leaf set, the leaves of every chain
    that was not dropped, chain after chain. *)
Definition buildLeaves (chains : list ChainInput) : list ProposalRequestLeaf :=
  flat_map chainLeaves chains.

(** *** The Authorization contract *)

Inductive SubmissionError : Type :=
| StateDesync (expectedIndex reported : Z)
| ThresholdUnmet
| WrongLeaf.

Inductive Submission (A : Type) : Type :=
| Accepted (a : A)
| Refused (e : SubmissionError).
Arguments Refused {A} e.

Definition initialAuthState : AuthState :=
  {| status := AuthStatus.EMPTY; leafsExecuted := 0; numLeafs := 0 |}.

(** Modelled from the spec: the contract's record of authorization
    progress, per root, read with [Auth.authStates(root)].  An unseen root
    reads as EMPTY. *)
Definition AuthStates : Type := string -> AuthState.

Definition noAuthStates : AuthStates := fun _ => initialAuthState.

Definition setAuthState (states : AuthStates) (root : string) (st : AuthState)
  : AuthStates :=
  fun r => if String.eqb r root then st else states r.

(** Modelled from the spec: the transitions of the Authorization contract
    (section 4.4), which is not among the sources.  The contract is given
    what the helper passes, a root, a leaf, signatures and a proof, and
    [ownerThreshold] is the threshold it was deployed with.  The leaf index
    must equal the [leafsExecuted] recorded for the root; SETUP and APPROVE
    need the owners' threshold of signatures, PROPOSE a single one; the
    leaf count recorded is the one the leaf declares.  The helper reads
    [numLeafs] right after SETUP too, so SETUP records the declared count as
    PROPOSE does.  The Merkle proof and the roles of the signers are taken
    to be valid. *)
Definition submitLeaf (ownerThreshold : Z) (root : string)
  (leaf : RawAuthLeaf) (signatures : list string) (proof : list string)
  (states : AuthStates) : Submission AuthStates :=
  let st := states root in
  if negb (rawIndex leaf =? leafsExecuted st)
  then Refused (StateDesync (rawIndex leaf) (leafsExecuted st))
  else
    match rawLeafType leaf, status st, rawData leaf with
    | SphinxLeafType.SETUP, AuthStatus.EMPTY, DeclaredLeafs declared =>
        if ownerThreshold <=? Z.of_nat (length signatures)
        then Accepted
               (setAuthState states root
                  {| status := AuthStatus.SETUP; leafsExecuted := 1;
                     numLeafs := declared |})
        else Refused ThresholdUnmet
    | SphinxLeafType.PROPOSE, AuthStatus.EMPTY, DeclaredLeafs declared
    | SphinxLeafType.PROPOSE, AuthStatus.SETUP, DeclaredLeafs declared =>
        if 1 <=? Z.of_nat (length signatures)
        then Accepted
               (setAuthState states root
                  {| status := AuthStatus.PROPOSED;
                     leafsExecuted := leafsExecuted st + 1;
                     numLeafs := declared |})
        else Refused ThresholdUnmet
    | SphinxLeafType.APPROVE, AuthStatus.PROPOSED, _ =>
        if ownerThreshold <=? Z.of_nat (length signatures)
        then Accepted
               (setAuthState states root
                  {| status := AuthStatus.COMPLETED;
                     leafsExecuted := leafsExecuted st + 1;
                     numLeafs := numLeafs st |})
        else Refused ThresholdUnmet
    | _, _, _ => Refused WrongLeaf
    end.

(** Modelled from the spec: the entry points [Auth.setup] and
    [Auth.propose] of the contract; each takes the leaf of its own kind. *)
Definition setup (ownerThreshold : Z) (root : string) (leaf : RawAuthLeaf)
  (signatures : list string) (proof : list string) (states : AuthStates)
  : Submission AuthStates :=
  if SphinxLeafType.eqb (rawLeafType leaf) SphinxLeafType.SETUP
  then submitLeaf ownerThreshold root leaf signatures proof states
  else Refused WrongLeaf.

Definition propose (ownerThreshold : Z) (root : string) (leaf : RawAuthLeaf)
  (signatures : list string) (proof : list string) (states : AuthStates)
  : Submission AuthStates :=
  if SphinxLeafType.eqb (rawLeafType leaf) SphinxLeafType.PROPOSE
  then submitLeaf ownerThreshold root leaf signatures proof states
  else Refused WrongLeaf.

(** *** The helper's run up to the proposal *)

(** [setupThenProposeThenApproveDeploymentThenExecute] submits the leaf at
    index 0 to [Auth.setup] with the owners' signatures, on a contract that
    has not seen the root; a tree without a SETUP leaf goes straight to the
    proposal. *)
Definition stateBeforePropose (w : Sig.Wallets) (ownerPrivateKeys : list string)
  (root : string) (ownerThreshold : Z) (leaves : list ProposalRequestLeaf)
  (chain : Z) : Submission AuthStates :=
  if containsSetupLeaf leaves chain
  then
    match findProposalRequestLeaf leaves 0 chain with
    | None => Refused WrongLeaf
    | Some setupLeaf =>
        let ownerSignatures :=
          Sig.getSignatures w ownerPrivateKeys root ownerThreshold in
        setup ownerThreshold root
          (fromProposalRequestLeafToRawAuthLeaf setupLeaf)
          ownerSignatures (siblings setupLeaf) noAuthStates
    end
  else Accepted noAuthStates.

(** [proposeThenApproveDeploymentThenExecute], up to the state read back
    after [Auth.propose]: the proposal leaf is looked up at the index the
    helper computes and submitted with the proposer's signature. *)
Definition stateAfterPropose (w : Sig.Wallets) (proposerPrivateKey : string)
  (root : string) (ownerThreshold : Z) (leaves : list ProposalRequestLeaf)
  (chain : Z) (states : AuthStates) : Submission AuthStates :=
  match findProposalRequestLeaf leaves (proposalLeafIndex leaves chain) chain
  with
  | None => Refused WrongLeaf
  | Some proposalLeaf =>
      let proposerSignatureArray :=
        Sig.getSignatures w [proposerPrivateKey] root 1 in
      propose ownerThreshold root
        (fromProposalRequestLeafToRawAuthLeaf proposalLeaf)
        proposerSignatureArray (siblings proposalLeaf) states
  end.

End Auth.

(** ** The sample project writer ([writeSampleProjectFiles]) *)

Module SampleProject.

(** File names fixed by the module. *)
Definition sampleContractFileName : string := "HelloSphinx.sol".
Definition sampleConfigFileNameTypeScript : string := "HelloSphinx.config.ts".
Definition sampleConfigNameJavaScript : string := "HelloSphinx.config.js".
Definition foundryTestFileName : string := "HelloSphinx.t.sol".
Definition foundryScriptFileName : string := "HelloSphinx.s.sol".
Definition hhTestFileNameTypeScript : string := "HelloSphinx.spec.ts".
Definition hhTestFileNameJavaScript : string := "HelloSphinx.test.js".

(** The sample texts, imported from the sibling modules. *)
Record SampleFiles : Type := {
  sampleSphinxFileTypeScript : string;
  sampleSphinxFileJavaScript : string;
  getSampleContractFile : string -> string;
  sampleTestFileTypeScript : string;
  sampleTestFileJavaScript : string;
  getSampleFoundryTestFile : string -> string -> string;
  getSampleFoundryDeployFile : string -> string -> string
}.

(** What the function uses of Node's [fs] and [path] modules, over a type
    of file system states.  [mkdirSync] and [writeFileSync] answer None when
    they throw; [readFileSync] is there to say what a file holds. *)
Class NodeFs (FS : Type) : Type := {
  existsSync : FS -> string -> bool;
  mkdirSync : FS -> string -> option FS;
  writeFileSync : FS -> string -> string -> option FS;
  readFileSync : FS -> string -> option string;
  pathJoin : string -> string -> string
}.

(** What is assumed of the file system: a directory made or a file written
    exists afterwards, a written file holds what was written, and neither
    operation touches another path. *)
Class NodeFsLaws (FS : Type) (fs : NodeFs FS) : Prop := {
  mkdir_exists : forall s s' p,
    mkdirSync s p = Some s' -> existsSync s' p = true;
  mkdir_frame : forall s s' p q,
    mkdirSync s p = Some s' -> q <> p ->
    existsSync s' q = existsSync s q /\ readFileSync s' q = readFileSync s q;
  write_exists : forall s s' p data,
    writeFileSync s p data = Some s' ->
    existsSync s' p = true /\ readFileSync s' p = Some data;
  write_frame : forall s s' p q data,
    writeFileSync s p data = Some s' -> q <> p ->
    existsSync s' q = existsSync s q /\ readFileSync s' q = readFileSync s q
}.

Inductive Failure : Type :=
| FsFailure (operation path : string)
| ScriptPathRequired.

(** A step of the function: it changes the file system and may throw,
    leaving the file system as it is at that point. *)
Definition Step (FS : Type) : Type := FS -> FS * option Failure.

Section Writer.

Context {FS : Type} {fs : NodeFs FS}.

Definition done : Step FS := fun s => (s, None).

Definition throwFailure (e : Failure) : Step FS := fun s => (s, Some e).

Definition andThen (a b : Step FS) : Step FS :=
  fun s => match a s with
           | (s', None) => b s'
           | (s', Some e) => (s', Some e)
           end.

(** [if (!fs.existsSync(p)) { fs.mkdirSync(p) }]. *)
Definition mkdirIfMissing (p : string) : Step FS :=
  fun s =>
    if existsSync s p then (s, None)
    else match mkdirSync s p with
         | Some s' => (s', None)
         | None => (s, Some (FsFailure "mkdirSync" p))
         end.

(** [if (!fs.existsSync(p)) { fs.writeFileSync(p, data) }]. *)
Definition writeIfMissing (p data : string) : Step FS :=
  fun s =>
    if existsSync s p then (s, None)
    else match writeFileSync s p data with
         | Some s' => (s', None)
         | None => (s, Some (FsFailure "writeFileSync" p))
         end.

Definition configPathOf (configDirPath : string) (isTypeScriptProject : bool)
  : string :=
  pathJoin configDirPath
    (if isTypeScriptProject then sampleConfigFileNameTypeScript
     else sampleConfigNameJavaScript).

(** The last part of the function, which depends on the integration. *)
Definition writeTestFiles (files : SampleFiles) (testDirPath : string)
  (isTypeScriptProject : bool) (solcVersion integration : string)
  (scriptDirPath : option string) (configPath : string) : Step FS :=
  if String.eqb integration "hardhat"
  then
    writeIfMissing
      (pathJoin testDirPath
         (if isTypeScriptProject then hhTestFileNameTypeScript
          else hhTestFileNameJavaScript))
      (if isTypeScriptProject then sampleTestFileTypeScript files
       else sampleTestFileJavaScript files)
  else if String.eqb integration "foundry"
  then
    match Propose.truthy scriptDirPath with
    | None => throwFailure ScriptPathRequired
    | Some scriptDir =>
        andThen (mkdirIfMissing scriptDir)
          (andThen
             (writeIfMissing (pathJoin testDirPath foundryTestFileName)
                (getSampleFoundryTestFile files solcVersion configPath))
             (writeIfMissing (pathJoin scriptDir foundryScriptFileName)
                (getSampleFoundryDeployFile files solcVersion configPath)))
    end
  else done.

Definition writeSampleProjectFiles (files : SampleFiles)
  (configDirPath contractDirPath testDirPath : string)
  (isTypeScriptProject : bool) (solcVersion integration : string)
  (scriptDirPath : option string) : Step FS :=
  let configPath := configPathOf configDirPath isTypeScriptProject in
  andThen (mkdirIfMissing configDirPath)
    (andThen (mkdirIfMissing contractDirPath)
       (andThen (mkdirIfMissing testDirPath)
          (andThen
             (writeIfMissing configPath
                (if isTypeScriptProject
                 then sampleSphinxFileTypeScript files
                 else sampleSphinxFileJavaScript files))
             (andThen
                (writeIfMissing
                   (pathJoin contractDirPath sampleContractFileName)
                   (getSampleContractFile files solcVersion))
                (writeTestFiles files testDirPath isTypeScriptProject
                   solcVersion integration scriptDirPath configPath))))).

(** The first part of the function: the three folders. *)
Definition makeFolders (configDirPath contractDirPath testDirPath : string)
  : Step FS :=
  andThen (mkdirIfMissing configDirPath)
    (andThen (mkdirIfMissing contractDirPath) (mkdirIfMissing testDirPath)).

(** The same steps written down as a list, for reasoning about all of them
    at once. *)
Inductive Action : Type :=
| Mkdir (p : string)
| Write (p data : string)
| Throw (e : Failure).

Definition stepOf (a : Action) : Step FS :=
  match a with
  | Mkdir p => mkdirIfMissing p
  | Write p data => writeIfMissing p data
  | Throw e => throwFailure e
  end.

Fixpoint runPlan (plan : list Action) : Step FS :=
  match plan with
  | [] => done
  | a :: rest => andThen (stepOf a) (runPlan rest)
  end.

Definition testPlan (files : SampleFiles) (testDirPath : string)
  (isTypeScriptProject : bool) (solcVersion integration : string)
  (scriptDirPath : option string) (configPath : string) : list Action :=
  if String.eqb integration "hardhat"
  then
    [Write
       (pathJoin testDirPath
          (if isTypeScriptProject then hhTestFileNameTypeScript
           else hhTestFileNameJavaScript))
       (if isTypeScriptProject then sampleTestFileTypeScript files
        else sampleTestFileJavaScript files)]
  else if String.eqb integration "foundry"
  then
    match Propose.truthy scriptDirPath with
    | None => [Throw ScriptPathRequired]
    | Some scriptDir =>
        [Mkdir scriptDir;
         Write (pathJoin testDirPath foundryTestFileName)
           (getSampleFoundryTestFile files solcVersion configPath);
         Write (pathJoin scriptDir foundryScriptFileName)
           (getSampleFoundryDeployFile files solcVersion configPath)]
    end
  else [].

Definition planOf (files : SampleFiles)
  (configDirPath contractDirPath testDirPath : string)
  (isTypeScriptProject : bool) (solcVersion integration : string)
  (scriptDirPath : option string) : list Action :=
  let configPath := configPathOf configDirPath isTypeScriptProject in
  [Mkdir configDirPath; Mkdir contractDirPath; Mkdir testDirPath;
   Write configPath
     (if isTypeScriptProject then sampleSphinxFileTypeScript files
      else sampleSphinxFileJavaScript files);
   Write (pathJoin contractDirPath sampleContractFileName)
     (getSampleContractFile files solcVersion)]
  ++ testPlan files testDirPath isTypeScriptProject solcVersion integration
       scriptDirPath configPath.

(** The paths a plan makes sure of, and whether it throws on its own. *)
Definition pathsOf (plan : list Action) : list string :=
  flat_map (fun a => match a with
                     | Mkdir p => [p]
                     | Write p _ => [p]
                     | Throw _ => []
                     end) plan.

Definition throws (plan : list Action) : bool :=
  existsb (fun a => match a with Throw _ => true | _ => false end) plan.

(** [s'] keeps everything that exists in [s], with the same contents. *)
Definition keeps (s s' : FS) : Prop :=
  forall q, existsSync s q = true ->
            existsSync s' q = true /\ readFileSync s' q = readFileSync s q.

End Writer.

(** What can be assumed of a file system in which two different strings may
    name the same path: making a directory or writing a file at a path that
    did not exist keeps what existed, and a written file holds what was
    written.  Nothing is asked of paths that differ as strings. *)
Class NodeFsKeeps (FS : Type) (fs : NodeFs FS) : Prop := {
  mkdir_keeps : forall s s' p,
    existsSync s p = false -> mkdirSync s p = Some s' -> keeps s s';
  write_keeps : forall s s' p data,
    existsSync s p = false -> writeFileSync s p data = Some s' -> keeps s s';
  write_reads : forall s s' p data,
    writeFileSync s p data = Some s' ->
    existsSync s' p = true /\ readFileSync s' p = Some data
}.

(** A file system in memory, for the concrete runs: a table of paths, the
    latest entry first; both operations always go through. *)
Inductive Node : Type :=
| Directory
| File (data : string).

Definition Table : Type := list (string * Node).

Definition lookupPath (s : Table) (p : string) : option Node :=
  match find (fun entry => String.eqb (fst entry) p) s with
  | Some entry => Some (snd entry)
  | None => None
  end.

#[export] Instance tableFs : NodeFs Table := {|
  existsSync := fun s p =>
    match lookupPath s p with Some _ => true | None => false end;
  mkdirSync := fun s p => Some ((p, Directory) :: s);
  writeFileSync := fun s p data => Some ((p, File data) :: s);
  readFileSync := fun s p =>
    match lookupPath s p with
    | Some (File data) => Some data
    | _ => None
    end;
  pathJoin := fun dir name => (dir ++ "/" ++ name)%string
|}.

Definition sampleFiles : SampleFiles := {|
  sampleSphinxFileTypeScript := "config.ts";
  sampleSphinxFileJavaScript := "config.js";
  getSampleContractFile := fun solc => ("contract " ++ solc)%string;
  sampleTestFileTypeScript := "test.ts";
  sampleTestFileJavaScript := "test.js";
  getSampleFoundryTestFile := fun solc config =>
    ("forge test " ++ solc ++ " " ++ config)%string;
  getSampleFoundryDeployFile := fun solc config =>
    ("forge script " ++ solc ++ " " ++ config)%string
|}.

End SampleProject.

(** ** Concrete runs *)

Module Samples.
Import Propose.

Definition config (org : string) : SphinxConfig :=
  {| orgId := org; projectName := "demo"; owners := ["0xA1"; "0xB2"];
     threshold := 2; saltNonce := "0" |}.

Definition chainConfig (chain : Z) (actions : list ActionInput) (org : string)
  : ParsedConfig :=
  {| chainId := chain; actionInputs := actions; newConfig := config org;
     safeAddress := "0x5afe"; moduleAddress := "0x30d";
     safeInitData := "0x1717";
     initialState := {| isExecuting := false |} |}.

Definition approveLeaf (parsedConfig : ParsedConfig) : LeafWithProof :=
  {| leaf := {| leafChainId := chainId parsedConfig; leafIndex := 0;
                leafType := SphinxLeafType.APPROVE; leafData := "approve" |};
     proof := [] |}.

(** A tree with one APPROVE leaf for every chain that has actions. *)
Definition core : Core :=
  {| makeMerkleTree := fun configs =>
       {| root := "0xroot";
          leavesWithProofs := map approveLeaf (filter hasActions configs) |};
     getPreview := fun _ => "preview";
     getPreviewString := fun preview _ => preview;
     canonicalConfigJson := fun _ artifacts => artifacts |}.

(** A context whose collection yields [configs] and whose other
    collaborators all succeed. *)
Definition context (configs : list ParsedConfig) : SphinxContext :=
  {| buildParsedConfigArray := fun _ _ _ _ =>
       ([], Ok {| parsedConfigArray := Some configs;
                  configArtifacts := Some "artifacts";
                  isEmpty := false |});
     getNetworkGasEstimate := fun _ chain =>
       Some {| geChainId := chain; estimatedGas := "21000" |};
     prompt := fun _ => Some tt;
     storeCanonicalConfig := fun _ _ _ => Some "config-id";
     relayProposal := fun _ => Some tt |}.

Definition args (dry : bool) (ctx : SphinxContext) : ProposeArgs :=
  {| confirm := false; isTestnet := true; isDryRun := dry; silent := true;
     scriptPath := "script/Deploy.s.sol"; sphinxContext := ctx;
     forceRecompile := false; targetContract := None |}.

Definition env : ProcessEnv := {| SPHINX_API_KEY := Some "key" |}.

(** Two chains, the second without actions. *)
Definition twoChains : list ParsedConfig :=
  [chainConfig 1 ["deploy"; "call"] "org"; chainConfig 2 [] "org"].

(** Two chains that agree on the five named fields and differ in the
    organisation id. *)
Definition orgA : ParsedConfig := chainConfig 1 ["deploy"] "org-a".
Definition orgB : ParsedConfig := chainConfig 2 ["deploy"] "org-b".
Definition twoOrgs : list ParsedConfig := [orgA; orgB].

(** One chain with a single action. *)
Definition oneAction : list ParsedConfig := [chainConfig 1 ["deploy"] "org"].

(** A tree with one APPROVE leaf for chain 1, and two configurations of that
    chain with different contents. *)
Definition approvedTree : SphinxMerkleTree :=
  makeMerkleTree core oneAction.
Definition smallConfig : ParsedConfig := chainConfig 1 ["deploy"] "org".
Definition largeConfig : ParsedConfig :=
  chainConfig 1 ["deploy"; "call"; "upgrade"] "org".

(** Two chains with different Safe addresses. *)
Definition firstSafe : ParsedConfig := chainConfig 1 ["deploy"] "org".
Definition otherSafe : ParsedConfig :=
  {| chainId := 2; actionInputs := ["deploy"]; newConfig := config "org";
     safeAddress := "0x0ther"; moduleAddress := "0x30d";
     safeInitData := "0x1717";
     initialState := {| isExecuting := false |} |}.
Definition twoSafes : list ParsedConfig := [firstSafe; otherSafe].

(** A Foundry side with two test networks on which the script broadcasts
    nothing. *)
Definition idleFoundry : Collect.Foundry :=
  {| Collect.getSphinxConfigFromScript := fun _ _ =>
       {| Collect.testnets := ["sepolia"; "optimism_sepolia"];
          Collect.mainnets := [];
          Collect.scriptSafeAddress := "0x5afe" |};
     Collect.rpcEndpoints := fun networkName => Some ("http://" ++ networkName)%string;
     Collect.forgeScriptCollect := fun _ _ _ _ =>
       {| Collect.code := 0; Collect.stdout := EmptyString; Collect.stderr := EmptyString |};
     Collect.readForgeRun := fun _ rpcUrl =>
       {| Collect.runDeploymentInfo :=
            {| Collect.diChainId := 1; Collect.diPayload := rpcUrl |};
          Collect.collectionDryRun := None |};
     Collect.convertFoundryDryRunToActionInputs := fun _ dry =>
       Collect.transactions dry;
     Collect.getSphinxLeafGasEstimates := fun _ => [];
     Collect.getConfigArtifacts := fun _ => "artifacts";
     Collect.makeParsedConfig := fun info inputs _ _ _ =>
       chainConfig (Collect.diChainId info) inputs "org" |}.

(** The scenario of the specification, cut to two chains: chain 1 needs
    setup and has two actions, chain 2 needs no setup and has one. *)
Definition chainA : Auth.ChainInput :=
  {| Auth.inputChainId := 1; Auth.setupRequired := true;
     Auth.numActions := 2 |}.
Definition chainB : Auth.ChainInput :=
  {| Auth.inputChainId := 2; Auth.setupRequired := false;
     Auth.numActions := 1 |}.
Definition chainsAB : list Auth.ChainInput := [chainA; chainB].

End Samples.

(** More concrete inputs: a registry that refuses, a tree with two APPROVE
    leaves per chain, a Foundry side with a network without endpoint and a
    network whose Forge run fails, and a file system with one file. *)
Module MoreSamples.
Import Propose.

Definition refusingRegistry (configs : list ParsedConfig) : SphinxContext :=
  {| buildParsedConfigArray :=
       buildParsedConfigArray (Samples.context configs);
     getNetworkGasEstimate :=
       getNetworkGasEstimate (Samples.context configs);
     prompt := prompt (Samples.context configs);
     storeCanonicalConfig := fun _ _ _ => None;
     relayProposal := relayProposal (Samples.context configs) |}.

(** A simulation that fails on chain 2 only. *)
Definition failingSimulation (configs : list ParsedConfig) : SphinxContext :=
  {| buildParsedConfigArray :=
       buildParsedConfigArray (Samples.context configs);
     getNetworkGasEstimate := fun all chain =>
       if chain =? 2 then None
       else getNetworkGasEstimate (Samples.context configs) all chain;
     prompt := prompt (Samples.context configs);
     storeCanonicalConfig := storeCanonicalConfig (Samples.context configs);
     relayProposal := relayProposal (Samples.context configs) |}.

Definition doubleApproval : Core :=
  {| makeMerkleTree := fun configs =>
       {| root := "0xroot";
          leavesWithProofs :=
            map Samples.approveLeaf (filter hasActions configs)
            ++ map Samples.approveLeaf (filter hasActions configs) |};
     getPreview := getPreview Samples.core;
     getPreviewString := getPreviewString Samples.core;
     canonicalConfigJson := canonicalConfigJson Samples.core |}.

(** Test networks: sepolia collects, ghost has no endpoint, holesky has a
    failing Forge run.  Main networks: both collect, one action each. *)
Definition patchyFoundry : Collect.Foundry :=
  {| Collect.getSphinxConfigFromScript := fun _ _ =>
       {| Collect.testnets := ["sepolia"; "ghost"; "holesky"];
          Collect.mainnets := ["ethereum"; "base"];
          Collect.scriptSafeAddress := "0x5afe" |};
     Collect.rpcEndpoints := fun networkName =>
       if String.eqb networkName "ghost" then None
       else Some ("http://" ++ networkName)%string;
     Collect.forgeScriptCollect := fun _ rpcUrl _ _ =>
       {| Collect.code := if String.eqb rpcUrl "http://holesky" then 1 else 0;
          Collect.stdout := "trace"; Collect.stderr := "revert" |};
     Collect.readForgeRun := fun _ rpcUrl =>
       {| Collect.runDeploymentInfo :=
            {| Collect.diChainId := Z.of_nat (String.length rpcUrl);
               Collect.diPayload := rpcUrl |};
          Collect.collectionDryRun :=
            Some {| Collect.transactions := ["deploy"];
                    Collect.dryRunLibraries := [] |} |};
     Collect.convertFoundryDryRunToActionInputs := fun _ dry =>
       Collect.transactions dry;
     Collect.getSphinxLeafGasEstimates := fun _ => [[21000]];
     Collect.getConfigArtifacts := fun _ => "artifacts";
     Collect.makeParsedConfig := fun info inputs _ _ _ =>
       Samples.chainConfig (Collect.diChainId info) inputs "org" |}.

(** Test networks: sepolia collects, holesky has a failing Forge run. *)
Definition brokenForge : Collect.Foundry :=
  {| Collect.getSphinxConfigFromScript := fun _ _ =>
       {| Collect.testnets := ["sepolia"; "holesky"];
          Collect.mainnets := [];
          Collect.scriptSafeAddress := "0x5afe" |};
     Collect.rpcEndpoints := Collect.rpcEndpoints patchyFoundry;
     Collect.forgeScriptCollect := Collect.forgeScriptCollect patchyFoundry;
     Collect.readForgeRun := Collect.readForgeRun patchyFoundry;
     Collect.convertFoundryDryRunToActionInputs :=
       Collect.convertFoundryDryRunToActionInputs patchyFoundry;
     Collect.getSphinxLeafGasEstimates :=
       Collect.getSphinxLeafGasEstimates patchyFoundry;
     Collect.getConfigArtifacts := Collect.getConfigArtifacts patchyFoundry;
     Collect.makeParsedConfig := Collect.makeParsedConfig patchyFoundry |}.

(** A run on the main networks: confirmed, not silent, not dry. *)
Definition mainnetArgs (ctx : SphinxContext) : ProposeArgs :=
  {| confirm := true; isTestnet := false; isDryRun := false; silent := false;
     scriptPath := "script/Deploy.s.sol"; sphinxContext := ctx;
     forceRecompile := false; targetContract := None |}.

Definition ownConfig : SampleProject.Table :=
  [("cfg/HelloSphinx.config.ts", SampleProject.File "mine")].

End MoreSamples.

(* ===================================================================== *)
(** * Part II: properties *)
(* ===================================================================== *)

(** ** Signature collection *)

Module SigFacts.
Import Sig.

Section WithWallets.

Variable w : Wallets.

Let addr := walletAddress w.
Let addrLe (a b : string) : Prop := addr a <= addr b.

Lemma compareKeys_le (a b : string) :
  (compareKeys w a b <=? 0) = (addr a <=? addr b).
Proof.
  unfold compareKeys, addr.
  destruct (Z.ltb_spec (walletAddress w a) (walletAddress w b)) as [Hlt|Hge].
  - symmetry. apply Z.leb_le. lia.
  - destruct (Z.gtb_spec (walletAddress w a) (walletAddress w b)) as [Hgt|Hle].
    + symmetry. apply Z.leb_gt. lia.
    + symmetry. apply Z.leb_le. lia.
Qed.

Lemma insertSorted_perm (x : string) (l : list string) :
  Permutation (insertSorted (compareKeys w) x l) (x :: l).
Proof.
  induction l as [|y ys IH]; simpl.
  - apply Permutation_refl.
  - destruct (compareKeys w x y <=? 0).
    + apply Permutation_refl.
    + apply perm_trans with (y :: x :: ys).
      * apply perm_skip, IH.
      * apply perm_swap.
Qed.

Lemma arraySort_perm (l : list string) :
  Permutation (arraySort (compareKeys w) l) l.
Proof.
  induction l as [|x xs IH]; simpl.
  - apply perm_nil.
  - eapply perm_trans; [apply insertSorted_perm|]. apply perm_skip, IH.
Qed.

Lemma insertSorted_sorted (x : string) (l : list string) :
  StronglySorted addrLe l ->
  StronglySorted addrLe (insertSorted (compareKeys w) x l).
Proof.
  induction 1 as [|y ys Hs IH Hall]; simpl.
  - repeat constructor.
  - rewrite compareKeys_le.
    destruct (Z.leb_spec (addr x) (addr y)) as [Hle|Hgt].
    + constructor; [constructor; assumption|].
      constructor; [exact Hle|].
      rewrite Forall_forall in *. intros z Hz.
      unfold addrLe in *. specialize (Hall z Hz). lia.
    + constructor; [exact IH|].
      rewrite Forall_forall in *. intros z Hz.
      apply (Permutation_in _ (insertSorted_perm x ys)) in Hz.
      destruct Hz as [<-|Hz]; [unfold addrLe; lia|auto].
Qed.

Lemma arraySort_sorted (l : list string) :
  StronglySorted addrLe (arraySort (compareKeys w) l).
Proof.
  induction l as [|x xs IH]; simpl.
  - constructor.
  - apply insertSorted_sorted, IH.
Qed.

Lemma NoDup_map_inj (l : list string) (a b : string) :
  NoDup (map addr l) -> In a l -> In b l -> addr a = addr b -> a = b.
Proof.
  induction l as [|x xs IH]; simpl; intros Hnd Ha Hb Hab; [contradiction|].
  inversion Hnd as [|? ? Hnotin Hnd']; subst.
  destruct Ha as [->|Ha], Hb as [->|Hb]; auto.
  - exfalso. apply Hnotin. rewrite Hab. apply in_map. exact Hb.
  - exfalso. apply Hnotin. rewrite <- Hab. apply in_map. exact Ha.
Qed.

(** A list of keys with pairwise distinct addresses has one ascending
    arrangement. *)
Lemma sorted_perm_unique (l1 l2 : list string) :
  NoDup (map addr l1) ->
  StronglySorted addrLe l1 -> StronglySorted addrLe l2 ->
  Permutation l1 l2 -> l1 = l2.
Proof.
  revert l2. induction l1 as [|a l1 IH]; intros l2 Hnd H1 H2 Hp.
  - apply Permutation_nil in Hp. congruence.
  - destruct l2 as [|b l2].
    + apply Permutation_sym, Permutation_nil in Hp. discriminate.
    + assert (Hab : a = b).
      { apply (@NoDup_map_inj (a :: l1)); auto.
        - left; reflexivity.
        - apply (Permutation_in _ (Permutation_sym Hp)). left; reflexivity.
        - apply StronglySorted_inv in H1. apply StronglySorted_inv in H2.
          destruct H1 as [_ Ha], H2 as [_ Hb].
          rewrite Forall_forall in Ha, Hb.
          assert (Hb_in : In b (a :: l1))
            by (apply (Permutation_in _ (Permutation_sym Hp)); left; auto).
          assert (Ha_in : In a (b :: l2))
            by (apply (Permutation_in _ Hp); left; auto).
          assert (addr a <= addr b).
          { destruct Hb_in as [->|Hin]; [lia|apply Ha, Hin]. }
          assert (addr b <= addr a).
          { destruct Ha_in as [->|Hin]; [lia|apply Hb, Hin]. }
          lia. }
      subst b. f_equal.
      apply IH.
      * simpl in Hnd. inversion Hnd; assumption.
      * apply StronglySorted_inv in H1. tauto.
      * apply StronglySorted_inv in H2. tauto.
      * apply Permutation_cons_inv in Hp. exact Hp.
Qed.

Lemma sortedOwnerPrivateKeys_perm_eq (keys1 keys2 : list string) :
  NoDup (map addr keys1) -> Permutation keys1 keys2 ->
  sortedOwnerPrivateKeys w keys1 = sortedOwnerPrivateKeys w keys2.
Proof.
  intros Hnd Hp. unfold sortedOwnerPrivateKeys.
  apply sorted_perm_unique.
  - eapply Permutation_NoDup; [|exact Hnd].
    apply Permutation_map, Permutation_sym, arraySort_perm.
  - apply arraySort_sorted.
  - apply arraySort_sorted.
  - eapply perm_trans; [apply arraySort_perm|].
    eapply perm_trans; [exact Hp|].
    apply Permutation_sym, arraySort_perm.
Qed.

(** With pairwise distinct addresses, ascending is strictly ascending. *)
Lemma sorted_strict (l : list string) :
  NoDup (map addr l) -> StronglySorted addrLe l ->
  StronglySorted Z.lt (map addr l).
Proof.
  induction l as [|a l IH]; simpl; intros Hnd Hs.
  - constructor.
  - inversion Hnd as [|? ? Hnotin Hnd']; subst.
    apply StronglySorted_inv in Hs. destruct Hs as [Hs Hall].
    constructor; [apply IH; assumption|].
    rewrite Forall_forall in *. intros z Hz.
    apply in_map_iff in Hz. destruct Hz as [k [<- Hk]].
    specialize (Hall k Hk). unfold addrLe in Hall.
    assert (addr a <> addr k).
    { intros Heq. apply Hnotin. rewrite Heq. apply in_map, Hk. }
    lia.
Qed.

Lemma firstn_In (A : Type) (n : nat) (l : list A) (x : A) :
  In x (firstn n l) -> In x l.
Proof.
  revert n. induction l as [|a l IH]; intros [|n]; simpl; try tauto.
  intros [->|Hin]; [left; reflexivity|right; eapply IH; exact Hin].
Qed.

Lemma firstn_sorted (A : Type) (R : A -> A -> Prop) (n : nat) (l : list A) :
  StronglySorted R l -> StronglySorted R (firstn n l).
Proof.
  revert n. induction l as [|a l IH]; intros [|n] Hs; simpl;
    try constructor.
  - apply IH. apply StronglySorted_inv in Hs. tauto.
  - apply StronglySorted_inv in Hs. destruct Hs as [_ Hall].
    rewrite Forall_forall in *. intros z Hz. apply Hall.
    eapply firstn_In. exact Hz.
Qed.

Let sign (root k : string) : string := signAuthRootMetaTxn w k root.

(** The loop appends the signatures of a prefix of the keys: the keys up to
    the one whose signature brings the count to [threshold], or all of them
    when the count never equals [threshold]. *)
Lemma signLoop_prefix (root : string) (threshold : Z) (keys acc : list string) :
  signLoop w root threshold keys acc =
  acc ++ map (sign root)
    (if (Z.of_nat (length acc) <? threshold)
        && (threshold <=? Z.of_nat (length acc + length keys))
     then firstn (Z.to_nat threshold - length acc) keys
     else keys).
Proof.
  revert acc. induction keys as [|k rest IH]; intros acc; simpl.
  - rewrite firstn_nil. destruct (_ && _); simpl; rewrite app_nil_r; reflexivity.
  - rewrite length_app. simpl length.
    destruct (Z.eqb_spec (Z.of_nat (length acc + 1)) threshold) as [Heq|Hne].
    + replace ((Z.of_nat (length acc) <? threshold)
               && (threshold <=? Z.of_nat (length acc + S (length rest))))
        with true
        by (symmetry; apply andb_true_iff; split;
            [apply Z.ltb_lt|apply Z.leb_le]; lia).
      replace (Z.to_nat threshold - length acc)%nat with 1%nat by lia.
      reflexivity.
    + rewrite IH. rewrite length_app. simpl length.
      rewrite <- app_assoc. f_equal. simpl app.
      destruct (Z.ltb_spec (Z.of_nat (length acc)) threshold) as [Hlt|Hge];
        destruct (Z.leb_spec threshold
                    (Z.of_nat (length acc + S (length rest)))) as [Hle|Hgt];
        simpl andb.
      * replace ((Z.of_nat (length acc + 1) <? threshold)
                 && (threshold <=? Z.of_nat (length acc + 1 + length rest)))
          with true
          by (symmetry; apply andb_true_iff; split;
              [apply Z.ltb_lt|apply Z.leb_le]; lia).
        replace (Z.to_nat threshold - length acc)%nat
          with (S (Z.to_nat threshold - (length acc + 1)))%nat by lia.
        reflexivity.
      * replace (threshold <=? Z.of_nat (length acc + 1 + length rest))
          with false by (symmetry; apply Z.leb_gt; lia).
        rewrite andb_false_r. reflexivity.
      * replace (Z.of_nat (length acc + 1) <? threshold)
          with false by (symmetry; apply Z.ltb_ge; lia).
        reflexivity.
      * replace (Z.of_nat (length acc + 1) <? threshold)
          with false by (symmetry; apply Z.ltb_ge; lia).
        reflexivity.
Qed.

(** [getSignatures] in closed form. *)
Lemma getSignatures_closed (keys : list string) (root : string) (threshold : Z) :
  getSignatures w keys root threshold =
  map (sign root)
    (firstn (signedCount threshold (length keys))
       (sortedOwnerPrivateKeys w keys)).
Proof.
  unfold getSignatures, getSignaturesSt. simpl snd.
  rewrite signLoop_prefix. simpl app. simpl length.
  assert (Hlen : length (sortedOwnerPrivateKeys w keys) = length keys)
    by (apply Permutation_length, arraySort_perm).
  rewrite Hlen. unfold signedCount.
  replace (0 <? threshold) with (1 <=? threshold)
    by (destruct (Z.leb_spec 1 threshold), (Z.ltb_spec 0 threshold);
        reflexivity || lia).
  simpl Nat.add. rewrite Nat.sub_0_r.
  destruct ((1 <=? threshold) && (threshold <=? Z.of_nat (length keys)));
    [reflexivity|].
  rewrite <- Hlen, firstn_all. reflexivity.
Qed.

Lemma getSignatures_length (keys : list string) (root : string) (threshold : Z) :
  length (getSignatures w keys root threshold) =
  signedCount threshold (length keys).
Proof.
  rewrite getSignatures_closed, length_map, length_firstn.
  assert (Hlen : length (sortedOwnerPrivateKeys w keys) = length keys)
    by (apply Permutation_length, arraySort_perm).
  rewrite Hlen. unfold signedCount.
  destruct (Z.leb_spec 1 threshold), (Z.leb_spec threshold (Z.of_nat (length keys)));
    simpl; lia.
Qed.

(** C2.  Signature ordering invariance.  For signers with pairwise distinct
    addresses, any two input orders of the same keys give the same
    signatures, and these are the signatures of signers in strictly
    ascending address order, all taken from the input. *)
Theorem getSignatures_order_invariant
  (keys1 keys2 : list string) (root : string) (threshold : Z) :
  NoDup (map (walletAddress w) keys1) ->
  Permutation keys1 keys2 ->
  getSignatures w keys1 root threshold = getSignatures w keys2 root threshold
  /\ exists signers : list string,
       getSignatures w keys2 root threshold =
         map (fun k => signAuthRootMetaTxn w k root) signers
       /\ StronglySorted Z.lt (map (walletAddress w) signers)
       /\ (forall k, In k signers -> In k keys2).
Proof.
  intros Hnd Hp.
  assert (Hsorted : sortedOwnerPrivateKeys w keys1 = sortedOwnerPrivateKeys w keys2)
    by (apply sortedOwnerPrivateKeys_perm_eq; assumption).
  split.
  - rewrite !getSignatures_closed, Hsorted, (Permutation_length Hp).
    reflexivity.
  - exists (firstn (signedCount threshold (length keys2))
              (sortedOwnerPrivateKeys w keys2)).
    split; [apply getSignatures_closed|]. split.
    + rewrite <- firstn_map. apply firstn_sorted.
      apply sorted_strict.
      * eapply Permutation_NoDup; [|exact Hnd].
        apply Permutation_map.
        eapply perm_trans; [exact Hp|].
        apply Permutation_sym, arraySort_perm.
      * apply arraySort_sorted.
    + intros k Hk. apply firstn_In in Hk.
      eapply Permutation_in; [apply arraySort_perm|exact Hk].
Qed.

(** C6, as amended.  For a threshold of at least one and at least that many
    keys, exactly [threshold] signatures come back: those of the first
    [threshold] keys in ascending address order, and of no other key. *)
Theorem getSignatures_exactly_threshold
  (keys : list string) (root : string) (threshold : Z) :
  1 <= threshold <= Z.of_nat (length keys) ->
  Z.of_nat (length (getSignatures w keys root threshold)) = threshold
  /\ getSignatures w keys root threshold =
       map (fun k => signAuthRootMetaTxn w k root)
         (firstn (Z.to_nat threshold) (sortedOwnerPrivateKeys w keys)).
Proof.
  intros [Hlo Hhi].
  assert (Hc : signedCount threshold (length keys) = Z.to_nat threshold).
  { unfold signedCount.
    destruct (Z.leb_spec 1 threshold), (Z.leb_spec threshold (Z.of_nat (length keys)));
      simpl; lia. }
  split.
  - rewrite getSignatures_length, Hc. lia.
  - rewrite getSignatures_closed, Hc. reflexivity.
Qed.

(** C7, as amended.  [getSignatures] has no failure path.  Given fewer keys
    than [threshold] it signs with every key and returns fewer than
    [threshold] signatures; the caller's length expectation is what fails. *)
Theorem getSignatures_insufficient_signers
  (keys : list string) (root : string) (threshold : Z) :
  Z.of_nat (length keys) < threshold ->
  getSignatures w keys root threshold =
    map (fun k => signAuthRootMetaTxn w k root) (sortedOwnerPrivateKeys w keys)
  /\ Z.of_nat (length (getSignatures w keys root threshold)) < threshold
  /\ getSignaturesChecked w keys root threshold =
       AssertionError (Z.of_nat (length keys)) threshold.
Proof.
  intros Hlt.
  assert (Hc : signedCount threshold (length keys) = length keys).
  { unfold signedCount.
    destruct (Z.leb_spec 1 threshold), (Z.leb_spec threshold (Z.of_nat (length keys)));
      simpl; lia. }
  assert (Hlen : length (getSignatures w keys root threshold) = length keys)
    by (rewrite getSignatures_length; exact Hc).
  split; [|split].
  - rewrite getSignatures_closed, Hc.
    replace (length keys) with (length (sortedOwnerPrivateKeys w keys))
      by (apply Permutation_length, arraySort_perm).
    rewrite firstn_all. reflexivity.
  - rewrite Hlen. exact Hlt.
  - unfold getSignaturesChecked. rewrite Hlen.
    destruct (Z.eqb_spec (Z.of_nat (length keys)) threshold); [lia|reflexivity].
Qed.

End WithWallets.

(** *** Concrete runs *)

Lemma getSignatures_order_invariant_witness :
  NoDup (map (walletAddress sampleWallets) ["ccc"; "a"; "bb"])
  /\ Permutation ["ccc"; "a"; "bb"] ["a"; "bb"; "ccc"]
  /\ getSignatures sampleWallets ["ccc"; "a"; "bb"] "root" 2
     = getSignatures sampleWallets ["a"; "bb"; "ccc"] "root" 2
  /\ getSignatures sampleWallets ["ccc"; "a"; "bb"] "root" 2
     = ["a@root"; "bb@root"].
Proof.
  assert (Hnd : NoDup (map (walletAddress sampleWallets) ["ccc"; "a"; "bb"])).
  { simpl. repeat constructor; simpl; intuition discriminate. }
  assert (Hp : Permutation ["ccc"; "a"; "bb"] ["a"; "bb"; "ccc"])
    by exact (Permutation_cons_append ["a"; "bb"] "ccc").
  split; [exact Hnd|]. split; [exact Hp|]. split; [|reflexivity].
  exact (proj1 (@getSignatures_order_invariant sampleWallets
                  ["ccc"; "a"; "bb"] ["a"; "bb"; "ccc"] "root" 2 Hnd Hp)).
Defined.

Lemma getSignatures_exactly_threshold_witness :
  1 <= 2 <= Z.of_nat (length ["ccc"; "a"; "bb"])
  /\ Z.of_nat (length (getSignatures sampleWallets ["ccc"; "a"; "bb"] "root" 2))
     = 2.
Proof.
  assert (H : 1 <= 2 <= Z.of_nat (length ["ccc"; "a"; "bb"])) by (simpl; lia).
  split; [exact H|].
  exact (proj1 (@getSignatures_exactly_threshold sampleWallets
                  ["ccc"; "a"; "bb"] "root" 2 H)).
Defined.

(** C6 as stated fails for a threshold of zero: the count of signatures is
    tested after each push, so it is never found equal to zero and every key
    signs. *)
Lemma getSignatures_threshold_zero_counterexample :
  0 <= Z.of_nat (length ["a"; "bb"])
  /\ getSignatures sampleWallets ["a"; "bb"] "root" 0 = ["a@root"; "bb@root"]
  /\ Z.of_nat (length (getSignatures sampleWallets ["a"; "bb"] "root" 0)) = 2.
Proof. split; [simpl; lia|]. split; reflexivity. Qed.

Lemma getSignatures_insufficient_signers_witness :
  Z.of_nat (length ["a"]) < 2
  /\ getSignatures sampleWallets ["a"] "root" 2 = ["a@root"]
  /\ getSignaturesChecked sampleWallets ["a"] "root" 2 = AssertionError 1 2.
Proof.
  assert (H : Z.of_nat (length ["a"]) < 2) by (simpl; lia).
  split; [exact H|].
  pose proof (@getSignatures_insufficient_signers sampleWallets ["a"] "root" 2 H)
    as [H1 [_ H3]].
  split; [exact H1|exact H3].
Defined.

(** C7 as stated fails with one key and a threshold of two: no error, and a
    set of one signature comes back. *)
Lemma getSignatures_below_threshold_counterexample :
  Z.of_nat (length ["a"]) < 2
  /\ getSignatures sampleWallets ["a"] "root" 2 = ["a@root"]
  /\ Z.of_nat (length (getSignatures sampleWallets ["a"] "root" 2)) < 2.
Proof. split; [simpl; lia|]. split; [reflexivity|simpl; lia]. Qed.

End SigFacts.

(** ** The propose command *)

Module ProposeFacts.
Import Propose.

(** *** The effect monad *)

Lemma outcome_bind (E A B : Type) (m : Eff E A) (k : A -> Eff E B) :
  outcome (bind m k) =
  match outcome m with
  | Ok a => outcome (k a)
  | Err e => Err e
  end.
Proof.
  destruct m as [t [a|e]]; simpl; [destruct (k a)|]; reflexivity.
Qed.

Lemma trace_bind (E A B : Type) (m : Eff E A) (k : A -> Eff E B) :
  trace (bind m k) =
  trace m ++ match outcome m with
             | Ok a => trace (k a)
             | Err _ => []
             end.
Proof.
  destruct m as [t [a|e]]; simpl; [destruct (k a)|rewrite app_nil_r];
    reflexivity.
Qed.

Lemma outcome_emit (A : Type) (ev : Event) (k : M A) :
  outcome (emit ev ;;; k) = outcome k.
Proof. unfold bind, emit, outcome. destruct k. reflexivity. Qed.

Lemma trace_emit (A : Type) (ev : Event) (k : M A) :
  trace (emit ev ;;; k) = ev :: trace k.
Proof. unfold bind, emit, trace. destruct k. reflexivity. Qed.

Lemma outcome_mapTrace (E F A : Type) (f : E -> F) (m : Eff E A) :
  outcome (mapTrace f m) = outcome m.
Proof. reflexivity. Qed.

Lemma outcome_bind_ok (E A B : Type) (m : Eff E A) (k : A -> Eff E B) (b : B) :
  outcome (bind m k) = Ok b ->
  exists a, outcome m = Ok a /\ outcome (k a) = Ok b.
Proof.
  rewrite outcome_bind. destruct (outcome m) as [a|e]; [|discriminate].
  intros H. exists a. split; [reflexivity|exact H].
Qed.

Lemma noRemoteCall_app (l1 l2 : list Event) :
  noRemoteCall (l1 ++ l2) = noRemoteCall l1 && noRemoteCall l2.
Proof. apply forallb_app. Qed.

Lemma noRemoteCall_bind (A B : Type) (m : M A) (k : A -> M B) :
  noRemoteCall (trace m) = true ->
  (forall a, noRemoteCall (trace (k a)) = true) ->
  noRemoteCall (trace (bind m k)) = true.
Proof.
  intros Hm Hk. rewrite trace_bind, noRemoteCall_app, Hm.
  destruct (outcome m); [apply Hk|reflexivity].
Qed.

Lemma noRemoteCall_collecting (A : Type) (m : Eff CollectEvent A) :
  noRemoteCall (trace (mapTrace Collecting m)) = true.
Proof.
  destruct m as [t o]. unfold mapTrace, trace. simpl.
  induction t; [reflexivity|exact IHt].
Qed.

Lemma noRemoteCall_prefix (args : ProposeArgs) (tr : list CollectEvent)
  (l : list Event) :
  noRemoteCall (preamble args ++ map Collecting tr ++ l) = noRemoteCall l.
Proof.
  unfold noRemoteCall, preamble. cbn [app forallb isRemoteCall negb andb].
  induction tr as [|e tr IH]; [reflexivity|exact IH].
Qed.

Lemma noRemoteCall_promiseAll (A : Type) (calls : list (Event * Outcome A)) :
  (forall c, In c calls -> isRemoteCall (fst c) = false) ->
  noRemoteCall (trace (promiseAll calls)) = true.
Proof.
  induction calls as [|[ev o] rest IH]; intros H; [reflexivity|].
  assert (Hev : isRemoteCall ev = false) by (apply (H (ev, o)); left; reflexivity).
  assert (Hrest : noRemoteCall (trace (promiseAll rest)) = true)
    by (apply IH; intros c Hc; apply H; right; exact Hc).
  simpl. destruct (promiseAll rest) as [t r]. simpl in Hrest.
  destruct o, r; unfold trace, noRemoteCall; simpl; rewrite Hev; exact Hrest.
Qed.

(** *** The per-chain loop *)

Lemma chainLoop_ok (t : SphinxMerkleTree) (configs : list ParsedConfig) :
  forall st st',
    chainLoop t configs st = Ok st' ->
    lsChainIds st' = lsChainIds st ++ map chainId (filter hasActions configs)
    /\ lsChainStatus st' =
         lsChainStatus st ++ map chainStatusEntry (filter hasActions configs).
Proof.
  induction configs as [|p rest IH]; intros st st' H; simpl in H.
  - injection H as <-. simpl. rewrite !app_nil_r. split; reflexivity.
  - assert (Hf : filter hasActions (p :: rest) =
                 if hasActions p then p :: filter hasActions rest
                 else filter hasActions rest) by reflexivity.
    rewrite Hf. clear Hf.
    destruct (Nat.eqb (length (actionInputs p)) 0) eqn:E.
    + assert (Hp : hasActions p = false)
        by (unfold hasActions; rewrite E; reflexivity).
      rewrite Hp. apply IH, H.
    + assert (Hp : hasActions p = true)
        by (unfold hasActions; rewrite E; reflexivity).
      rewrite Hp.
      destruct (getProjectDeploymentForChain t p) as [d|e]; [|discriminate].
      apply IH in H. simpl in H. destruct H as [H1 H2].
      rewrite H1, H2, <- !app_assoc. split; reflexivity.
Qed.

(** *** The equality check *)

Lemma elementsEqual_true (ary : list ShouldBeEqual) :
  elementsEqual ary = true <-> (forall x y, In x ary -> In y ary -> x = y).
Proof.
  destruct ary as [|first rest]; simpl.
  - split; [intros _ x y []|reflexivity].
  - destruct (ShouldBeEqual_eq_dec first first) as [_|Hne]; [|congruence].
    simpl. rewrite forallb_forall. split.
    + intros H x y Hx Hy.
      assert (Hfirst : forall z, first = z \/ In z rest -> z = first).
      { intros z [<-|Hz]; [reflexivity|].
        specialize (H z Hz).
        destruct (ShouldBeEqual_eq_dec z first); [assumption|discriminate]. }
      rewrite (Hfirst x Hx), (Hfirst y Hy). reflexivity.
    + intros H z Hz.
      destruct (ShouldBeEqual_eq_dec z first) as [_|Hne]; [reflexivity|].
      exfalso. apply Hne. apply H; [right; exact Hz|left; reflexivity].
Qed.

Lemma differ_not_equal (p q : ParsedConfig) :
  differOnNamedFields p q -> shouldBeEqualOf p <> shouldBeEqualOf q.
Proof.
  unfold differOnNamedFields, shouldBeEqualOf.
  intros H Heq. injection Heq as Hc Hs Hm Hi.
  destruct H as [H|[H|[H|[H|H]]]]; apply H; congruence.
Qed.

Lemma elementsEqual_differ (configs : list ParsedConfig) (p q : ParsedConfig) :
  In p configs -> In q configs -> differOnNamedFields p q ->
  elementsEqual (map shouldBeEqualOf configs) = false.
Proof.
  intros Hp Hq Hd.
  destruct (elementsEqual (map shouldBeEqualOf configs)) eqn:E; [|reflexivity].
  exfalso. apply (differ_not_equal Hd).
  apply (proj1 (elementsEqual_true _) E); apply in_map; assumption.
Qed.

Lemma chainLoop_err (t : SphinxMerkleTree) (configs : list ParsedConfig) :
  forall st e,
    chainLoop t configs st = Err e -> exists chain, e = MultipleApprovalLeaves chain.
Proof.
  induction configs as [|p rest IH]; intros st e H; simpl in H; [discriminate|].
  destruct (Nat.eqb (length (actionInputs p)) 0); [eapply IH; exact H|].
  destruct (getProjectDeploymentForChain t p) as [d|e'] eqn:E.
  - eapply IH; exact H.
  - injection H as <-. unfold getProjectDeploymentForChain in E.
    destruct (approvalLeaves t (chainId p)) as [|l1 [|l2 ls]]; try discriminate.
    injection E as <-. eexists; reflexivity.
Qed.

Lemma MultipleApprovalLeaves_not_inconsistent (chain : Z) :
  MultipleApprovalLeaves chain <> InconsistentConfiguration.
Proof. unfold MultipleApprovalLeaves, InconsistentConfiguration. simpl. discriminate. Qed.

(** *** The simulation and the preview *)

Lemma simulateAndPreview_noRemote (core : Core) (args : ProposeArgs)
  (configs : list ParsedConfig) :
  noRemoteCall (trace (simulateAndPreview core args configs)) = true.
Proof.
  unfold simulateAndPreview. apply noRemoteCall_bind.
  - apply noRemoteCall_promiseAll. intros c Hc.
    apply in_map_iff in Hc. destruct Hc as [p [<- _]]. reflexivity.
  - intros estimates. apply noRemoteCall_bind; [|reflexivity].
    destruct (confirm args || isDryRun args).
    + destruct (negb (silent args)); reflexivity.
    + apply noRemoteCall_bind; reflexivity.
Qed.

(** The simulation of a dry run succeeds whenever that of a real run does,
    with the same estimates and preview. *)
Lemma simulateAndPreview_dry (core : Core) (args : ProposeArgs)
  (configs : list ParsedConfig) (sp : list GasEstimate * Preview) :
  outcome (simulateAndPreview core (withDryRun false args) configs) = Ok sp ->
  outcome (simulateAndPreview core (withDryRun true args) configs) = Ok sp.
Proof.
  unfold simulateAndPreview. cbn [sphinxContext withDryRun confirm isDryRun silent].
  rewrite !outcome_bind.
  destruct (outcome (promiseAll _)) as [estimates|e]; [|discriminate].
  rewrite !outcome_bind, orb_true_r.
  intros H.
  replace (outcome (if negb (silent args)
                    then emit (ConsoleLog
                                 (getPreviewString core (getPreview core configs) false))
                    else ret tt))
    with (@Ok unit tt) by (destruct (negb (silent args)); reflexivity).
  destruct (outcome _) as [u|e] in H; [exact H|discriminate].
Qed.

(** *** The tail of [propose] *)

Lemma assembleAndRelay_ok (core : Core) (key : string) (args : ProposeArgs)
  (configs : list ParsedConfig) (artifacts : ConfigArtifacts)
  (t : SphinxMerkleTree) (estimates : list GasEstimate) (preview : Preview)
  (out : ProposeResult) :
  outcome (assembleAndRelay core key args configs artifacts t estimates preview)
    = Ok out ->
  exists first rest st id,
    configs = first :: rest
    /\ chainLoop t configs emptyLoopState = Ok st
    /\ out = {| proposalRequest :=
                  Some (setCompilerConfigId
                          (buildRequest key args first t st estimates preview)
                          id);
                canonicalConfigData :=
                  Some (canonicalConfigJson core configs artifacts);
                resConfigArtifacts := Some artifacts;
                resParsedConfigArray := Some configs;
                merkleTree := Some t |}
    /\ (if isDryRun args then id = None else exists i, id = Some i).
Proof.
  unfold assembleAndRelay. destruct configs as [|first rest]; [discriminate|].
  rewrite outcome_bind. unfold lift at 1. unfold outcome at 1. cbn [snd].
  destruct (chainLoop t (first :: rest) emptyLoopState) as [st|e];
    [|discriminate].
  intros H. exists first, rest, st.
  destruct (isDryRun args).
  - exists None. injection H as <-. repeat split.
  - unfold bind, emit, lift, ret, await, outcome in H. cbn in H.
    destruct (storeCanonicalConfig _ _ _ _) as [i|]; [|discriminate].
    cbn in H.
    destruct (relayProposal _ _) as [u|]; [|discriminate].
    cbn in H. injection H as <-.
    exists (Some i). repeat split. exists i. reflexivity.
Qed.

Lemma finishProposal_ok (core : Core) (key : string) (args : ProposeArgs)
  (configs : list ParsedConfig) (artifacts : ConfigArtifacts)
  (t : SphinxMerkleTree) (estimates : list GasEstimate) (preview : Preview)
  (out : ProposeResult) :
  outcome (finishProposal core key args configs artifacts t estimates preview)
    = Ok out ->
  elementsEqual (map shouldBeEqualOf configs) = true
  /\ outcome (assembleAndRelay core key args configs artifacts t estimates
                preview) = Ok out.
Proof.
  unfold finishProposal.
  destruct (elementsEqual (map shouldBeEqualOf configs)); simpl negb; cbv iota.
  - intros H. split; [reflexivity|exact H].
  - discriminate.
Qed.

Lemma assembleAndRelay_dry_noRemote (core : Core) (key : string)
  (args : ProposeArgs) (configs : list ParsedConfig)
  (artifacts : ConfigArtifacts) (t : SphinxMerkleTree)
  (estimates : list GasEstimate) (preview : Preview) :
  isDryRun args = true ->
  noRemoteCall
    (trace (assembleAndRelay core key args configs artifacts t estimates
              preview)) = true.
Proof.
  intros Hdry. unfold assembleAndRelay. rewrite Hdry.
  destruct configs as [|first rest]; [reflexivity|].
  apply noRemoteCall_bind; reflexivity.
Qed.

(** *** Inversion of a successful [propose] *)

Lemma propose_ok (core : Core) (env : ProcessEnv) (args : ProposeArgs)
  (out : ProposeResult) :
  outcome (propose core env args) = Ok out ->
  exists key built,
    truthy (SPHINX_API_KEY env) = Some key
    /\ outcome (buildParsedConfigArray (sphinxContext args) (scriptPath args)
                  (isTestnet args) (forceRecompile args)
                  (targetContract args)) = Ok built
    /\ (isEmpty built = true /\ out = emptyResult
        \/ isEmpty built = false
           /\ exists configs artifacts sp,
                parsedConfigArray built = Some configs
                /\ configArtifacts built = Some artifacts
                /\ outcome (simulateAndPreview core args configs) = Ok sp
                /\ outcome (finishProposal core key args configs artifacts
                              (makeMerkleTree core configs) (fst sp) (snd sp))
                   = Ok out).
Proof.
  unfold propose. destruct (truthy (SPHINX_API_KEY env)) as [key|];
    [|discriminate].
  rewrite !outcome_emit, outcome_bind, outcome_mapTrace.
  destruct (outcome (buildParsedConfigArray _ _ _ _ _)) as [built|e];
    [|discriminate].
  intros H. exists key, built. split; [reflexivity|]. split; [reflexivity|].
  destruct (isEmpty built).
  - left. unfold ret, outcome in H. cbn [snd] in H. injection H as <-.
    split; reflexivity.
  - right. split; [reflexivity|].
    destruct (parsedConfigArray built) as [configs|]; [|discriminate].
    destruct (configArtifacts built) as [artifacts|]; [|discriminate].
    apply outcome_bind_ok in H. destruct H as [sp [Hsp Hfin]].
    exists configs, artifacts, sp. repeat split; assumption.
Qed.

(** *** Unfolding [propose] once the collection has answered *)

Lemma propose_built (core : Core) (env : ProcessEnv) (args : ProposeArgs)
  (key : string) (tr : list CollectEvent) (configs : list ParsedConfig)
  (artifacts : ConfigArtifacts) :
  truthy (SPHINX_API_KEY env) = Some key ->
  buildParsedConfigArray (sphinxContext args) (scriptPath args)
    (isTestnet args) (forceRecompile args) (targetContract args)
  = (tr, Ok {| parsedConfigArray := Some configs;
               configArtifacts := Some artifacts;
               isEmpty := false |}) ->
  let sim := simulateAndPreview core args configs in
  let fin sp := finishProposal core key args configs artifacts
                  (makeMerkleTree core configs) (fst sp) (snd sp) in
  outcome (propose core env args) =
    match outcome sim with
    | Ok sp => outcome (fin sp)
    | Err e => Err e
    end
  /\ trace (propose core env args) =
       preamble args ++ map Collecting tr ++ trace sim ++
       match outcome sim with
       | Ok sp => trace (fin sp)
       | Err _ => []
       end.
Proof.
  intros Hkey Hbuilt sim fin. unfold propose. rewrite Hkey, Hbuilt. split.
  - rewrite !outcome_emit, outcome_bind. cbn. rewrite outcome_bind.
    reflexivity.
  - rewrite !trace_emit, trace_bind. cbn. rewrite trace_bind. reflexivity.
Qed.

Lemma assembleAndRelay_not_inconsistent (core : Core) (key : string)
  (args : ProposeArgs) (configs : list ParsedConfig)
  (artifacts : ConfigArtifacts) (t : SphinxMerkleTree)
  (estimates : list GasEstimate) (preview : Preview) :
  outcome (assembleAndRelay core key args configs artifacts t estimates preview)
  <> Err InconsistentConfiguration.
Proof.
  unfold assembleAndRelay. destruct configs as [|first rest].
  - unfold InconsistentConfiguration. cbn. discriminate.
  - rewrite outcome_bind. unfold lift at 1. unfold outcome at 1. cbn [snd].
    destruct (chainLoop t (first :: rest) emptyLoopState) as [st|e] eqn:E.
    + destruct (isDryRun args); [discriminate|].
      unfold bind, emit, lift, ret, await, outcome. cbn.
      destruct (storeCanonicalConfig _ _ _ _); [|discriminate]. cbn.
      destruct (relayProposal _ _); discriminate.
    + apply chainLoop_err in E. destruct E as [chain ->].
      intros H.
      apply (f_equal (fun o : Outcome ProposeResult =>
                        match o with
                        | Err e => e
                        | Ok _ => InconsistentConfiguration
                        end)) in H.
      exact (MultipleApprovalLeaves_not_inconsistent H).
Qed.

(** Everything a successful run went through. *)
Lemma propose_success (core : Core) (env : ProcessEnv) (args : ProposeArgs)
  (out : ProposeResult) :
  outcome (propose core env args) = Ok out ->
  out = emptyResult
  \/ exists key built configs artifacts sp first rest st id,
       truthy (SPHINX_API_KEY env) = Some key
       /\ outcome (buildParsedConfigArray (sphinxContext args)
                     (scriptPath args) (isTestnet args) (forceRecompile args)
                     (targetContract args)) = Ok built
       /\ isEmpty built = false
       /\ parsedConfigArray built = Some configs
       /\ configArtifacts built = Some artifacts
       /\ outcome (simulateAndPreview core args configs) = Ok sp
       /\ elementsEqual (map shouldBeEqualOf configs) = true
       /\ configs = first :: rest
       /\ chainLoop (makeMerkleTree core configs) configs emptyLoopState
          = Ok st
       /\ out = {| proposalRequest :=
                     Some (setCompilerConfigId
                             (buildRequest key args first
                                (makeMerkleTree core configs) st
                                (fst sp) (snd sp))
                             id);
                   canonicalConfigData :=
                     Some (canonicalConfigJson core configs artifacts);
                   resConfigArtifacts := Some artifacts;
                   resParsedConfigArray := Some configs;
                   merkleTree := Some (makeMerkleTree core configs) |}
       /\ (if isDryRun args then id = None else exists i, id = Some i).
Proof.
  intros Hout. apply propose_ok in Hout.
  destruct Hout as [key [built [Hkey [Hb [[_ ->]|[He Hrun]]]]]];
    [left; reflexivity|right].
  destruct Hrun as [configs [artifacts [sp [Hc [Ha [Hsim Hfin]]]]]].
  apply finishProposal_ok in Hfin. destruct Hfin as [Heq Hfin].
  apply assembleAndRelay_ok in Hfin.
  destruct Hfin as [first [rest [st [id [Hcs [Hloop [Hres Hid]]]]]]].
  exists key, built, configs, artifacts, sp, first, rest, st, id.
  repeat split; assumption.
Qed.

(** The converse, for a dry run. *)
Lemma propose_dry_succeeds (core : Core) (env : ProcessEnv)
  (args : ProposeArgs) (key : string) (built : BuildResult)
  (configs : list ParsedConfig) (artifacts : ConfigArtifacts)
  (sp : list GasEstimate * Preview) (first : ParsedConfig)
  (rest : list ParsedConfig) (st : LoopState) :
  isDryRun args = true ->
  truthy (SPHINX_API_KEY env) = Some key ->
  outcome (buildParsedConfigArray (sphinxContext args) (scriptPath args)
             (isTestnet args) (forceRecompile args) (targetContract args))
    = Ok built ->
  isEmpty built = false ->
  parsedConfigArray built = Some configs ->
  configArtifacts built = Some artifacts ->
  outcome (simulateAndPreview core args configs) = Ok sp ->
  elementsEqual (map shouldBeEqualOf configs) = true ->
  configs = first :: rest ->
  chainLoop (makeMerkleTree core configs) configs emptyLoopState = Ok st ->
  outcome (propose core env args) =
    Ok {| proposalRequest :=
            Some (buildRequest key args first (makeMerkleTree core configs) st
                    (fst sp) (snd sp));
          canonicalConfigData :=
            Some (canonicalConfigJson core configs artifacts);
          resConfigArtifacts := Some artifacts;
          resParsedConfigArray := Some configs;
          merkleTree := Some (makeMerkleTree core configs) |}.
Proof.
  intros Hdry Hkey Hb He Hc Ha Hsim Heq Hcs Hloop.
  unfold propose. rewrite Hkey, !outcome_emit.
  rewrite outcome_bind, outcome_mapTrace, Hb, He, Hc, Ha.
  rewrite outcome_bind, Hsim.
  unfold finishProposal. rewrite Heq. cbn [negb].
  unfold assembleAndRelay. rewrite Hcs in *.
  rewrite outcome_bind. unfold lift at 1. unfold outcome at 1. cbn [snd].
  rewrite Hloop, Hdry. reflexivity.
Qed.

(** The shape of the request of a successful run. *)
Lemma propose_request_shape (core : Core) (env : ProcessEnv)
  (args : ProposeArgs) (out : ProposeResult) (r : ProposalRequest)
  (configs : list ParsedConfig) :
  outcome (propose core env args) = Ok out ->
  proposalRequest out = Some r ->
  resParsedConfigArray out = Some configs ->
  chainIds r = map chainId (filter hasActions configs)
  /\ chainStatus (tree r) = map chainStatusEntry (filter hasActions configs)
  /\ treeRoot (tree r) = root (makeMerkleTree core configs)
  /\ merkleTree out = Some (makeMerkleTree core configs)
  /\ (isDryRun args = true -> compilerConfigId r = None).
Proof.
  intros Hout Hr Hc.
  apply propose_success in Hout.
  destruct Hout as [->|Hrun]; [discriminate|].
  destruct Hrun as [key [built [configs' [artifacts [sp [first [rest [st [id
    [_ [_ [_ [_ [_ [_ [_ [_ [Hloop [-> Hid]]]]]]]]]]]]]]]]]]].
  cbn in Hr, Hc. injection Hr as <-. injection Hc as ->.
  apply chainLoop_ok in Hloop. cbn in Hloop. destruct Hloop as [Hids Hst].
  cbn. repeat split; try assumption.
  intros Hdry. rewrite Hdry in Hid. exact Hid.
Qed.

(** *** Claims about [propose] *)

(** C10.  Without a usable SPHINX_API_KEY (unset, or the empty string)
    [propose] prints the message and exits with code 1 before anything else
    happens: the trace holds the console message only, whatever the
    arguments, dry run included. *)
Theorem propose_requires_api_key (core : Core) (args : ProposeArgs) :
  propose core {| SPHINX_API_KEY := None |} args
    = ([ConsoleError ApiKeyMessage], Err (ProcessExit 1))
  /\ propose core {| SPHINX_API_KEY := Some EmptyString |} args
     = ([ConsoleError ApiKeyMessage], Err (ProcessExit 1))
  /\ propose core {| SPHINX_API_KEY := None |} (withDryRun true args)
     = ([ConsoleError ApiKeyMessage], Err (ProcessExit 1)).
Proof. repeat split. Qed.

(** C1, as amended.  Once the collection has produced the configurations
    and the simulation and preview have gone through: two chains that differ
    in owners, threshold, Safe address, module address or Safe init data make
    [propose] throw the configuration error with no call to the registry;
    and when all chains agree on the whole of [newConfig] and on the three
    Safe fields, that error is not raised. *)
Theorem propose_inconsistent_configuration
  (core : Core) (env : ProcessEnv) (args : ProposeArgs) (key : string)
  (tr : list CollectEvent) (configs : list ParsedConfig)
  (artifacts : ConfigArtifacts) (sp : list GasEstimate * Preview) :
  truthy (SPHINX_API_KEY env) = Some key ->
  buildParsedConfigArray (sphinxContext args) (scriptPath args)
    (isTestnet args) (forceRecompile args) (targetContract args)
  = (tr, Ok {| parsedConfigArray := Some configs;
               configArtifacts := Some artifacts;
               isEmpty := false |}) ->
  outcome (simulateAndPreview core args configs) = Ok sp ->
  ((exists p q, In p configs /\ In q configs /\ differOnNamedFields p q) ->
   outcome (propose core env args) = Err InconsistentConfiguration
   /\ noRemoteCall (trace (propose core env args)) = true)
  /\ ((forall p q, In p configs -> In q configs ->
                   shouldBeEqualOf p = shouldBeEqualOf q) ->
      outcome (propose core env args) <> Err InconsistentConfiguration).
Proof.
  intros Hkey Hbuilt Hsim.
  destruct (propose_built core env args Hkey Hbuilt) as [Hout Htr].
  cbv zeta in Hout, Htr. rewrite Hsim in Hout, Htr.
  split.
  - intros [p [q [Hp [Hq Hd]]]].
    pose proof (elementsEqual_differ configs Hp Hq Hd) as Hne.
    unfold finishProposal in Hout, Htr. rewrite Hne in Hout, Htr.
    split; [exact Hout|].
    rewrite Htr, noRemoteCall_prefix, noRemoteCall_app,
      simulateAndPreview_noRemote.
    reflexivity.
  - intros Hall. rewrite Hout. unfold finishProposal.
    replace (elementsEqual (map shouldBeEqualOf configs)) with true.
    + apply assembleAndRelay_not_inconsistent.
    + symmetry. apply elementsEqual_true. intros x y Hx Hy.
      apply in_map_iff in Hx. destruct Hx as [p [<- Hp]].
      apply in_map_iff in Hy. destruct Hy as [q [<- Hq]].
      apply Hall; assumption.
Qed.

(** C3, as amended.  In the request of a successful run, [chainStatus] has
    one entry for every chain with N > 0 actions, and its [numLeaves] is
    N + 1, whatever leaves the tree holds. *)
Theorem chainStatus_numLeaves
  (core : Core) (env : ProcessEnv) (args : ProposeArgs) (out : ProposeResult)
  (r : ProposalRequest) (configs : list ParsedConfig) :
  outcome (propose core env args) = Ok out ->
  proposalRequest out = Some r ->
  resParsedConfigArray out = Some configs ->
  chainStatus (tree r) = map chainStatusEntry (filter hasActions configs)
  /\ (forall p, In p configs -> (0 < length (actionInputs p))%nat ->
        In {| csChainId := chainId p;
              numLeaves := Z.of_nat (length (actionInputs p)) + 1 |}
           (chainStatus (tree r)))
  /\ (forall entry, In entry (chainStatus (tree r)) ->
        exists p, In p configs /\ (0 < length (actionInputs p))%nat
                  /\ csChainId entry = chainId p
                  /\ numLeaves entry = Z.of_nat (length (actionInputs p)) + 1).
Proof.
  intros Hout Hr Hc.
  destruct (propose_request_shape core env args Hout Hr Hc)
    as [_ [Hst _]].
  split; [exact Hst|]. rewrite Hst. split.
  - intros p Hp Hn. apply in_map_iff. exists p. split; [reflexivity|].
    apply filter_In. split; [exact Hp|].
    unfold hasActions. destruct (length (actionInputs p)); [lia|reflexivity].
  - intros entry He. apply in_map_iff in He. destruct He as [p [<- Hp]].
    apply filter_In in Hp. destruct Hp as [Hp Hact].
    exists p. repeat split; [exact Hp|].
    unfold hasActions in Hact.
    destruct (length (actionInputs p)); [discriminate|lia].
Qed.

Lemma nothingToExecute_all_empty (collected : list Collect.Collected) :
  (forall c, In c collected -> Collect.rawActionInputs c = []) ->
  Collect.nothingToExecute collected = true.
Proof.
  intros H. unfold Collect.nothingToExecute. apply orb_true_iff. right.
  apply forallb_forall. intros c Hc. rewrite (H c Hc). reflexivity.
Qed.

(** C5.  A chain without actions adds nothing to [chainIds] and
    [chainStatus]: both list exactly the chains that have actions, in order.
    And when the plugin's collection finds no action on any chain, [propose]
    returns the empty object, with no request and no tree, having done
    nothing beyond compiling and collecting. *)
Theorem zero_action_chains_dropped
  (core : Core) (env : ProcessEnv) (args : ProposeArgs) :
  (forall out r configs,
      outcome (propose core env args) = Ok out ->
      proposalRequest out = Some r ->
      resParsedConfigArray out = Some configs ->
      chainIds r = map chainId (filter hasActions configs)
      /\ map csChainId (chainStatus (tree r))
         = map chainId (filter hasActions configs)
      /\ forall p,
           In p configs -> actionInputs p = [] ->
           (forall q, In q configs -> hasActions q = true ->
                      chainId q <> chainId p) ->
           ~ In (chainId p) (chainIds r)
           /\ ~ In (chainId p) (map csChainId (chainStatus (tree r))))
  /\ (forall f key tr collected,
        truthy (SPHINX_API_KEY env) = Some key ->
        buildParsedConfigArray (sphinxContext args)
          = Collect.buildParsedConfigArray f ->
        (let cfg := Collect.getSphinxConfigFromScript f (scriptPath args)
                      (targetContract args) in
         Collect.collectLoop f (scriptPath args) (targetContract args)
           (Collect.scriptSafeAddress cfg)
           (if isTestnet args then Collect.testnets cfg
            else Collect.mainnets cfg) []
         = (tr, Ok collected)) ->
        (forall c, In c collected -> Collect.rawActionInputs c = []) ->
        propose core env args
          = (preamble args ++ map Collecting tr, Ok emptyResult)
        /\ proposalRequest emptyResult = None
        /\ merkleTree emptyResult = None).
Proof.
  split.
  - intros out r configs Hout Hr Hc.
    destruct (propose_request_shape core env args Hout Hr Hc)
      as [Hids [Hst _]].
    assert (Hmap : map csChainId (chainStatus (tree r))
                   = map chainId (filter hasActions configs)).
    { rewrite Hst, map_map. reflexivity. }
    split; [exact Hids|]. split; [exact Hmap|].
    intros p Hp Hempty Hother.
    rewrite Hmap, Hids.
    assert (Hnot : ~ In (chainId p) (map chainId (filter hasActions configs))).
    { intros Hin. apply in_map_iff in Hin. destruct Hin as [q [Hq Hin]].
      apply filter_In in Hin. destruct Hin as [Hin Hact].
      exact (Hother q Hin Hact Hq). }
    split; exact Hnot.
  - intros f key tr collected Hkey Hctx Hloop Hall.
    cbv zeta in Hloop.
    split; [|split; reflexivity].
    unfold propose. rewrite Hkey, Hctx.
    unfold Collect.buildParsedConfigArray. rewrite Hloop.
    cbn [bind emit mapTrace fst snd app].
    rewrite (nothingToExecute_all_empty _ Hall).
    cbn. rewrite !app_nil_r. reflexivity.
Qed.

(** C8.  A dry run makes no call to the registry, and the request it
    returns has no [compilerConfigId].  Whenever the same invocation without
    the dry-run flag succeeds, so does the dry run, and it returns the same
    request but for [compilerConfigId], the same canonical configuration,
    the same parsed configurations and the same tree. *)
Theorem propose_dry_run
  (core : Core) (env : ProcessEnv) (args : ProposeArgs) :
  let dry := propose core env (withDryRun true args) in
  let real := propose core env (withDryRun false args) in
  noRemoteCall (trace dry) = true
  /\ (forall out r,
        outcome dry = Ok out -> proposalRequest out = Some r ->
        compilerConfigId r = None)
  /\ (forall out' r',
        outcome real = Ok out' -> proposalRequest out' = Some r' ->
        outcome dry =
          Ok {| proposalRequest := Some (setCompilerConfigId r' None);
                canonicalConfigData := canonicalConfigData out';
                resConfigArtifacts := resConfigArtifacts out';
                resParsedConfigArray := resParsedConfigArray out';
                merkleTree := merkleTree out' |}).
Proof.
  cbv zeta. split; [|split].
  - unfold propose.
    destruct (truthy (SPHINX_API_KEY env)) as [key|]; [|reflexivity].
    do 3 (apply noRemoteCall_bind; [reflexivity|intros _]).
    apply noRemoteCall_bind; [apply noRemoteCall_collecting|intros built].
    destruct (isEmpty built); [reflexivity|].
    destruct (parsedConfigArray built) as [configs|]; [|reflexivity].
    destruct (configArtifacts built) as [artifacts|]; [|reflexivity].
    apply noRemoteCall_bind; [apply simulateAndPreview_noRemote|intros sp].
    unfold finishProposal.
    destruct (elementsEqual (map shouldBeEqualOf configs)); [|reflexivity].
    apply assembleAndRelay_dry_noRemote. reflexivity.
  - intros out r Hout Hr.
    apply propose_success in Hout. destruct Hout as [->|Hrun]; [discriminate|].
    destruct Hrun as [key [built [configs [artifacts [sp [first [rest [st [id
      [_ [_ [_ [_ [_ [_ [_ [_ [_ [-> Hid]]]]]]]]]]]]]]]]]]].
    cbn in Hr, Hid. injection Hr as <-. cbn. exact Hid.
  - intros out' r' Hout Hr.
    apply propose_success in Hout. destruct Hout as [->|Hrun]; [discriminate|].
    destruct Hrun as [key [built [configs [artifacts [sp [first [rest [st [id
      [Hkey [Hb [He [Hc [Ha [Hsim [Heq [Hcs [Hloop [-> Hid]]]]]]]]]]]]]]]]]]].
    cbn in Hr. injection Hr as <-.
    rewrite (@propose_dry_succeeds core env (withDryRun true args) key built
               configs artifacts sp first rest st);
      try assumption; try reflexivity.
    apply simulateAndPreview_dry. exact Hsim.
Qed.

(** C9, as amended.  The deployment id of a chain's ProjectDeployment is
    the Merkle root and nothing else: it is the same for every parsed
    configuration.  A deployment is produced exactly when the tree holds one
    APPROVE leaf for the chain; with none there is no deployment, and with
    several the function throws. *)
Theorem getProjectDeploymentForChain_spec
  (t : SphinxMerkleTree) (parsedConfig : ParsedConfig) :
  getProjectDeploymentForChain t parsedConfig =
    match length (approvalLeaves t (chainId parsedConfig)) with
    | 0%nat => Ok None
    | 1%nat =>
        Ok (Some {| pdChainId := chainId parsedConfig;
                    deploymentId := root t;
                    name := projectName (newConfig parsedConfig);
                    pdIsExecuting :=
                      isExecuting (initialState parsedConfig) |})
    | _ => Err (MultipleApprovalLeaves (chainId parsedConfig))
    end
  /\ (forall d, getProjectDeploymentForChain t parsedConfig = Ok (Some d) ->
                deploymentId d = root t)
  /\ ((forall l, In l (leavesWithProofs t) ->
                 leafType (leaf l) = SphinxLeafType.APPROVE ->
                 leafChainId (leaf l) <> chainId parsedConfig) ->
      getProjectDeploymentForChain t parsedConfig = Ok None).
Proof.
  unfold getProjectDeploymentForChain. split; [|split].
  - destruct (approvalLeaves t (chainId parsedConfig)) as [|l1 [|l2 ls]];
      reflexivity.
  - intros d.
    destruct (approvalLeaves t (chainId parsedConfig)) as [|l1 [|l2 ls]];
      try discriminate.
    intros H. injection H as <-. reflexivity.
  - intros Hnone.
    assert (Hnil : approvalLeaves t (chainId parsedConfig) = []).
    { unfold approvalLeaves.
      induction (leavesWithProofs t) as [|l ls IH]; [reflexivity|].
      simpl. unfold isApprovalLeafFor at 1.
      destruct (SphinxLeafType.eqb (leafType (leaf l)) SphinxLeafType.APPROVE)
        eqn:Ety.
      - assert (Hty : leafType (leaf l) = SphinxLeafType.APPROVE)
          by (destruct (leafType (leaf l)); try discriminate; reflexivity).
        assert (Hne := Hnone l (or_introl eq_refl) Hty).
        destruct (Z.eqb_spec (leafChainId (leaf l)) (chainId parsedConfig));
          [contradiction|].
        simpl. apply IH. intros l' Hl'. apply Hnone. right. exact Hl'.
      - simpl. apply IH. intros l' Hl'. apply Hnone. right. exact Hl'. }
    rewrite Hnil. reflexivity.
Qed.

(** *** Concrete runs *)

Lemma propose_inconsistent_configuration_witness :
  differOnNamedFields Samples.firstSafe Samples.otherSafe
  /\ outcome (propose Samples.core Samples.env
                (Samples.args false (Samples.context Samples.twoSafes)))
     = Err InconsistentConfiguration
  /\ noRemoteCall
       (trace (propose Samples.core Samples.env
                 (Samples.args false (Samples.context Samples.twoSafes))))
     = true.
Proof.
  assert (Hd : differOnNamedFields Samples.firstSafe Samples.otherSafe).
  { right. right. left. simpl. discriminate. }
  split; [exact Hd|].
  refine (proj1 (@propose_inconsistent_configuration Samples.core Samples.env
                   (Samples.args false (Samples.context Samples.twoSafes))
                   "key" [] Samples.twoSafes "artifacts"
                   ([{| geChainId := 1; estimatedGas := "21000" |};
                     {| geChainId := 2; estimatedGas := "21000" |}], "preview")
                   eq_refl eq_refl eq_refl) _).
  exists Samples.firstSafe, Samples.otherSafe.
  split; [left; reflexivity|]. split; [right; left; reflexivity|exact Hd].
Defined.

(** C1 as stated fails in its second half: the two chains agree on owners,
    threshold, Safe address, module address and Safe init data, and the
    configuration error is raised all the same, because the organisation id,
    which is part of [newConfig], differs. *)
Lemma propose_agreeing_fields_counterexample :
  agreeOnNamedFields Samples.orgA Samples.orgB
  /\ outcome (propose Samples.core Samples.env
                (Samples.args false (Samples.context Samples.twoOrgs)))
     = Err InconsistentConfiguration.
Proof. split; [repeat split|reflexivity]. Qed.

Lemma chainStatus_numLeaves_witness :
  exists out r,
    outcome (propose Samples.core Samples.env
               (Samples.args false (Samples.context Samples.twoChains)))
      = Ok out
    /\ proposalRequest out = Some r
    /\ resParsedConfigArray out = Some Samples.twoChains
    /\ chainStatus (tree r) = [{| csChainId := 1; numLeaves := 3 |}].
Proof.
  eexists. eexists.
  split; [reflexivity|]. split; [reflexivity|]. split; [reflexivity|].
  exact (proj1 (@chainStatus_numLeaves Samples.core Samples.env
                  (Samples.args false (Samples.context Samples.twoChains))
                  _ _ Samples.twoChains eq_refl eq_refl eq_refl)).
Defined.

(** C3 as stated fails: one action on a chain whose tree holds no SETUP
    leaf is recorded with two leaves, not three. *)
Lemma chainStatus_numLeaves_counterexample :
  map (fun p => length (actionInputs p)) Samples.oneAction = [1%nat]
  /\ existsb (fun l => SphinxLeafType.eqb (leafType (leaf l))
                         SphinxLeafType.SETUP)
       (leavesWithProofs (makeMerkleTree Samples.core Samples.oneAction))
     = false
  /\ proposedChainStatus
       (propose Samples.core Samples.env
          (Samples.args false (Samples.context Samples.oneAction)))
     = Some [{| csChainId := 1; numLeaves := 2 |}].
Proof. repeat split. Qed.

Lemma zero_action_chains_dropped_witness :
  (exists out r,
      outcome (propose Samples.core Samples.env
                 (Samples.args false (Samples.context Samples.twoChains)))
        = Ok out
      /\ proposalRequest out = Some r
      /\ chainIds r = [1]
      /\ map csChainId (chainStatus (tree r)) = [1])
  /\ propose Samples.core Samples.env
       (Samples.args true
          (pluginContext Samples.idleFoundry (Samples.context [])))
     = ([Compile true false; GetFoundryToml;
         ReadInterface "SphinxPluginTypes";
         Collecting (ForgeScriptCollect "http://sepolia");
         Collecting (ForgeScriptCollect "http://optimism_sepolia")],
        Ok emptyResult).
Proof.
  split.
  - eexists. eexists. split; [reflexivity|]. split; [reflexivity|].
    pose proof (proj1 (zero_action_chains_dropped Samples.core Samples.env
                         (Samples.args false
                            (Samples.context Samples.twoChains)))
                  _ _ Samples.twoChains eq_refl eq_refl eq_refl)
      as [H1 [H2 _]].
    split; [exact H1|exact H2].
  - refine (proj1 (proj2 (zero_action_chains_dropped Samples.core Samples.env
                            (Samples.args true
                               (pluginContext Samples.idleFoundry
                                  (Samples.context []))))
                     Samples.idleFoundry "key" _ _ eq_refl eq_refl eq_refl _)).
    intros c [<-|[<-|[]]]; reflexivity.
Defined.

Lemma propose_dry_run_witness :
  noRemoteCall
    (trace (propose Samples.core Samples.env
              (withDryRun true
                 (Samples.args false (Samples.context Samples.twoChains)))))
  = true
  /\ exists out' r',
       outcome (propose Samples.core Samples.env
                  (withDryRun false
                     (Samples.args false (Samples.context Samples.twoChains))))
         = Ok out'
       /\ proposalRequest out' = Some r'
       /\ compilerConfigId r' = Some "config-id"
       /\ proposedRequest
            (propose Samples.core Samples.env
               (withDryRun true
                  (Samples.args false (Samples.context Samples.twoChains))))
          = Some (setCompilerConfigId r' None).
Proof.
  pose proof (propose_dry_run Samples.core Samples.env
                (Samples.args false (Samples.context Samples.twoChains)))
    as [H1 [_ H3]].
  split; [exact H1|].
  eexists. eexists. split; [reflexivity|]. split; [reflexivity|].
  split; [reflexivity|].
  unfold proposedRequest. rewrite (H3 _ _ eq_refl eq_refl). reflexivity.
Defined.

(** C9 as stated fails: two configurations of one chain with different
    contents get the same deployment id, which is the root as it stands; no
    content URI of the configuration enters it. *)
Lemma deploymentId_is_root_counterexample :
  actionInputs Samples.smallConfig = ["deploy"]
  /\ actionInputs Samples.largeConfig = ["deploy"; "call"; "upgrade"]
  /\ root Samples.approvedTree = "0xroot"
  /\ getProjectDeploymentForChain Samples.approvedTree Samples.smallConfig
     = Ok (Some {| pdChainId := 1; deploymentId := "0xroot"; name := "demo";
                   pdIsExecuting := false |})
  /\ getProjectDeploymentForChain Samples.approvedTree Samples.largeConfig
     = Ok (Some {| pdChainId := 1; deploymentId := "0xroot"; name := "demo";
                   pdIsExecuting := false |}).
Proof. repeat split. Qed.

End ProposeFacts.

(** ** The authorization run *)

Module AuthFacts.
Import Auth.

Lemma find_filter (A : Type) (r q : A -> bool) (l : list A) :
  find (fun x => r x && q x) l = find r (filter q l).
Proof.
  induction l as [|a l IH]; [reflexivity|]. simpl.
  destruct (q a); simpl.
  - rewrite andb_true_r. destruct (r a); [reflexivity|exact IH].
  - rewrite andb_false_r. exact IH.
Qed.

Lemma existsb_filter (A : Type) (r q : A -> bool) (l : list A) :
  existsb (fun x => r x && q x) l = existsb r (filter q l).
Proof.
  induction l as [|a l IH]; [reflexivity|]. simpl.
  destruct (q a); simpl.
  - rewrite andb_true_r, IH. reflexivity.
  - rewrite andb_false_r. exact IH.
Qed.

Lemma assignIndices_chainId (chain total : Z)
  (types : list SphinxLeafType.t) :
  forall next leaf,
    In leaf (assignIndices chain total next types) -> chainId leaf = chain.
Proof.
  induction types as [|ty rest IH]; simpl; intros next leaf H; [contradiction|].
  destruct H as [<-|H]; [reflexivity|eapply IH; exact H].
Qed.

Lemma chainLeaves_chainId (c : ChainInput) (leaf : ProposalRequestLeaf) :
  In leaf (chainLeaves c) -> chainId leaf = inputChainId c.
Proof.
  unfold chainLeaves, leafBuilder. destruct (numActions c); [contradiction|].
  apply assignIndices_chainId.
Qed.

Lemma filter_all (A : Type) (q : A -> bool) (l : list A) :
  (forall x, In x l -> q x = true) -> filter q l = l.
Proof.
  induction l as [|a l IH]; intros H; [reflexivity|]. simpl.
  rewrite (H a (or_introl eq_refl)). f_equal. apply IH.
  intros x Hx. apply H. right. exact Hx.
Qed.

Lemma filter_none (A : Type) (q : A -> bool) (l : list A) :
  (forall x, In x l -> q x = false) -> filter q l = [].
Proof.
  induction l as [|a l IH]; intros H; [reflexivity|]. simpl.
  rewrite (H a (or_introl eq_refl)). apply IH.
  intros x Hx. apply H. right. exact Hx.
Qed.

Lemma filter_other_chains (chains : list ChainInput) (chain : Z) :
  ~ In chain (map inputChainId chains) ->
  filter (fun leaf => chainId leaf =? chain) (buildLeaves chains) = [].
Proof.
  intros Hnot. apply filter_none. intros leaf Hleaf.
  unfold buildLeaves in Hleaf. apply in_flat_map in Hleaf.
  destruct Hleaf as [c [Hc Hleaf]].
  apply chainLeaves_chainId in Hleaf.
  apply Z.eqb_neq. intros Heq. apply Hnot.
  apply in_map_iff. exists c. split; [congruence|exact Hc].
Qed.

(** With pairwise distinct chain ids, the leaves of a chain in the global
    set are the leaves built for it. *)
Lemma filter_own_chain (chains : list ChainInput) (c : ChainInput) :
  NoDup (map inputChainId chains) -> In c chains ->
  filter (fun leaf => chainId leaf =? inputChainId c) (buildLeaves chains)
  = chainLeaves c.
Proof.
  intros Hnd Hin. apply in_split in Hin. destruct Hin as [l1 [l2 ->]].
  rewrite map_app in Hnd. simpl in Hnd.
  pose proof (NoDup_remove_2 _ _ _ Hnd) as Hnot.
  unfold buildLeaves. rewrite flat_map_app. simpl.
  rewrite !filter_app.
  fold (buildLeaves l1). fold (buildLeaves l2).
  rewrite !filter_other_chains.
  - simpl. rewrite app_nil_r. apply filter_all.
    intros leaf Hleaf. apply Z.eqb_eq. apply chainLeaves_chainId. exact Hleaf.
  - intros H. apply Hnot. apply in_or_app. right. exact H.
  - intros H. apply Hnot. apply in_or_app. left. exact H.
Qed.

Lemma execute_leaves_no_setup (chain total : Z) (n : nat) :
  forall next,
    existsb (fun leaf => SphinxLeafType.eqb (leafType leaf) SphinxLeafType.SETUP)
            (assignIndices chain total next (repeat SphinxLeafType.EXECUTE n))
    = false.
Proof.
  induction n as [|n IH]; intros next; [reflexivity|]. simpl. apply IH.
Qed.

Lemma length_assignIndices (chain total : Z)
  (types : list SphinxLeafType.t) :
  forall next, length (assignIndices chain total next types) = length types.
Proof.
  induction types as [|ty rest IH]; intros next; [reflexivity|].
  simpl. rewrite IH. reflexivity.
Qed.

(** The number of leaves the leaf builder emits for a chain. *)
Lemma length_emissionOrder (c : ChainInput) :
  Z.of_nat (length (emissionOrder c))
  = (if setupRequired c then 1 else 0) + 2 + Z.of_nat (numActions c).
Proof.
  unfold emissionOrder. rewrite !length_app, repeat_length.
  destruct (setupRequired c); simpl length; lia.
Qed.

Section OneChain.

Variables (chains : list ChainInput) (c : ChainInput).
Hypothesis distinct : NoDup (map inputChainId chains).
Hypothesis included : In c chains.
Hypothesis hasActions : (0 < numActions c)%nat.

Lemma containsSetupLeaf_built :
  containsSetupLeaf (buildLeaves chains) (inputChainId c) = setupRequired c.
Proof.
  unfold containsSetupLeaf. rewrite existsb_filter, filter_own_chain by assumption.
  unfold chainLeaves, leafBuilder, emissionOrder.
  destruct (numActions c) as [|n]; [lia|].
  destruct (setupRequired c); [reflexivity|].
  cbn -[repeat]. apply execute_leaves_no_setup.
Qed.

Lemma expectedNumLeafs_built :
  expectedNumLeafs (buildLeaves chains) (inputChainId c)
  = (if setupRequired c then 1 else 0) + 2 + Z.of_nat (numActions c).
Proof.
  unfold expectedNumLeafs. rewrite filter_own_chain by assumption.
  unfold chainLeaves, leafBuilder.
  destruct (numActions c) as [|n] eqn:E; [lia|].
  rewrite length_assignIndices. unfold emissionOrder.
  rewrite !length_app, repeat_length, E.
  destruct (setupRequired c); simpl length; lia.
Qed.

Lemma findProposalRequestLeaf_built (i : Z) :
  findProposalRequestLeaf (buildLeaves chains) i (inputChainId c)
  = find (fun leaf => index leaf =? i) (chainLeaves c).
Proof.
  unfold findProposalRequestLeaf.
  rewrite find_filter, filter_own_chain by assumption. reflexivity.
Qed.

Lemma find_setup_leaf :
  setupRequired c = true ->
  findProposalRequestLeaf (buildLeaves chains) 0 (inputChainId c)
  = Some {| chainId := inputChainId c; index := 0;
            leafType := SphinxLeafType.SETUP;
            data := DeclaredLeafs (Z.of_nat (length (emissionOrder c)));
            siblings := [] |}.
Proof.
  intros Hs. rewrite findProposalRequestLeaf_built.
  unfold chainLeaves, leafBuilder, emissionOrder. rewrite Hs.
  destruct (numActions c) as [|n]; [lia|]. reflexivity.
Qed.

Lemma find_propose_leaf :
  findProposalRequestLeaf (buildLeaves chains)
    (if setupRequired c then 1 else 0) (inputChainId c)
  = Some {| chainId := inputChainId c;
            index := if setupRequired c then 1 else 0;
            leafType := SphinxLeafType.PROPOSE;
            data := DeclaredLeafs (Z.of_nat (length (emissionOrder c)));
            siblings := [] |}.
Proof.
  rewrite findProposalRequestLeaf_built.
  unfold chainLeaves, leafBuilder, emissionOrder.
  destruct (numActions c) as [|n]; [lia|].
  destruct (setupRequired c); reflexivity.
Qed.

End OneChain.

(** What an accepted proposal does to any contract: the record of the root
    becomes PROPOSED with one more leaf executed and the leaf count that the
    leaf declares, and the index of the leaf was the number of leaves
    executed before. *)
Lemma propose_accepted (ownerThreshold : Z) (root : string)
  (leaf : RawAuthLeaf) (signatures proof : list string)
  (states states' : AuthStates) :
  propose ownerThreshold root leaf signatures proof states = Accepted states' ->
  status (states' root) = AuthStatus.PROPOSED
  /\ leafsExecuted (states' root) = leafsExecuted (states root) + 1
  /\ rawData leaf = DeclaredLeafs (numLeafs (states' root))
  /\ rawIndex leaf = leafsExecuted (states root).
Proof.
  unfold propose, submitLeaf.
  destruct (rawLeafType leaf); try discriminate. cbn [SphinxLeafType.eqb].
  destruct (Z.eqb_spec (rawIndex leaf) (leafsExecuted (states root)))
    as [Hidx|]; [|discriminate].
  cbn [negb].
  destruct (status (states root)); try discriminate;
    destruct (rawData leaf) as [declared|]; try discriminate;
    destruct (1 <=? Z.of_nat (length signatures)); try discriminate;
    intros H; injection H as <-; unfold setAuthState;
    rewrite String.eqb_refl; repeat split; assumption.
Qed.

Lemma proposer_signature_count (w : Sig.Wallets) (key root : string) :
  Z.of_nat (length (Sig.getSignatures w [key] root 1)) = 1.
Proof. reflexivity. Qed.

(** C4.  For every chain of a tree built by the leaf builder: the helper's
    proposal leaf index is 1 with a SETUP leaf and 0 without, and the leaf
    found there is the chain's PROPOSE leaf; the helper's run reaches the
    expected state before the proposal, and submitting the proposal leaf
    then yields status PROPOSED, [leafsExecuted] 2 with a SETUP leaf and 1
    without, and [numLeafs] equal to the number of the chain's leaves in the
    tree, which is what the helper expects to read. *)
Theorem propose_leaf_index_and_state
  (w : Sig.Wallets) (ownerPrivateKeys : list string)
  (proposerPrivateKey root : string) (ownerThreshold : Z)
  (chains : list ChainInput) (c : ChainInput) :
  NoDup (map inputChainId chains) ->
  In c chains ->
  (0 < numActions c)%nat ->
  1 <= ownerThreshold <= Z.of_nat (length ownerPrivateKeys) ->
  let leaves := buildLeaves chains in
  let chain := inputChainId c in
  containsSetupLeaf leaves chain = setupRequired c
  /\ proposalLeafIndex leaves chain = (if setupRequired c then 1 else 0)
  /\ (exists proposalLeaf,
        findProposalRequestLeaf leaves (proposalLeafIndex leaves chain) chain
          = Some proposalLeaf
        /\ leafType proposalLeaf = SphinxLeafType.PROPOSE
        /\ index proposalLeaf = (if setupRequired c then 1 else 0))
  /\ (exists before after,
        stateBeforePropose w ownerPrivateKeys root ownerThreshold leaves chain
          = Accepted before
        /\ status (before root) = expectedInitialStatus leaves chain
        /\ stateAfterPropose w proposerPrivateKey root ownerThreshold leaves
             chain before
           = Accepted after
        /\ after root
           = {| status := AuthStatus.PROPOSED;
                leafsExecuted := if setupRequired c then 2 else 1;
                numLeafs :=
                  Z.of_nat
                    (length (filter (fun leaf => chainId leaf =? chain)
                               leaves)) |}
        /\ after root = expectedAfterPropose leaves chain)
  /\ (forall states states',
        stateAfterPropose w proposerPrivateKey root ownerThreshold leaves
          chain states
        = Accepted states' ->
        states' root = expectedAfterPropose leaves chain)
  /\ expectedAfterPropose leaves chain
     = {| status := AuthStatus.PROPOSED;
          leafsExecuted := if setupRequired c then 2 else 1;
          numLeafs := Z.of_nat (length (chainLeaves c)) |}.
Proof.
  intros Hnd Hin Hact Hthr. cbv zeta.
  pose proof (containsSetupLeaf_built chains c Hnd Hin Hact) as Hsetup.
  pose proof (find_propose_leaf chains c Hnd Hin Hact) as Hfind.
  pose proof (find_setup_leaf chains c Hnd Hin Hact) as Hfind0.
  pose proof (expectedNumLeafs_built chains c Hnd Hin Hact) as Hnum.
  pose proof (length_emissionOrder c) as Hdeclared.
  unfold expectedNumLeafs in Hnum.
  assert (Hidx : proposalLeafIndex (buildLeaves chains) (inputChainId c)
                 = if setupRequired c then 1 else 0)
    by (unfold proposalLeafIndex; rewrite Hsetup; reflexivity).
  split; [exact Hsetup|]. split; [exact Hidx|]. split; [|split; [|split]].
  - eexists. rewrite Hidx. split; [exact Hfind|]. split; reflexivity.
  - unfold stateBeforePropose, stateAfterPropose, expectedInitialStatus,
      expectedAfterPropose, expectedNumLeafs.
    rewrite Hidx, Hsetup, Hfind, Hnum, <- Hdeclared.
    destruct (setupRequired c).
    + rewrite (Hfind0 eq_refl).
      assert (Hlen : Z.of_nat (length (Sig.getSignatures w ownerPrivateKeys
                                         root ownerThreshold))
                     = ownerThreshold).
      { rewrite SigFacts.getSignatures_length. unfold Sig.signedCount.
        destruct (Z.leb_spec 1 ownerThreshold),
                 (Z.leb_spec ownerThreshold (Z.of_nat (length ownerPrivateKeys)));
          simpl; lia. }
      eexists. eexists. split; [|split; [|split; [|split]]].
      * unfold setup, submitLeaf, fromProposalRequestLeafToRawAuthLeaf,
          noAuthStates.
        cbn [rawIndex rawLeafType rawData index leafType data leafsExecuted
             initialAuthState status negb Z.eqb SphinxLeafType.eqb].
        rewrite Hlen, Z.leb_refl. reflexivity.
      * unfold setAuthState. rewrite String.eqb_refl. reflexivity.
      * unfold propose, submitLeaf, fromProposalRequestLeafToRawAuthLeaf,
          setAuthState.
        rewrite String.eqb_refl.
        cbn [rawIndex rawLeafType rawData index leafType data leafsExecuted
             status negb Z.eqb Pos.eqb SphinxLeafType.eqb].
        rewrite proposer_signature_count. reflexivity.
      * unfold setAuthState. rewrite !String.eqb_refl. reflexivity.
      * unfold setAuthState. rewrite !String.eqb_refl. reflexivity.
    + eexists. eexists. split; [reflexivity|]. split; [reflexivity|].
      split; [|split].
      * unfold propose, submitLeaf, fromProposalRequestLeafToRawAuthLeaf,
          noAuthStates.
        cbn [rawIndex rawLeafType rawData index leafType data leafsExecuted
             initialAuthState status negb Z.eqb SphinxLeafType.eqb].
        rewrite proposer_signature_count. reflexivity.
      * unfold setAuthState. rewrite String.eqb_refl. reflexivity.
      * unfold setAuthState. rewrite String.eqb_refl. reflexivity.
  - intros states states'. unfold stateAfterPropose.
    rewrite Hidx, Hfind. intros Hacc.
    apply propose_accepted in Hacc.
    destruct Hacc as [Hst [Hexec [Hdata Hleaf]]].
    cbn [fromProposalRequestLeafToRawAuthLeaf rawData rawIndex data index]
      in Hdata, Hleaf.
    injection Hdata as Hcount.
    unfold expectedAfterPropose, expectedNumLeafs.
    rewrite Hsetup, Hnum, <- Hdeclared, Hcount.
    destruct (states' root) as [st' executed' count'].
    cbn [status leafsExecuted numLeafs] in *. subst st'.
    f_equal. rewrite Hexec, <- Hleaf.
    destruct (setupRequired c); reflexivity.
  - unfold expectedAfterPropose, expectedNumLeafs.
    rewrite Hsetup, (filter_own_chain chains c Hnd Hin). reflexivity.
Qed.

(** *** Concrete runs *)

Lemma propose_leaf_index_and_state_witness :
  NoDup (map inputChainId Samples.chainsAB)
  /\ In Samples.chainA Samples.chainsAB
  /\ (0 < numActions Samples.chainA)%nat
  /\ 1 <= 2 <= Z.of_nat (length ["ccc"; "a"; "bb"])
  /\ proposalLeafIndex (buildLeaves Samples.chainsAB) 1 = 1
  /\ (exists before after,
        stateBeforePropose Sig.sampleWallets ["ccc"; "a"; "bb"] "root" 2
          (buildLeaves Samples.chainsAB) 1 = Accepted before
        /\ stateAfterPropose Sig.sampleWallets "proposer" "root" 2
             (buildLeaves Samples.chainsAB) 1 before = Accepted after
        /\ after "root"
           = {| status := AuthStatus.PROPOSED; leafsExecuted := 2;
                numLeafs := 5 |})
  /\ expectedAfterPropose (buildLeaves Samples.chainsAB) 1
     = {| status := AuthStatus.PROPOSED; leafsExecuted := 2; numLeafs := 5 |}.
Proof.
  assert (Hnd : NoDup (map inputChainId Samples.chainsAB)).
  { simpl. repeat constructor; simpl; intuition discriminate. }
  assert (Hin : In Samples.chainA Samples.chainsAB) by (left; reflexivity).
  assert (Hact : (0 < numActions Samples.chainA)%nat) by (simpl; lia).
  assert (Hthr : 1 <= 2 <= Z.of_nat (length ["ccc"; "a"; "bb"]))
    by (simpl; lia).
  split; [exact Hnd|]. split; [exact Hin|]. split; [exact Hact|].
  split; [exact Hthr|].
  pose proof (@propose_leaf_index_and_state Sig.sampleWallets
                ["ccc"; "a"; "bb"] "proposer" "root" 2
                Samples.chainsAB Samples.chainA Hnd Hin Hact Hthr)
    as [_ [H2 [_ [H4 [_ H6]]]]].
  split; [exact H2|]. split; [|exact H6].
  destruct H4 as [before [after [Hb [_ [Ha [Hstate _]]]]]].
  exists before, after. split; [exact Hb|]. split; [exact Ha|exact Hstate].
Defined.

End AuthFacts.

(* ===================================================================== *)
(** * Part III: further properties of the same code *)
(* ===================================================================== *)

(** ** Signature collection, continued *)

Module SigMore.
Import Sig.

Section WithWallets.

Variable w : Wallets.

Let addrLe (a b : string) : Prop := walletAddress w a <= walletAddress w b.

(** Sorting an array that is already in ascending address order leaves it
    as it is. *)
Lemma arraySort_sorted_id (l : list string) :
  StronglySorted addrLe l -> arraySort (compareKeys w) l = l.
Proof.
  induction 1 as [|a l Hs IH Hall]; [reflexivity|].
  simpl. rewrite IH. destruct l as [|y ys]; [reflexivity|].
  simpl. rewrite SigFacts.compareKeys_le.
  inversion Hall as [|? ? Hay _]; subst. unfold addrLe in Hay.
  destruct (Z.leb_spec (walletAddress w a) (walletAddress w y)); [reflexivity|lia].
Qed.

(** X1.  [getSignatures] sorts the caller's array in place: after the call
    the array holds the same keys, in ascending order of their addresses. *)
Theorem getSignatures_sorts_in_place
  (keys : list string) (root : string) (threshold : Z) :
  Permutation (fst (getSignaturesSt w keys root threshold)) keys
  /\ StronglySorted
       (fun a b => walletAddress w a <= walletAddress w b)
       (fst (getSignaturesSt w keys root threshold)).
Proof.
  split.
  - apply SigFacts.arraySort_perm.
  - apply SigFacts.arraySort_sorted.
Qed.

(** X2.  Calling [getSignatures] again on the array a first call has left
    behind, as the helpers do once per network, returns what a call on the
    original array returns, for any root and threshold. *)
Theorem getSignatures_again
  (keys : list string) (root root' : string) (threshold threshold' : Z) :
  getSignatures w (fst (getSignaturesSt w keys root threshold)) root' threshold'
  = getSignatures w keys root' threshold'.
Proof.
  unfold getSignatures, getSignaturesSt. simpl fst. simpl snd.
  unfold sortedOwnerPrivateKeys.
  rewrite (arraySort_sorted_id (SigFacts.arraySort_sorted w keys)).
  reflexivity.
Qed.

(** X3.  The callers' expectation on the number of signatures passes
    exactly when the threshold lies between one and the number of keys, or
    when there is no key and the threshold is zero. *)
Theorem getSignaturesChecked_passes
  (keys : list string) (root : string) (threshold : Z) :
  getSignaturesChecked w keys root threshold
    = Passed (getSignatures w keys root threshold)
  <-> (1 <= threshold <= Z.of_nat (length keys)
       \/ (threshold = 0 /\ keys = [])).
Proof.
  unfold getSignaturesChecked.
  pose proof (SigFacts.getSignatures_length w keys root threshold) as Hlen.
  unfold signedCount in Hlen.
  destruct (Z.eqb_spec (Z.of_nat (length (getSignatures w keys root threshold)))
              threshold) as [Heq|Hne].
  - split; [intros _|reflexivity].
    destruct (Z.leb_spec 1 threshold) as [H1|H1];
      destruct (Z.leb_spec threshold (Z.of_nat (length keys))) as [H2|H2];
      simpl in Hlen.
    + left. lia.
    + lia.
    + right. split; [lia|]. destruct keys; [reflexivity|simpl in *; lia].
    + lia.
  - split; [discriminate|].
    intros [[H1 H2]|[H0 ->]]; exfalso; apply Hne.
    + rewrite Hlen.
      destruct (Z.leb_spec 1 threshold), (Z.leb_spec threshold (Z.of_nat (length keys)));
        simpl; lia.
    + subst threshold. reflexivity.
Qed.

(** X4.  No signature is invented: the result is never longer than the
    array of keys, never longer than a threshold of at least one, and each
    signature is that of a supplied key over the given root. *)
Theorem getSignatures_bounded
  (keys : list string) (root : string) (threshold : Z) :
  (length (getSignatures w keys root threshold) <= length keys)%nat
  /\ (1 <= threshold ->
      Z.of_nat (length (getSignatures w keys root threshold)) <= threshold)
  /\ (forall s, In s (getSignatures w keys root threshold) ->
        exists k, In k keys /\ s = signAuthRootMetaTxn w k root).
Proof.
  pose proof (SigFacts.getSignatures_length w keys root threshold) as Hlen.
  unfold signedCount in Hlen.
  split; [|split].
  - rewrite Hlen.
    destruct (Z.leb_spec 1 threshold), (Z.leb_spec threshold (Z.of_nat (length keys)));
      simpl; lia.
  - intros H1. rewrite Hlen.
    destruct (Z.leb_spec 1 threshold), (Z.leb_spec threshold (Z.of_nat (length keys)));
      simpl; lia.
  - intros s Hs. rewrite SigFacts.getSignatures_closed in Hs.
    apply in_map_iff in Hs. destruct Hs as [k [<- Hk]].
    exists k. split; [|reflexivity].
    apply SigFacts.firstn_In in Hk.
    eapply Permutation_in; [apply SigFacts.arraySort_perm|exact Hk].
Qed.

(** X5.  Keys are not de-duplicated.  With a threshold equal to the number
    of entries of a non-empty array, every entry signs, a key listed twice
    signing twice: the result is a rearrangement of one signature per
    entry. *)
Theorem getSignatures_every_entry_signs (keys : list string) (root : string) :
  keys <> [] ->
  Permutation (getSignatures w keys root (Z.of_nat (length keys)))
              (map (fun k => signAuthRootMetaTxn w k root) keys).
Proof.
  intros Hne. rewrite SigFacts.getSignatures_closed.
  assert (Hc : signedCount (Z.of_nat (length keys)) (length keys) = length keys).
  { unfold signedCount.
    destruct (Z.leb_spec 1 (Z.of_nat (length keys)));
      rewrite ?Z.leb_refl; simpl; lia. }
  rewrite Hc.
  replace (length keys) with (length (sortedOwnerPrivateKeys w keys))
    by (apply Permutation_length, SigFacts.arraySort_perm).
  rewrite firstn_all. apply Permutation_map, SigFacts.arraySort_perm.
Qed.

End WithWallets.

Lemma getSignatures_every_entry_signs_witness :
  ["a"; "a"] <> []
  /\ Permutation (getSignatures sampleWallets ["a"; "a"] "root" 2)
                 ["a@root"; "a@root"].
Proof.
  assert (H : ["a"; "a"] <> []) by discriminate.
  split; [exact H|].
  exact (@getSignatures_every_entry_signs sampleWallets ["a"; "a"] "root" H).
Defined.

End SigMore.

(** ** The collection of transactions *)

Module CollectMore.
Import Propose Propose.Collect CollectObs.

Section OneScript.

Variables (f : Foundry) (script : string) (target : option string)
  (safe : string).

Let loop := collectLoop f script target safe.

(** One step of the loop on a network that collects. *)
Lemma collectLoop_step (networkName rpcUrl : string) (rest : list string)
  (collected : list Collected) :
  truthy (rpcEndpoints f networkName) = Some rpcUrl ->
  code (forgeScriptCollect f script rpcUrl target safe) = 0 ->
  loop (networkName :: rest) collected
  = (ForgeScriptCollect rpcUrl
       :: trace (loop rest (collected ++ [entryFor f script rpcUrl])),
     outcome (loop rest (collected ++ [entryFor f script rpcUrl]))).
Proof.
  intros Hrpc Hcode. unfold loop. simpl. rewrite Hrpc.
  unfold bind, emit. rewrite Hcode. cbn.
  fold (entryFor f script rpcUrl).
  destruct (collectLoop f script target safe rest _) as [t o].
  destruct o; reflexivity.
Qed.

(** The loop over networks that all collect, followed by others. *)
Lemma collectLoop_app (pre rest : list string) :
  forall collected,
    forallb (collects f script target safe) pre = true ->
    loop (pre ++ rest) collected
    = (map ForgeScriptCollect (endpointsOf f pre)
         ++ trace (loop rest
                     (collected
                      ++ map (entryFor f script) (endpointsOf f pre))),
       outcome (loop rest
                  (collected ++ map (entryFor f script) (endpointsOf f pre)))).
Proof.
  induction pre as [|n pre IH]; intros collected Hall.
  - simpl. rewrite app_nil_r. destruct (loop rest collected); reflexivity.
  - simpl in Hall. apply andb_true_iff in Hall. destruct Hall as [Hn Hall].
    unfold collects in Hn.
    destruct (truthy (rpcEndpoints f n)) as [rpcUrl|] eqn:Hrpc;
      [|discriminate].
    apply Z.eqb_eq in Hn.
    simpl app.
    rewrite (@collectLoop_step n rpcUrl (pre ++ rest) collected Hrpc Hn).
    rewrite (IH _ Hall). unfold endpointsOf. simpl flat_map. rewrite Hrpc.
    simpl. rewrite <- app_assoc. reflexivity.
Qed.

(** Whatever stops the loop, it is [process.exit(1)]. *)
Lemma collectLoop_error (networkNames : list string) :
  forall collected e,
    outcome (loop networkNames collected) = Err e -> e = ProcessExit 1.
Proof.
  induction networkNames as [|n rest IH]; intros collected e H.
  - discriminate.
  - destruct (truthy (rpcEndpoints f n)) as [rpcUrl|] eqn:Hrpc.
    + destruct (Z.eqb_spec (code (forgeScriptCollect f script rpcUrl target safe)) 0)
        as [Hcode|Hcode].
      * rewrite (@collectLoop_step n rpcUrl rest collected Hrpc Hcode) in H.
        eapply IH. exact H.
      * unfold loop in H. simpl in H. rewrite Hrpc in H.
        apply Z.eqb_neq in Hcode. unfold bind, emit, throw, outcome in H.
        rewrite Hcode in H. cbn in H. injection H as <-. reflexivity.
    + unfold loop in H. simpl in H. rewrite Hrpc in H. cbn in H.
      injection H as <-. reflexivity.
Qed.

(** X6.  A network without an RPC endpoint in [foundry.toml] stops the
    collection with exit code 1: Forge has run on the networks before it and
    on no other, and the last thing printed names the network. *)
Theorem collectLoop_missing_endpoint
  (pre post : list string) (bad : string) (collected : list Collected) :
  forallb (collects f script target safe) pre = true ->
  truthy (rpcEndpoints f bad) = None ->
  collectLoop f script target safe (pre ++ bad :: post) collected
  = (map ForgeScriptCollect (endpointsOf f pre)
       ++ [CollectConsoleError (NoRpcEndpointMessage bad)],
     Err (ProcessExit 1)).
Proof.
  intros Hpre Hbad. fold loop. rewrite (collectLoop_app pre _ _ Hpre).
  unfold loop. simpl. rewrite Hbad. reflexivity.
Qed.

(** X7.  A Forge run that exits with a code other than 0 stops the
    collection with exit code 1 after its standard output and then its
    standard error have been printed; no later network is visited. *)
Theorem collectLoop_forge_failure
  (pre post : list string) (bad rpcUrl : string)
  (collected : list Collected) :
  forallb (collects f script target safe) pre = true ->
  truthy (rpcEndpoints f bad) = Some rpcUrl ->
  code (forgeScriptCollect f script rpcUrl target safe) <> 0 ->
  collectLoop f script target safe (pre ++ bad :: post) collected
  = (map ForgeScriptCollect (endpointsOf f pre)
       ++ [ForgeScriptCollect rpcUrl;
           CollectConsoleLog
             (stdout (forgeScriptCollect f script rpcUrl target safe));
           CollectConsoleLog
             (stderr (forgeScriptCollect f script rpcUrl target safe))],
     Err (ProcessExit 1)).
Proof.
  intros Hpre Hrpc Hcode. fold loop. rewrite (collectLoop_app pre _ _ Hpre).
  unfold loop. simpl. rewrite Hrpc.
  apply Z.eqb_neq in Hcode. unfold bind, emit, throw, trace, outcome.
  rewrite Hcode. reflexivity.
Qed.

(** What the loop prints with [console.log]: nothing, unless a Forge run
    fails, and then the output of that run before the exit. *)
Lemma collectLoop_logged (networkNames : list string) :
  forall collected,
    Observe.collectLogged (trace (loop networkNames collected)) = []
    \/ outcome (loop networkNames collected) = Err (ProcessExit 1)
       /\ exists rpcUrl,
            code (forgeScriptCollect f script rpcUrl target safe) <> 0
            /\ Observe.collectLogged (trace (loop networkNames collected))
               = [stdout (forgeScriptCollect f script rpcUrl target safe);
                  stderr (forgeScriptCollect f script rpcUrl target safe)].
Proof.
  induction networkNames as [|n rest IH]; intros collected.
  - left. reflexivity.
  - destruct (truthy (rpcEndpoints f n)) as [rpcUrl|] eqn:Hrpc.
    + destruct (Z.eqb_spec (code (forgeScriptCollect f script rpcUrl target safe)) 0)
        as [Hcode|Hcode].
      * rewrite (@collectLoop_step n rpcUrl rest collected Hrpc Hcode).
        exact (IH _).
      * right. unfold loop. simpl. rewrite Hrpc.
        pose proof Hcode as Hneq. apply Z.eqb_neq in Hcode.
        unfold bind, emit, throw, trace, outcome. rewrite Hcode.
        split; [reflexivity|]. exists rpcUrl. split; [exact Hneq|reflexivity].
    + left. unfold loop. simpl. rewrite Hrpc. reflexivity.
Qed.

Lemma collectLoop_all (networkNames : list string)
  (collected : list Collected) :
  forallb (collects f script target safe) networkNames = true ->
  collectLoop f script target safe networkNames collected
  = (map ForgeScriptCollect (endpointsOf f networkNames),
     Ok (collected ++ map (entryFor f script) (endpointsOf f networkNames))).
Proof.
  intros Hall. fold loop. rewrite <- (app_nil_r networkNames) at 1.
  rewrite (collectLoop_app networkNames [] collected Hall).
  unfold loop. simpl. rewrite app_nil_r. reflexivity.
Qed.

Lemma length_endpointsOf (networkNames : list string) :
  forallb (collects f script target safe) networkNames = true ->
  length (endpointsOf f networkNames) = length networkNames.
Proof.
  induction networkNames as [|n rest IH]; intros Hall; [reflexivity|].
  simpl in Hall. apply andb_true_iff in Hall. destruct Hall as [Hn Hall].
  unfold collects in Hn. unfold endpointsOf. simpl.
  destruct (truthy (rpcEndpoints f n)); [|discriminate].
  simpl. f_equal. apply IH. exact Hall.
Qed.

Lemma collectLoop_ok_all (networkNames : list string) :
  forall collected out,
    outcome (collectLoop f script target safe networkNames collected)
      = Ok out ->
    forallb (collects f script target safe) networkNames = true.
Proof.
  induction networkNames as [|n rest IH]; intros collected out H;
    [reflexivity|].
  simpl forallb. unfold collects at 1.
  destruct (truthy (rpcEndpoints f n)) as [rpcUrl|] eqn:Hrpc.
  - destruct (Z.eqb_spec (code (forgeScriptCollect f script rpcUrl target safe)) 0)
      as [Hcode|Hcode].
    + fold loop in H.
      rewrite (@collectLoop_step n rpcUrl rest collected Hrpc Hcode) in H.
      simpl. eapply IH. exact H.
    + exfalso. simpl in H. rewrite Hrpc in H.
      apply Z.eqb_neq in Hcode. unfold bind, emit, throw, outcome in H.
      rewrite Hcode in H. discriminate.
  - exfalso. simpl in H. rewrite Hrpc in H. discriminate.
Qed.

(** X8.  When the collection returns, every network had an RPC endpoint and
    a Forge run that exited with 0.  Forge then ran once per network, in
    order, and the loop appended one entry per network, each recording the
    endpoint it was collected on. *)
Theorem collectLoop_returned
  (networkNames : list string) (collected out : list Collected) :
  outcome (collectLoop f script target safe networkNames collected) = Ok out ->
  forallb (collects f script target safe) networkNames = true
  /\ trace (collectLoop f script target safe networkNames collected)
     = map ForgeScriptCollect (endpointsOf f networkNames)
  /\ out = collected ++ map (entryFor f script) (endpointsOf f networkNames)
  /\ length (endpointsOf f networkNames) = length networkNames
  /\ map forkUrl (map (entryFor f script) (endpointsOf f networkNames))
     = endpointsOf f networkNames.
Proof.
  intros Hout.
  pose proof (collectLoop_ok_all _ _ Hout) as Hall.
  rewrite (collectLoop_all _ collected Hall) in Hout |- *.
  split; [exact Hall|]. split; [reflexivity|]. split.
  - unfold outcome in Hout. simpl in Hout. injection Hout as <-. reflexivity.
  - split; [apply length_endpointsOf; exact Hall|].
    rewrite map_map. simpl. apply map_id.
Qed.

End OneScript.

(** The i-th parsed configuration is made from the i-th collected entry and
    the gas estimates at the same index, counted from [k]. *)
Lemma mapParsedConfig_nth (f : Foundry) (gasEstimatesArray : list (list Z))
  (artifacts : ConfigArtifacts) (collected : list Collected) :
  forall k i,
    nth_error (mapParsedConfig f gasEstimatesArray artifacts k collected) i
    = option_map
        (fun c => makeParsedConfig f (deploymentInfo c) (rawActionInputs c)
                    (nth_error gasEstimatesArray (k + i)) artifacts
                    (libraries c))
        (nth_error collected i).
Proof.
  induction collected as [|c rest IH]; intros k i.
  - destruct i; reflexivity.
  - destruct i as [|i]; simpl.
    + rewrite Nat.add_0_r. reflexivity.
    + rewrite IH. replace (S k + i)%nat with (k + S i)%nat by lia.
      reflexivity.
Qed.

Lemma length_mapParsedConfig (f : Foundry) (gasEstimatesArray : list (list Z))
  (artifacts : ConfigArtifacts) (collected : list Collected) :
  forall k,
    length (mapParsedConfig f gasEstimatesArray artifacts k collected)
    = length collected.
Proof.
  induction collected as [|c rest IH]; intros k; [reflexivity|].
  simpl. rewrite IH. reflexivity.
Qed.

(** The result of [buildParsedConfigArray] in terms of the collection. *)
Lemma buildParsedConfigArray_unfold (f : Foundry) (script : string)
  (testnet recompile : bool) (target : option string) (b : BuildResult) :
  outcome (Collect.buildParsedConfigArray f script testnet recompile target)
    = Ok b ->
  let names := networksOf f script testnet target in
  let collected := map (entryFor f script) (endpointsOf f names) in
  forallb (collects f script target (safeOf f script target)) names = true
  /\ isEmpty b = nothingToExecute collected
  /\ trace (Collect.buildParsedConfigArray f script testnet recompile target)
     = map ForgeScriptCollect (endpointsOf f names)
       ++ (if recompile && negb (isEmpty b) then [Recompile] else [])
  /\ b = if nothingToExecute collected
         then {| parsedConfigArray := None; configArtifacts := None;
                 isEmpty := true |}
         else {| parsedConfigArray :=
                   Some (mapParsedConfig f
                           (getSphinxLeafGasEstimates f collected)
                           (getConfigArtifacts f collected) 0 collected);
                 configArtifacts := Some (getConfigArtifacts f collected);
                 isEmpty := false |}.
Proof.
  intros H names collected.
  unfold Collect.buildParsedConfigArray in *.
  fold (networksOf f script testnet target) in *. fold names in H |- *.
  fold (safeOf f script target) in *.
  rewrite ProposeFacts.outcome_bind in H.
  destruct (outcome (collectLoop f script target (safeOf f script target)
                       names [])) as [out|e] eqn:Hloop; [|discriminate].
  pose proof (collectLoop_ok_all f script target (safeOf f script target)
                names [] Hloop) as Hall.
  pose proof (collectLoop_all f script target (safeOf f script target)
                names [] Hall) as Hrun.
  simpl app in Hrun. fold collected in Hrun.
  rewrite Hrun in Hloop. unfold outcome in Hloop. cbn in Hloop.
  injection Hloop as <-.
  rewrite Hrun. unfold bind at 1. unfold bind at 1 in H.
  split; [exact Hall|].
  destruct (nothingToExecute collected).
  - cbn in H. injection H as <-. cbn. rewrite andb_false_r, app_nil_r.
    repeat split.
  - destruct recompile; cbn in H; injection H as <-; cbn;
      rewrite ?app_nil_r; repeat split.
Qed.

Lemma buildParsedConfigArray_cases (f : Foundry) (script : string)
  (testnet recompile : bool) (target : option string) (b : BuildResult) :
  outcome (Collect.buildParsedConfigArray f script testnet recompile target)
    = Ok b ->
  isEmpty b = true /\ parsedConfigArray b = None /\ configArtifacts b = None
  \/ isEmpty b = false
     /\ exists configs artifacts,
          parsedConfigArray b = Some configs
          /\ configArtifacts b = Some artifacts
          /\ length configs
             = length (networksOf f script testnet target)
          /\ configs <> [].
Proof.
  intros H.
  destruct (buildParsedConfigArray_unfold f script testnet recompile target H)
    as [Hall [He [Htr Hb]]].
  set (names := networksOf f script testnet target) in *.
  destruct (nothingToExecute (map (entryFor f script) (endpointsOf f names)))
    eqn:Hn.
  - left. rewrite Hb. repeat split.
  - right. rewrite Hb. split; [reflexivity|].
    eexists. eexists. split; [reflexivity|]. split; [reflexivity|].
    assert (Hlen : length (map (entryFor f script) (endpointsOf f names))
                   = length names).
    { rewrite length_map.
      apply (length_endpointsOf f script target (safeOf f script target)).
      exact Hall. }
    rewrite length_mapParsedConfig, Hlen. split; [reflexivity|].
    intros Hnil. apply (f_equal (@length _)) in Hnil.
    rewrite length_mapParsedConfig in Hnil. simpl in Hnil.
    unfold nothingToExecute in Hn. rewrite Hnil in Hn. discriminate.
Qed.

Lemma collectLogged_app (t1 t2 : list CollectEvent) :
  Observe.collectLogged (t1 ++ t2)
  = Observe.collectLogged t1 ++ Observe.collectLogged t2.
Proof. apply flat_map_app. Qed.

(** What [buildParsedConfigArray] prints with [console.log]: the output of
    a failed Forge run, before the exit, and nothing else. *)
Lemma buildParsedConfigArray_logged (f : Foundry) (script : string)
  (testnet recompile : bool) (target : option string) :
  Observe.collectLogged
    (trace (Collect.buildParsedConfigArray f script testnet recompile target))
  = []
  \/ outcome (Collect.buildParsedConfigArray f script testnet recompile target)
     = Err (ProcessExit 1)
     /\ exists rpcUrl,
          let run :=
            forgeScriptCollect f script rpcUrl target
              (safeOf f script target) in
          code run <> 0
          /\ Observe.collectLogged
               (trace (Collect.buildParsedConfigArray f script testnet
                         recompile target))
             = [stdout run; stderr run].
Proof.
  unfold Collect.buildParsedConfigArray. cbv zeta.
  rewrite ProposeFacts.trace_bind, ProposeFacts.outcome_bind.
  rewrite !collectLogged_app.
  destruct (collectLoop_logged f script target (safeOf f script target)
              (networksOf f script testnet target) [])
    as [Hnone|[Hout [rpcUrl [Hcode Hlogged]]]];
    unfold networksOf, safeOf in *; cbv zeta in *.
  - left. rewrite Hnone.
    destruct (outcome (collectLoop _ _ _ _ _ _)) as [collected|e];
      [|reflexivity].
    destruct (nothingToExecute collected); [reflexivity|].
    destruct recompile; reflexivity.
  - right. rewrite Hout, Hlogged. split; [reflexivity|].
    exists rpcUrl. split; [exact Hcode|reflexivity].
Qed.

(** X9.  What [buildParsedConfigArray] returns when it returns: either
    [isEmpty] with both other fields undefined, when no network has anything
    to execute, or a non-empty array with one parsed configuration per
    network and the artifacts.  The contracts are recompiled only when
    asked for and only in the second case, after every Forge run. *)
Theorem buildParsedConfigArray_result (f : Foundry) (script : string)
  (testnet recompile : bool) (target : option string) (b : BuildResult) :
  outcome (Collect.buildParsedConfigArray f script testnet recompile target)
    = Ok b ->
  let names := networksOf f script testnet target in
  (isEmpty b = true /\ parsedConfigArray b = None /\ configArtifacts b = None
   \/ isEmpty b = false
      /\ exists configs artifacts,
           parsedConfigArray b = Some configs
           /\ configArtifacts b = Some artifacts
           /\ length configs = length names
           /\ configs <> [])
  /\ trace (Collect.buildParsedConfigArray f script testnet recompile target)
     = map ForgeScriptCollect (endpointsOf f names)
       ++ (if recompile && negb (isEmpty b) then [Recompile] else []).
Proof.
  intros H names. split.
  - exact (@buildParsedConfigArray_cases f script testnet recompile target
             b H).
  - destruct (buildParsedConfigArray_unfold f script testnet recompile
                target H) as [_ [_ [Htr _]]].
    exact Htr.
Qed.

(** X10.  Gas estimates are matched with networks by position: the i-th
    parsed configuration is made from what was collected on the i-th network
    and from the i-th element of the gas estimates, which is undefined when
    the estimator returned fewer elements than there are networks. *)
Theorem buildParsedConfigArray_by_index (f : Foundry) (script : string)
  (testnet recompile : bool) (target : option string) (b : BuildResult)
  (configs : list ParsedConfig) (i : nat) :
  outcome (Collect.buildParsedConfigArray f script testnet recompile target)
    = Ok b ->
  parsedConfigArray b = Some configs ->
  let collected :=
    map (entryFor f script)
      (endpointsOf f (networksOf f script testnet target)) in
  nth_error configs i
  = option_map
      (fun c => makeParsedConfig f (deploymentInfo c) (rawActionInputs c)
                  (nth_error (getSphinxLeafGasEstimates f collected) i)
                  (getConfigArtifacts f collected) (libraries c))
      (nth_error collected i).
Proof.
  intros H Hc collected.
  destruct (buildParsedConfigArray_unfold f script testnet recompile target H)
    as [_ [_ [_ Hb]]].
  fold collected in Hb.
  destruct (nothingToExecute collected); rewrite Hb in Hc; [discriminate|].
  cbn in Hc. injection Hc as <-.
  rewrite mapParsedConfig_nth. reflexivity.
Qed.

(** *** Concrete runs *)

Lemma collectLoop_missing_endpoint_witness :
  collectLoop MoreSamples.patchyFoundry "script" None "0x5afe"
    (["sepolia"] ++ "ghost" :: ["holesky"]) []
  = ([ForgeScriptCollect "http://sepolia";
      CollectConsoleError
        "No RPC endpoint specified in your foundry.toml for the network: ghost."],
     Err (ProcessExit 1)).
Proof.
  exact (@collectLoop_missing_endpoint MoreSamples.patchyFoundry "script"
           None "0x5afe" ["sepolia"] ["holesky"] "ghost" [] eq_refl eq_refl).
Defined.

Lemma collectLoop_forge_failure_witness :
  collectLoop MoreSamples.patchyFoundry "script" None "0x5afe"
    (["sepolia"] ++ "holesky" :: []) []
  = ([ForgeScriptCollect "http://sepolia";
      ForgeScriptCollect "http://holesky";
      CollectConsoleLog "trace"; CollectConsoleLog "revert"],
     Err (ProcessExit 1)).
Proof.
  refine (@collectLoop_forge_failure MoreSamples.patchyFoundry "script"
            None "0x5afe" ["sepolia"] [] "holesky" "http://holesky" []
            eq_refl eq_refl _).
  simpl. discriminate.
Defined.

Lemma collectLoop_returned_witness :
  exists out,
    outcome (collectLoop MoreSamples.patchyFoundry "script" None "0x5afe"
               ["ethereum"; "base"] []) = Ok out
    /\ map forkUrl out = ["http://ethereum"; "http://base"]
    /\ trace (collectLoop MoreSamples.patchyFoundry "script" None "0x5afe"
                ["ethereum"; "base"] [])
       = [ForgeScriptCollect "http://ethereum";
          ForgeScriptCollect "http://base"].
Proof.
  eexists. split; [reflexivity|]. split; [reflexivity|].
  exact (proj1 (proj2 (@collectLoop_returned MoreSamples.patchyFoundry
                         "script" None "0x5afe" ["ethereum"; "base"] [] _
                         eq_refl))).
Defined.

Lemma buildParsedConfigArray_result_witness :
  exists b,
    outcome (Collect.buildParsedConfigArray MoreSamples.patchyFoundry
               "script" false true None) = Ok b
    /\ isEmpty b = false
    /\ option_map (@length _) (parsedConfigArray b) = Some 2%nat
    /\ trace (Collect.buildParsedConfigArray MoreSamples.patchyFoundry
                "script" false true None)
       = [ForgeScriptCollect "http://ethereum";
          ForgeScriptCollect "http://base"; Recompile].
Proof.
  eexists. split; [reflexivity|]. split; [reflexivity|].
  split; [reflexivity|].
  exact (proj2 (@buildParsedConfigArray_result MoreSamples.patchyFoundry
                  "script" false true None _ eq_refl)).
Defined.

Lemma buildParsedConfigArray_by_index_witness :
  exists b configs,
    outcome (Collect.buildParsedConfigArray MoreSamples.patchyFoundry
               "script" false true None) = Ok b
    /\ parsedConfigArray b = Some configs
    /\ nth_error configs 1
       = Some (Samples.chainConfig 11 ["deploy"] "org").
Proof.
  eexists. eexists. split; [reflexivity|]. split; [reflexivity|].
  exact (@buildParsedConfigArray_by_index MoreSamples.patchyFoundry
           "script" false true None _ _ 1 eq_refl eq_refl).
Defined.

End CollectMore.

(** ** The propose command, continued *)

Module ProposeMore.
Import Propose Observe.

(** *** Traces *)

Lemma never_app (p : Event -> bool) (l1 l2 : list Event) :
  never p (l1 ++ l2) = never p l1 && never p l2.
Proof. apply forallb_app. Qed.

Lemma never_bind (p : Event -> bool) (A B : Type) (m : M A) (k : A -> M B) :
  never p (trace m) = true ->
  (forall a, never p (trace (k a)) = true) ->
  never p (trace (bind m k)) = true.
Proof.
  intros Hm Hk. rewrite ProposeFacts.trace_bind, never_app, Hm.
  destruct (outcome m); [apply Hk|reflexivity].
Qed.

Lemma never_collecting (p : Event -> bool) (A : Type)
  (m : Eff CollectEvent A) :
  (forall e, p (Collecting e) = false) ->
  never p (trace (mapTrace Collecting m)) = true.
Proof.
  intros Hp. destruct m as [t o]. unfold mapTrace, trace, never. simpl.
  induction t as [|e t IH]; [reflexivity|]. simpl. rewrite Hp. exact IH.
Qed.

Lemma trace_promiseAll (E A : Type) (calls : list (E * Outcome A)) :
  trace (promiseAll calls) = map fst calls.
Proof.
  induction calls as [|[ev o] rest IH]; [reflexivity|].
  simpl. destruct (promiseAll rest) as [t r]. simpl in IH.
  destruct o, r; simpl; rewrite IH; reflexivity.
Qed.

Lemma promiseAll_length (E A : Type) (calls : list (E * Outcome A))
  (l : list A) :
  outcome (promiseAll calls) = Ok l -> length l = length calls.
Proof.
  revert l. induction calls as [|[ev o] rest IH]; intros l H.
  - injection H as <-. reflexivity.
  - simpl in H. destruct (promiseAll rest) as [t r]. simpl in IH.
    destruct o as [a|], r as [l'|]; try discriminate. injection H as <-.
    simpl. rewrite (IH l' eq_refl). reflexivity.
Qed.

Lemma never_promiseAll (p : Event -> bool) (A : Type)
  (calls : list (Event * Outcome A)) :
  (forall c, In c calls -> p (fst c) = false) ->
  never p (trace (promiseAll calls)) = true.
Proof.
  intros H. rewrite trace_promiseAll. unfold never.
  apply forallb_forall. intros ev Hev.
  apply in_map_iff in Hev. destruct Hev as [c [<- Hc]].
  rewrite (H c Hc). reflexivity.
Qed.

(** The trace of the simulation and the preview, once every estimate has
    arrived. *)
Lemma simulateAndPreview_trace (core : Core) (args : ProposeArgs)
  (configs : list ParsedConfig) (sp : list GasEstimate * Preview) :
  outcome (simulateAndPreview core args configs) = Ok sp ->
  trace (simulateAndPreview core args configs)
  = map GetNetworkGasEstimate (map chainId (filter hasActions configs))
    ++ previewEvents core args configs
  /\ length (fst sp) = length (filter hasActions configs)
  /\ snd sp = getPreview core configs.
Proof.
  unfold simulateAndPreview, previewEvents.
  rewrite ProposeFacts.outcome_bind, ProposeFacts.trace_bind.
  rewrite trace_promiseAll, map_map. cbn [fst].
  destruct (outcome (promiseAll _)) as [estimates|e] eqn:Hall; [|discriminate].
  apply promiseAll_length in Hall. rewrite length_map in Hall.
  rewrite ProposeFacts.outcome_bind, ProposeFacts.trace_bind.
  rewrite map_map.
  destruct (confirm args || isDryRun args).
  - destruct (negb (silent args)); cbn; intros H; injection H as <-;
      repeat split; try assumption; rewrite ?app_nil_r; reflexivity.
  - unfold bind, emit, lift, ret, await, outcome, trace. cbn.
    destruct (prompt _ _); cbn; [|discriminate].
    intros H; injection H as <-. repeat split; assumption.
Qed.

(** The trace of the tail of a successful run. *)
Lemma assembleAndRelay_trace (core : Core) (key : string) (args : ProposeArgs)
  (configs : list ParsedConfig) (artifacts : ConfigArtifacts)
  (t : SphinxMerkleTree) (estimates : list GasEstimate) (preview : Preview)
  (out : ProposeResult) (r : ProposalRequest) :
  outcome (assembleAndRelay core key args configs artifacts t estimates preview)
    = Ok out ->
  proposalRequest out = Some r ->
  trace (assembleAndRelay core key args configs artifacts t estimates preview)
  = registryEvents args (canonicalConfigJson core configs artifacts) r
  /\ (isDryRun args = false ->
      exists id,
        storeCanonicalConfig (sphinxContext args) (apiKey r) (prOrgId r)
          [canonicalConfigJson core configs artifacts] = Some id
        /\ compilerConfigId r = Some id
        /\ relayProposal (sphinxContext args) r = Some tt).
Proof.
  unfold assembleAndRelay, registryEvents.
  destruct configs as [|first rest]; [discriminate|].
  rewrite ProposeFacts.outcome_bind, ProposeFacts.trace_bind.
  unfold lift at 1 2. unfold outcome at 1 2. unfold trace at 1. cbn [fst snd].
  destruct (chainLoop t (first :: rest) emptyLoopState) as [st|e];
    [|discriminate].
  destruct (isDryRun args).
  - intros H Hr. injection H as <-. cbn in Hr. injection Hr as <-.
    split; [reflexivity|discriminate].
  - unfold bind, emit, lift, ret, await, outcome, trace. cbn.
    destruct (storeCanonicalConfig _ _ _ _) as [id|] eqn:Hstore;
      [|discriminate]. cbn.
    destruct (relayProposal _ _) as [[]|] eqn:Hrelay; [|discriminate]. cbn.
    intros H Hr. injection H as <-. cbn in Hr. injection Hr as <-.
    split; [reflexivity|]. intros _. exists id.
    split; [exact Hstore|]. split; [reflexivity|exact Hrelay].
Qed.

(** Everything a successful run with a request went through, the tail
    included. *)
Lemma propose_request_run (core : Core) (env : ProcessEnv)
  (args : ProposeArgs) (out : ProposeResult) (r : ProposalRequest) :
  outcome (propose core env args) = Ok out ->
  proposalRequest out = Some r ->
  exists key built configs artifacts sp first rest st id,
    truthy (SPHINX_API_KEY env) = Some key
    /\ outcome (buildParsedConfigArray (sphinxContext args) (scriptPath args)
                  (isTestnet args) (forceRecompile args)
                  (targetContract args)) = Ok built
    /\ isEmpty built = false
    /\ parsedConfigArray built = Some configs
    /\ configArtifacts built = Some artifacts
    /\ outcome (simulateAndPreview core args configs) = Ok sp
    /\ elementsEqual (map shouldBeEqualOf configs) = true
    /\ configs = first :: rest
    /\ chainLoop (makeMerkleTree core configs) configs emptyLoopState = Ok st
    /\ outcome (assembleAndRelay core key args configs artifacts
                  (makeMerkleTree core configs) (fst sp) (snd sp)) = Ok out
    /\ r = setCompilerConfigId
             (buildRequest key args first (makeMerkleTree core configs) st
                (fst sp) (snd sp)) id
    /\ canonicalConfigData out
       = Some (canonicalConfigJson core configs artifacts)
    /\ resConfigArtifacts out = Some artifacts
    /\ resParsedConfigArray out = Some configs
    /\ merkleTree out = Some (makeMerkleTree core configs).
Proof.
  intros Hout Hr. apply ProposeFacts.propose_ok in Hout.
  destruct Hout as [key [built [Hkey [Hb [[_ ->]|[He Hrun]]]]]];
    [discriminate|].
  destruct Hrun as [configs [artifacts [sp [Hc [Ha [Hsim Hfin]]]]]].
  apply ProposeFacts.finishProposal_ok in Hfin. destruct Hfin as [Heq Hasm].
  pose proof (ProposeFacts.assembleAndRelay_ok _ _ _ _ _ _ _ _ Hasm)
    as [first [rest [st [id [Hcs [Hloop [Hres _]]]]]]].
  exists key, built, configs, artifacts, sp, first, rest, st, id.
  subst out. cbn in Hr. injection Hr as <-.
  cbn. repeat split; assumption.
Qed.

(** *** The request and the trace of a successful run *)

(** X11.  The recorded calls of a run that returns a request, in order: the
    compiler, the read of [foundry.toml] and of the plugin interface, the
    collection, one gas estimate call per chain of the request in the order
    of [chainIds], the preview, and, unless the run is dry, the store of the
    returned canonical configuration followed by the relay of the returned
    request.  Of the kinds of call that the trace records the run makes no
    other; the spinner and [makeGetConfigArtifacts] are not recorded. *)
Theorem propose_success_trace
  (core : Core) (env : ProcessEnv) (args : ProposeArgs) (out : ProposeResult)
  (r : ProposalRequest) (configs : list ParsedConfig) (canonical : string) :
  outcome (propose core env args) = Ok out ->
  proposalRequest out = Some r ->
  resParsedConfigArray out = Some configs ->
  canonicalConfigData out = Some canonical ->
  trace (propose core env args)
  = preamble args
    ++ map Collecting
         (trace (buildParsedConfigArray (sphinxContext args) (scriptPath args)
                   (isTestnet args) (forceRecompile args)
                   (targetContract args)))
    ++ map GetNetworkGasEstimate (chainIds r)
    ++ previewEvents core args configs
    ++ registryEvents args canonical r.
Proof.
  intros Hout Hr Hc Hcan.
  destruct (ProposeFacts.propose_request_shape core env args Hout Hr Hc)
    as [Hids _].
  destruct (propose_request_run core env args Hout Hr)
    as (key & built & configs' & artifacts & sp & first & rest & st & id &
        Hkey & Hb & He & Hpc & Ha & Hsim & Heq & _ & _ & Hasm & _ & Hcan' &
        _ & Hc' & _).
  rewrite Hc in Hc'. injection Hc' as <-.
  rewrite Hcan in Hcan'. injection Hcan' as ->.
  destruct (simulateAndPreview_trace core args configs Hsim) as [Htsim _].
  destruct (assembleAndRelay_trace _ _ _ _ _ _ _ _ Hasm Hr) as [Htasm _].
  unfold propose. rewrite Hkey, !ProposeFacts.trace_emit.
  rewrite ProposeFacts.trace_bind, ProposeFacts.outcome_mapTrace, Hb.
  rewrite He, Hpc, Ha.
  rewrite ProposeFacts.trace_bind, Hsim, Htsim.
  unfold finishProposal. rewrite Heq. cbn [negb]. rewrite Htasm, Hids.
  unfold preamble, mapTrace, trace. cbn [app fst].
  rewrite <- !app_assoc. reflexivity.
Qed.

(** X12.  In a real run that returns a request, the registry was asked to
    store exactly the returned canonical configuration under the request's
    key and organisation, the request carries the id the registry answered,
    and the request relayed is the request returned, id included. *)
Theorem propose_registers_what_it_returns
  (core : Core) (env : ProcessEnv) (args : ProposeArgs) (out : ProposeResult)
  (r : ProposalRequest) (canonical : string) :
  isDryRun args = false ->
  outcome (propose core env args) = Ok out ->
  proposalRequest out = Some r ->
  canonicalConfigData out = Some canonical ->
  exists id,
    storeCanonicalConfig (sphinxContext args) (apiKey r) (prOrgId r)
      [canonical] = Some id
    /\ compilerConfigId r = Some id
    /\ relayProposal (sphinxContext args) r = Some tt
    /\ truthy (SPHINX_API_KEY env) = Some (apiKey r).
Proof.
  intros Hdry Hout Hr Hcan.
  destruct (propose_request_run core env args Hout Hr)
    as (key & built & configs & artifacts & sp & first & rest & st & id &
        Hkey & _ & _ & _ & _ & _ & _ & _ & _ & Hasm & Hreq & Hcan' & _).
  rewrite Hcan in Hcan'. injection Hcan' as ->.
  destruct (assembleAndRelay_trace _ _ _ _ _ _ _ _ Hasm Hr) as [_ Hreg].
  destruct (Hreg Hdry) as [i [Hstore [Hid Hrelay]]].
  exists i. repeat split; try assumption.
  rewrite Hreq. exact Hkey.
Qed.

(** X13.  The request of a successful run speaks for every chain of the
    returned configurations, those without actions included: organisation,
    project name, owners, threshold, salt nonce, Safe address, module address
    and Safe init data of the request are those of each chain.  It has one
    gas estimate per chain of [chainIds], its diff is the preview of the
    configurations, and its root is the root of the returned tree. *)
Theorem propose_request_contents
  (core : Core) (env : ProcessEnv) (args : ProposeArgs) (out : ProposeResult)
  (r : ProposalRequest) (configs : list ParsedConfig) :
  outcome (propose core env args) = Ok out ->
  proposalRequest out = Some r ->
  resParsedConfigArray out = Some configs ->
  (forall p, In p configs ->
     prOrgId r = orgId (newConfig p)
     /\ deploymentName r = projectName (newConfig p)
     /\ prOwners r = owners (newConfig p)
     /\ prThreshold r = threshold (newConfig p)
     /\ safeInitSaltNonce r = saltNonce (newConfig p)
     /\ prSafeAddress r = safeAddress p
     /\ prModuleAddress r = moduleAddress p
     /\ prSafeInitData r = safeInitData p)
  /\ length (gasEstimates r) = length (chainIds r)
  /\ diff r = getPreview core configs
  /\ prIsTestnet r = isTestnet args
  /\ option_map root (merkleTree out) = Some (treeRoot (tree r)).
Proof.
  intros Hout Hr Hc.
  destruct (ProposeFacts.propose_request_shape core env args Hout Hr Hc)
    as [Hids _].
  destruct (propose_request_run core env args Hout Hr)
    as (key & built & configs' & artifacts & sp & first & rest & st & id &
        _ & _ & _ & _ & _ & Hsim & Heq & Hcs & _ & _ & Hreq & _ & _ & Hc' &
        Ht).
  rewrite Hc in Hc'. injection Hc' as <-.
  destruct (simulateAndPreview_trace core args configs Hsim)
    as [_ [Hlen Hprev]].
  split; [|split; [|split; [|split]]].
  - intros p Hp.
    assert (Hsame : shouldBeEqualOf p = shouldBeEqualOf first).
    { apply (proj1 (ProposeFacts.elementsEqual_true _) Heq).
      - apply in_map. exact Hp.
      - apply in_map. rewrite Hcs. left. reflexivity. }
    unfold shouldBeEqualOf in Hsame. injection Hsame as Hn Hs Hm Hi.
    rewrite Hreq. cbn. rewrite Hn, Hs, Hm, Hi. repeat split.
  - rewrite Hids, length_map, <- Hlen, Hreq. reflexivity.
  - rewrite Hreq. cbn. exact Hprev.
  - rewrite Hreq. reflexivity.
  - rewrite Ht, Hreq. reflexivity.
Qed.

(** *** What a run never does *)

(** A kind of event that neither the start of [propose], the collection,
    the simulation and preview, nor the tail produces is absent from the
    whole trace. *)
Lemma propose_never (p : Event -> bool) (core : Core) (env : ProcessEnv)
  (args : ProposeArgs) :
  p (ConsoleError ApiKeyMessage) = false ->
  never p (preamble args) = true ->
  (forall e, p (Collecting e) = false) ->
  (forall configs,
      never p (trace (simulateAndPreview core args configs)) = true) ->
  (forall key configs artifacts t estimates preview,
      never p (trace (assembleAndRelay core key args configs artifacts t
                        estimates preview)) = true) ->
  never p (trace (propose core env args)) = true.
Proof.
  intros Hkey Hpre Hcol Hsim Hasm. unfold propose.
  destruct (truthy (SPHINX_API_KEY env)) as [key|].
  - unfold never, preamble in Hpre. cbn [forallb] in Hpre.
    apply andb_true_iff in Hpre. destruct Hpre as [H1 Hpre].
    apply andb_true_iff in Hpre. destruct Hpre as [H2 Hpre].
    apply andb_true_iff in Hpre. destruct Hpre as [H3 _].
    apply never_bind; [unfold never; cbn; rewrite H1; reflexivity|intros _].
    apply never_bind; [unfold never; cbn; rewrite H2; reflexivity|intros _].
    apply never_bind; [unfold never; cbn; rewrite H3; reflexivity|intros _].
    apply never_bind; [apply never_collecting, Hcol|intros built].
    destruct (isEmpty built); [reflexivity|].
    destruct (parsedConfigArray built) as [configs|]; [|reflexivity].
    destruct (configArtifacts built) as [artifacts|]; [|reflexivity].
    apply never_bind; [apply Hsim|intros sp].
    unfold finishProposal.
    destruct (elementsEqual (map shouldBeEqualOf configs)); [|reflexivity].
    apply Hasm.
  - unfold never. cbn. rewrite Hkey. reflexivity.
Qed.

Lemma assembleAndRelay_never (p : Event -> bool) (core : Core) (key : string)
  (args : ProposeArgs) (configs : list ParsedConfig)
  (artifacts : ConfigArtifacts) (t : SphinxMerkleTree)
  (estimates : list GasEstimate) (preview : Preview) :
  (forall k o d, p (StoreCanonicalConfig k o d) = false) ->
  (forall r, p (RelayProposal r) = false) ->
  never p (trace (assembleAndRelay core key args configs artifacts t
                    estimates preview)) = true.
Proof.
  intros Hstore Hrelay. unfold assembleAndRelay.
  destruct configs as [|first rest]; [reflexivity|].
  apply never_bind; [reflexivity|intros st].
  destruct (isDryRun args); [reflexivity|].
  unfold bind, emit, lift, ret, await, trace, never.
  destruct (storeCanonicalConfig _ _ _ _);
    [destruct (relayProposal _ _)|];
    cbn; rewrite ?Hstore, ?Hrelay; reflexivity.
Qed.

Lemma simulateAndPreview_never (p : Event -> bool) (core : Core)
  (args : ProposeArgs) (configs : list ParsedConfig) :
  (forall c, p (GetNetworkGasEstimate c) = false) ->
  never p (previewEvents core args configs) = true ->
  never p (trace (simulateAndPreview core args configs)) = true.
Proof.
  intros Hgas Hprev. unfold simulateAndPreview.
  apply never_bind.
  - apply never_promiseAll. intros c Hc.
    apply in_map_iff in Hc. destruct Hc as [q [<- _]]. apply Hgas.
  - intros estimates. apply never_bind; [|reflexivity].
    unfold previewEvents in Hprev.
    destruct (confirm args || isDryRun args).
    + destruct (negb (silent args)); [exact Hprev|reflexivity].
    + unfold bind, emit, lift, await, trace.
      destruct (prompt (sphinxContext args) _); cbn; exact Hprev.
Qed.

(** *** What a run prints *)

Lemma consoleLogged_app (t1 t2 : list Event) :
  consoleLogged (t1 ++ t2) = consoleLogged t1 ++ consoleLogged t2.
Proof. apply flat_map_app. Qed.

Lemma consoleLogged_collecting (t : list CollectEvent) :
  consoleLogged (map Collecting t) = collectLogged t.
Proof.
  induction t as [|e t IH]; [reflexivity|].
  change (consoleLogged (map Collecting (e :: t)))
    with (collectLogged [e] ++ consoleLogged (map Collecting t)).
  rewrite IH. symmetry. apply (CollectMore.collectLogged_app [e] t).
Qed.

(** An event that prints with [console.log]. *)
Lemma consoleLogged_never (t : list Event) :
  never (fun ev => match consoleLogged [ev] with
                   | [] => false
                   | _ :: _ => true
                   end) t = true ->
  consoleLogged t = [].
Proof.
  induction t as [|ev t IH]; intros H; [reflexivity|].
  unfold never in H. cbn [forallb] in H. apply andb_true_iff in H.
  destruct H as [Hev Ht].
  change (consoleLogged (ev :: t))
    with (consoleLogged ([ev] ++ t)).
  rewrite consoleLogged_app, (IH Ht). cbv beta in Hev.
  destruct (consoleLogged [ev]); [reflexivity|discriminate Hev].
Qed.

(** The simulation prints nothing; the preview is printed only once every
    estimate has arrived. *)
Lemma simulateAndPreview_logged (core : Core) (args : ProposeArgs)
  (configs : list ParsedConfig) :
  consoleLogged (trace (simulateAndPreview core args configs))
  = match outcome (simulateAndPreview core args configs) with
    | Ok _ => consoleLogged (previewEvents core args configs)
    | Err _ => []
    end.
Proof.
  unfold simulateAndPreview, previewEvents.
  rewrite ProposeFacts.outcome_bind, ProposeFacts.trace_bind.
  rewrite consoleLogged_app.
  rewrite (consoleLogged_never (trace (promiseAll _))).
  2:{ apply never_promiseAll. intros c Hc.
      apply in_map_iff in Hc. destruct Hc as [q [<- _]]. reflexivity. }
  destruct (outcome (promiseAll _)) as [estimates|e]; [|reflexivity].
  rewrite ProposeFacts.outcome_bind, ProposeFacts.trace_bind.
  destruct (confirm args || isDryRun args).
  - destruct (negb (silent args)); reflexivity.
  - unfold bind, emit, lift, ret, await, outcome, trace.
    destruct (prompt (sphinxContext args) _); reflexivity.
Qed.

Lemma finishProposal_logged (core : Core) (key : string) (args : ProposeArgs)
  (configs : list ParsedConfig) (artifacts : ConfigArtifacts)
  (t : SphinxMerkleTree) (estimates : list GasEstimate) (preview : Preview) :
  consoleLogged (trace (finishProposal core key args configs artifacts t
                          estimates preview)) = [].
Proof.
  unfold finishProposal.
  destruct (elementsEqual (map shouldBeEqualOf configs)); [|reflexivity].
  apply consoleLogged_never. apply assembleAndRelay_never; reflexivity.
Qed.

(** Everything a run prints with [console.log]: what the collection prints,
    then the preview if the run gets that far. *)
Lemma propose_logged (core : Core) (env : ProcessEnv) (args : ProposeArgs) :
  consoleLogged (trace (propose core env args))
  = match truthy (SPHINX_API_KEY env) with
    | None => []
    | Some _ =>
        collectLogged
          (trace (buildParsedConfigArray (sphinxContext args)
                    (scriptPath args) (isTestnet args) (forceRecompile args)
                    (targetContract args)))
        ++ match outcome (buildParsedConfigArray (sphinxContext args)
                            (scriptPath args) (isTestnet args)
                            (forceRecompile args) (targetContract args)) with
           | Err _ => []
           | Ok built =>
               if isEmpty built then []
               else
                 match parsedConfigArray built, configArtifacts built with
                 | Some configs, Some _ =>
                     match outcome (simulateAndPreview core args configs) with
                     | Ok _ =>
                         consoleLogged (previewEvents core args configs)
                     | Err _ => []
                     end
                 | _, _ => []
                 end
           end
    end.
Proof.
  unfold propose. destruct (truthy (SPHINX_API_KEY env)) as [key|];
    [|reflexivity].
  rewrite !ProposeFacts.trace_emit.
  change (consoleLogged (?a :: ?b :: ?c :: ?t)) with (consoleLogged t).
  rewrite ProposeFacts.trace_bind, consoleLogged_app,
    ProposeFacts.outcome_mapTrace.
  unfold mapTrace at 1. unfold trace at 1. cbn [fst].
  rewrite consoleLogged_collecting. f_equal.
  destruct (outcome (buildParsedConfigArray _ _ _ _ _)) as [built|e];
    [|reflexivity].
  destruct (isEmpty built); [reflexivity|].
  destruct (parsedConfigArray built) as [configs|]; [|reflexivity].
  destruct (configArtifacts built) as [artifacts|]; [|reflexivity].
  rewrite ProposeFacts.trace_bind, consoleLogged_app,
    simulateAndPreview_logged.
  destruct (outcome (simulateAndPreview core args configs)) as [sp|e];
    [|reflexivity].
  rewrite finishProposal_logged, app_nil_r. reflexivity.
Qed.

(** X14.  With the plugin's own [buildParsedConfigArray], what a run prints
    with [console.log] is one of three things: nothing; the standard output
    and standard error of a failed Forge run, the run then ending with exit
    code 1; or the preview, once, in a run that is confirmed or dry and not
    silent.  A run that returns a request printed exactly the preview in
    the last case and nothing otherwise, and a confirmed or dry run never
    puts the preview to the user. *)
Theorem propose_preview_channel
  (core : Core) (env : ProcessEnv) (args : ProposeArgs)
  (f : Collect.Foundry) :
  buildParsedConfigArray (sphinxContext args)
    = Collect.buildParsedConfigArray f ->
  let printed := consoleLogged (trace (propose core env args)) in
  (printed = []
   \/ (outcome (propose core env args) = Err (ProcessExit 1)
       /\ exists rpcUrl,
            let run :=
              Collect.forgeScriptCollect f (scriptPath args) rpcUrl
                (targetContract args)
                (CollectObs.safeOf f (scriptPath args) (targetContract args))
            in
            Collect.code run <> 0
            /\ printed = [Collect.stdout run; Collect.stderr run])
   \/ (confirm args || isDryRun args = true
       /\ silent args = false
       /\ exists configs,
            printed = [getPreviewString core (getPreview core configs) false]))
  /\ (forall out r,
        outcome (propose core env args) = Ok out ->
        proposalRequest out = Some r ->
        printed
        = if (confirm args || isDryRun args) && negb (silent args)
          then [getPreviewString core (diff r) false]
          else [])
  /\ (confirm args || isDryRun args = true ->
      never isPrompt (trace (propose core env args)) = true).
Proof.
  intros Hctx printed.
  pose proof (CollectMore.buildParsedConfigArray_logged f (scriptPath args)
                (isTestnet args) (forceRecompile args) (targetContract args))
    as Hcollect.
  cbv zeta in Hcollect.
  assert (Hprinted : printed = consoleLogged (trace (propose core env args)))
    by reflexivity.
  rewrite propose_logged, Hctx in Hprinted.
  split; [|split].
  - destruct (truthy (SPHINX_API_KEY env)) as [key|] eqn:Hkey;
      [|left; exact Hprinted].
    destruct Hcollect as [Hnone|[Hout [rpcUrl [Hcode Hlogged]]]].
    + rewrite Hnone in Hprinted. cbn [app] in Hprinted.
      destruct (outcome (Collect.buildParsedConfigArray f _ _ _ _))
        as [built|e]; [|left; exact Hprinted].
      destruct (isEmpty built); [left; exact Hprinted|].
      destruct (parsedConfigArray built) as [configs|];
        [|left; exact Hprinted].
      destruct (configArtifacts built) as [artifacts|];
        [|left; exact Hprinted].
      destruct (outcome (simulateAndPreview core args configs));
        [|left; exact Hprinted].
      unfold previewEvents in Hprinted.
      destruct (confirm args || isDryRun args); [|left; exact Hprinted].
      destruct (silent args); [left; exact Hprinted|].
      right. right. split; [reflexivity|]. split; [reflexivity|].
      exists configs. exact Hprinted.
    + right. left. rewrite Hout, Hlogged in Hprinted. split.
      * unfold propose. rewrite Hkey, !ProposeFacts.outcome_emit,
          ProposeFacts.outcome_bind, ProposeFacts.outcome_mapTrace, Hctx, Hout.
        reflexivity.
      * exists rpcUrl. split; [exact Hcode|exact Hprinted].
  - intros out r Hout Hr.
    destruct (propose_request_run core env args Hout Hr)
      as (key & built & configs & artifacts & sp & first & rest & st & id &
          Hkey & Hb & He & Hpc & Ha & Hsim & _ & _ & _ & _ & Hreq & _).
    destruct (simulateAndPreview_trace core args configs Hsim)
      as [_ [_ Hprev]].
    rewrite Hctx in Hb.
    rewrite Hkey, Hb, He, Hpc, Ha, Hsim in Hprinted.
    destruct Hcollect as [Hnone|[Hfail _]]; [|congruence].
    rewrite Hnone in Hprinted. cbn [app] in Hprinted.
    assert (Hdiff : diff r = getPreview core configs)
      by (rewrite Hreq; cbn; exact Hprev).
    rewrite Hdiff, Hprinted. unfold previewEvents.
    destruct (confirm args || isDryRun args);
      destruct (silent args); reflexivity.
  - intros Hc. apply propose_never; try reflexivity.
    + intros configs. apply simulateAndPreview_never; [reflexivity|].
      unfold previewEvents. rewrite Hc.
      destruct (negb (silent args)); reflexivity.
    + intros. apply assembleAndRelay_never; reflexivity.
Qed.

(** X15.  When the registry refuses to store the canonical configuration, a
    real run relays nothing and returns no request: its only possible
    return value is the empty object of a proposal with nothing to
    execute. *)
Theorem propose_store_rejected
  (core : Core) (env : ProcessEnv) (args : ProposeArgs) :
  isDryRun args = false ->
  (forall k o d, storeCanonicalConfig (sphinxContext args) k o d = None) ->
  never isRelay (trace (propose core env args)) = true
  /\ (forall out, outcome (propose core env args) = Ok out ->
                  out = emptyResult).
Proof.
  intros Hdry Hstore. split.
  - apply propose_never; try reflexivity.
    + intros configs. apply simulateAndPreview_never; [reflexivity|].
      unfold previewEvents.
      destruct (confirm args || isDryRun args); [|reflexivity].
      destruct (negb (silent args)); reflexivity.
    + intros key configs artifacts t estimates preview.
      unfold assembleAndRelay.
      destruct configs as [|first rest]; [reflexivity|].
      apply never_bind; [reflexivity|intros st]. rewrite Hdry.
      unfold bind, emit, lift, ret, await, trace, never.
      rewrite Hstore. reflexivity.
  - intros out Hout.
    destruct (ProposeFacts.propose_success core env args Hout)
      as [->|Hrun]; [reflexivity|exfalso].
    destruct Hrun as (key & built & configs & artifacts & sp & first & rest
                      & st & id & _ & _ & _ & _ & _ & _ & _ & _ & _ & Hres
                      & _).
    assert (Hr : proposalRequest out
                 = Some (setCompilerConfigId
                           (buildRequest key args first
                              (makeMerkleTree core configs) st
                              (fst sp) (snd sp)) id))
      by (rewrite Hres; reflexivity).
    destruct (propose_request_run core env args Hout Hr)
      as (key' & built' & configs' & artifacts' & sp' & first' & rest' & st'
          & id' & _ & _ & _ & _ & _ & _ & _ & _ & _ & Hasm & _).
    destruct (assembleAndRelay_trace _ _ _ _ _ _ _ _ Hasm Hr) as [_ Hreg].
    destruct (Hreg Hdry) as [i [Hi _]]. rewrite Hstore in Hi. discriminate.
Qed.

(** *** Approval leaves and project deployments *)

Lemma chainLoop_deployments (t : SphinxMerkleTree)
  (configs : list ParsedConfig) :
  forall st st',
    chainLoop t configs st = Ok st' ->
    lsProjectDeployments st'
    = lsProjectDeployments st ++ deploymentsOf t configs
    /\ (forall p, In p configs -> hasActions p = true ->
          (length (approvalLeaves t (chainId p)) <= 1)%nat).
Proof.
  unfold deploymentsOf.
  induction configs as [|q rest IH]; intros st st' H; simpl in H.
  - injection H as <-. simpl. rewrite app_nil_r. split; [reflexivity|].
    intros p [].
  - assert (Hf : filter hasActions (q :: rest) =
                 if hasActions q then q :: filter hasActions rest
                 else filter hasActions rest) by reflexivity.
    rewrite Hf. clear Hf.
    destruct (Nat.eqb (length (actionInputs q)) 0) eqn:E.
    + assert (Hq : hasActions q = false)
        by (unfold hasActions; rewrite E; reflexivity).
      rewrite Hq. destruct (IH _ _ H) as [Hd Hle]. split; [exact Hd|].
      intros p [<-|Hp] Hact; [congruence|apply Hle; assumption].
    + assert (Hq : hasActions q = true)
        by (unfold hasActions; rewrite E; reflexivity).
      rewrite Hq.
      destruct (getProjectDeploymentForChain t q) as [d|e] eqn:Hget;
        [|discriminate].
      destruct (IH _ _ H) as [Hd Hle]. cbn [lsProjectDeployments] in Hd.
      split.
      * rewrite Hd, <- app_assoc. simpl flat_map. rewrite Hget.
        destruct d; reflexivity.
      * intros p [<-|Hp] Hact; [|apply Hle; assumption].
        unfold getProjectDeploymentForChain in Hget.
        destruct (approvalLeaves t (chainId q)) as [|l1 [|l2 ls]];
          simpl; try lia. discriminate.
Qed.

(** X16.  The project deployments of a returned request are those of the
    chains that have actions and one APPROVE leaf in the returned tree, in
    order; each carries the root of the request as its deployment id and the
    id of a chain of the request.  No chain with actions has more than one
    APPROVE leaf in the tree of a run that returns a request. *)
Theorem propose_project_deployments
  (core : Core) (env : ProcessEnv) (args : ProposeArgs) (out : ProposeResult)
  (r : ProposalRequest) (configs : list ParsedConfig)
  (t : SphinxMerkleTree) :
  outcome (propose core env args) = Ok out ->
  proposalRequest out = Some r ->
  resParsedConfigArray out = Some configs ->
  merkleTree out = Some t ->
  projectDeployments r = deploymentsOf t configs
  /\ (forall d, In d (projectDeployments r) ->
        deploymentId d = treeRoot (tree r)
        /\ In (pdChainId d) (chainIds r))
  /\ (forall p, In p configs -> hasActions p = true ->
        (length (approvalLeaves t (chainId p)) <= 1)%nat).
Proof.
  intros Hout Hr Hc Ht.
  destruct (ProposeFacts.propose_request_shape core env args Hout Hr Hc)
    as [Hids [_ [Hroot _]]].
  destruct (propose_request_run core env args Hout Hr)
    as (key & built & configs' & artifacts & sp & first & rest & st & id
        & _ & _ & _ & _ & _ & _ & _ & _ & Hloop & _ & Hreq & _ & _ & Hc'
        & Ht').
  rewrite Hc in Hc'. injection Hc' as <-.
  rewrite Ht in Ht'. injection Ht' as ->.
  destruct (chainLoop_deployments _ _ _ Hloop) as [Hd Hle].
  assert (Hpd : projectDeployments r
                = deploymentsOf (makeMerkleTree core configs) configs)
    by (rewrite Hreq; exact Hd).
  split; [exact Hpd|]. split; [|exact Hle].
  intros d Hin. rewrite Hpd in Hin. unfold deploymentsOf in Hin.
  apply in_flat_map in Hin. destruct Hin as [p [Hp Hin]].
  unfold getProjectDeploymentForChain in Hin.
  destruct (approvalLeaves (makeMerkleTree core configs) (chainId p))
    as [|l1 [|l2 ls]]; try contradiction.
  destruct Hin as [<-|[]]. cbn. split; [symmetry; exact Hroot|].
  rewrite Hids. apply in_map. exact Hp.
Qed.

(** X17.  A tree with two or more APPROVE leaves for a chain that has
    actions makes [propose] throw, after the preview and before any call to
    the registry, dry run or not. *)
Theorem propose_multiple_approval_leaves
  (core : Core) (env : ProcessEnv) (args : ProposeArgs) (key : string)
  (tr : list CollectEvent) (configs : list ParsedConfig)
  (artifacts : ConfigArtifacts) (sp : list GasEstimate * Preview)
  (p : ParsedConfig) :
  truthy (SPHINX_API_KEY env) = Some key ->
  buildParsedConfigArray (sphinxContext args) (scriptPath args)
    (isTestnet args) (forceRecompile args) (targetContract args)
  = (tr, Ok {| parsedConfigArray := Some configs;
               configArtifacts := Some artifacts;
               isEmpty := false |}) ->
  outcome (simulateAndPreview core args configs) = Ok sp ->
  elementsEqual (map shouldBeEqualOf configs) = true ->
  In p configs ->
  hasActions p = true ->
  (2 <= length (approvalLeaves (makeMerkleTree core configs) (chainId p)))%nat ->
  (exists chain,
      outcome (propose core env args) = Err (MultipleApprovalLeaves chain))
  /\ noRemoteCall (trace (propose core env args)) = true.
Proof.
  intros Hkey Hbuilt Hsim Heq Hp Hact Htwo.
  destruct (ProposeFacts.propose_built core env args Hkey Hbuilt)
    as [Hout Htr].
  cbv zeta in Hout, Htr. rewrite Hsim in Hout, Htr.
  unfold finishProposal in Hout, Htr. rewrite Heq in Hout, Htr.
  cbn [negb] in Hout, Htr. unfold assembleAndRelay in Hout, Htr.
  destruct configs as [|first rest]; [contradiction|].
  destruct (chainLoop (makeMerkleTree core (first :: rest)) (first :: rest)
              emptyLoopState) as [st|e] eqn:Hloop.
  - exfalso. destruct (chainLoop_deployments _ _ _ Hloop) as [_ Hle].
    specialize (Hle p Hp Hact). lia.
  - destruct (ProposeFacts.chainLoop_err _ _ _ Hloop) as [chain ->].
    split.
    + exists chain. rewrite Hout. reflexivity.
    + rewrite Htr, ProposeFacts.noRemoteCall_prefix,
        ProposeFacts.noRemoteCall_app,
        ProposeFacts.simulateAndPreview_noRemote.
      reflexivity.
Qed.

(** *** The errors of a run with the plugin's collection *)

Lemma promiseAll_error (E A : Type) (P : Error -> Prop)
  (calls : list (E * Outcome A)) (e : Error) :
  (forall c e', In c calls -> snd c = Err e' -> P e') ->
  outcome (promiseAll calls) = Err e -> P e.
Proof.
  induction calls as [|[ev o] rest IH]; intros Hall H; [discriminate|].
  simpl in H. destruct (promiseAll rest) as [t r]. simpl in IH.
  destruct o as [a|e1].
  - destruct r as [l|e2]; [discriminate|]. injection H as <-.
    apply IH; [|reflexivity].
    intros c e' Hc. apply Hall. right. exact Hc.
  - injection H as <-. apply (Hall (ev, Err e1)); [left|]; reflexivity.
Qed.

Lemma simulateAndPreview_error (core : Core) (args : ProposeArgs)
  (configs : list ParsedConfig) (e : Error) :
  outcome (simulateAndPreview core args configs) = Err e ->
  exists who, e = Rejected who.
Proof.
  unfold simulateAndPreview. rewrite ProposeFacts.outcome_bind.
  destruct (outcome (promiseAll _)) as [estimates|e0] eqn:Hall.
  - rewrite ProposeFacts.outcome_bind.
    destruct (confirm args || isDryRun args).
    + destruct (negb (silent args)); discriminate.
    + unfold bind, emit, lift, await, outcome.
      destruct (prompt (sphinxContext args) _); cbn; [discriminate|].
      intros H. injection H as <-. eexists. reflexivity.
  - intros H. injection H as <-.
    refine (@promiseAll_error _ _ (fun e => exists who, e = Rejected who)
              _ _ _ Hall).
    intros c e' Hc Hsnd. apply in_map_iff in Hc. destruct Hc as [q [<- _]].
    cbn in Hsnd. unfold await in Hsnd.
    destruct (getNetworkGasEstimate _ _ _); [discriminate|].
    injection Hsnd as <-. eexists. reflexivity.
Qed.

Lemma assembleAndRelay_error (core : Core) (key : string) (args : ProposeArgs)
  (configs : list ParsedConfig) (artifacts : ConfigArtifacts)
  (t : SphinxMerkleTree) (estimates : list GasEstimate) (preview : Preview)
  (e : Error) :
  configs <> [] ->
  outcome (assembleAndRelay core key args configs artifacts t estimates
             preview) = Err e ->
  (exists who, e = Rejected who)
  \/ (exists chain, e = MultipleApprovalLeaves chain).
Proof.
  intros Hne. unfold assembleAndRelay.
  destruct configs as [|first rest]; [congruence|].
  rewrite ProposeFacts.outcome_bind.
  unfold lift at 1. unfold outcome at 1. cbn [snd].
  destruct (chainLoop t (first :: rest) emptyLoopState) as [st|e0] eqn:Hloop.
  - destruct (isDryRun args); [discriminate|].
    unfold bind, emit, lift, ret, await, outcome.
    destruct (storeCanonicalConfig _ _ _ _);
      [destruct (relayProposal _ _)|]; cbn; try discriminate;
      intros H; injection H as <-; left; eexists; reflexivity.
  - intros H. injection H as <-. right.
    eapply ProposeFacts.chainLoop_err. exact Hloop.
Qed.

Lemma buildParsedConfigArray_error (f : Collect.Foundry) (script : string)
  (testnet recompile : bool) (target : option string) (e : Error) :
  outcome (Collect.buildParsedConfigArray f script testnet recompile target)
    = Err e ->
  e = ProcessExit 1.
Proof.
  unfold Collect.buildParsedConfigArray.
  rewrite ProposeFacts.outcome_bind.
  destruct (outcome (Collect.collectLoop _ _ _ _ _ _)) as [collected|e0]
    eqn:Hloop.
  - destruct (Collect.nothingToExecute collected); [discriminate|].
    destruct recompile; discriminate.
  - intros H. injection H as <-.
    eapply CollectMore.collectLoop_error. exact Hloop.
Qed.

(** X18.  With the plugin's own [buildParsedConfigArray], no run of
    [propose] ends with the error for an undefined parsed configuration or
    undefined artifacts, which the source marks as never happening, and none
    fails for want of a first element of the parsed configuration array. *)
Theorem propose_guards_unreachable
  (core : Core) (env : ProcessEnv) (args : ProposeArgs)
  (f : Collect.Foundry) :
  buildParsedConfigArray (sphinxContext args)
    = Collect.buildParsedConfigArray f ->
  outcome (propose core env args) <> Err (Thrown NotDefinedMessage)
  /\ outcome (propose core env args) <> Err UndefinedFirstConfig.
Proof.
  intros Hctx.
  assert (Hclass : forall e,
             outcome (propose core env args) = Err e ->
             e = ProcessExit 1
             \/ (exists who, e = Rejected who)
             \/ e = InconsistentConfiguration
             \/ (exists chain, e = MultipleApprovalLeaves chain)).
  { intros e Herr. unfold propose in Herr.
    destruct (truthy (SPHINX_API_KEY env)) as [key|].
    - rewrite !ProposeFacts.outcome_emit, ProposeFacts.outcome_bind,
        ProposeFacts.outcome_mapTrace, Hctx in Herr.
      destruct (outcome (Collect.buildParsedConfigArray f _ _ _ _))
        as [b|e0] eqn:Hb.
      + destruct (CollectMore.buildParsedConfigArray_cases _ _ _ _ _ Hb)
          as [[He _]|[He Hsome]].
        * rewrite He in Herr. discriminate.
        * destruct Hsome as [configs [artifacts [Hc [Ha [_ Hne]]]]].
          rewrite He, Hc, Ha, ProposeFacts.outcome_bind in Herr.
          destruct (outcome (simulateAndPreview core args configs))
            as [sp|e1] eqn:Hsim.
          -- unfold finishProposal in Herr.
             destruct (elementsEqual (map shouldBeEqualOf configs)).
             ++ cbn [negb] in Herr.
                destruct (@assembleAndRelay_error _ _ _ _ _ _ _ _ _ Hne Herr)
                  as [H|H]; auto.
             ++ cbn in Herr. right. right. left.
                apply (f_equal (fun o : Outcome ProposeResult =>
                                  match o with Err x => x | Ok _ => e end))
                  in Herr.
                symmetry. exact Herr.
          -- apply (f_equal (fun o : Outcome ProposeResult =>
                               match o with Err x => x | Ok _ => e end))
               in Herr.
             cbv beta iota in Herr. subst e1.
             right. left. eapply simulateAndPreview_error. exact Hsim.
      + apply (f_equal (fun o : Outcome ProposeResult =>
                          match o with Err x => x | Ok _ => e end)) in Herr.
        cbv beta iota in Herr. subst e0. left.
        eapply buildParsedConfigArray_error. exact Hb.
    - cbn in Herr. left.
      apply (f_equal (fun o : Outcome ProposeResult =>
                        match o with Err x => x | Ok _ => e end)) in Herr.
      symmetry. exact Herr. }
  split; intros Heq;
    destruct (Hclass _ Heq) as [H|[[who H]|[H|[chain H]]]];
    try discriminate H;
    revert H; unfold NotDefinedMessage, UndefinedFirstConfig,
                InconsistentConfiguration, MultipleApprovalLeaves;
    cbn; discriminate.
Qed.

(** *** Failures before the registry *)

Lemma promiseAll_rejected (E A : Type) (calls : list (E * Outcome A))
  (e0 : Error) :
  (forall c e, In c calls -> snd c = Err e -> e = e0) ->
  (exists c, In c calls /\ snd c = Err e0) ->
  outcome (promiseAll calls) = Err e0.
Proof.
  intros Hsame [c [Hc Herr]].
  destruct (outcome (promiseAll calls)) as [l|e] eqn:Hout.
  - exfalso. revert l Hout Hc.
    induction calls as [|[ev o] rest IH]; intros l Hout Hc; [contradiction|].
    simpl in Hout. destruct (promiseAll rest) as [t r] eqn:Hrest.
    destruct o as [a|e1]; [|discriminate].
    destruct r as [l'|e2]; [|discriminate].
    destruct Hc as [<-|Hc]; [discriminate|].
    apply (IH (fun c' e' H => Hsame c' e' (or_intror H)) l' eq_refl Hc).
  - f_equal.
    refine (@promiseAll_error _ _ (fun e => e = e0) calls e _ Hout).
    intros c' e' Hc' He'. eapply Hsame; eassumption.
Qed.

(** X19.  When the gas estimate of one chain is rejected, the run stops
    with that rejection before the preview: every chain with actions has
    been asked for its estimate, and nothing is printed, asked or sent to
    the registry. *)
Theorem propose_simulation_rejected
  (core : Core) (env : ProcessEnv) (args : ProposeArgs) (key : string)
  (tr : list CollectEvent) (configs : list ParsedConfig)
  (artifacts : ConfigArtifacts) (p : ParsedConfig) :
  truthy (SPHINX_API_KEY env) = Some key ->
  buildParsedConfigArray (sphinxContext args) (scriptPath args)
    (isTestnet args) (forceRecompile args) (targetContract args)
  = (tr, Ok {| parsedConfigArray := Some configs;
               configArtifacts := Some artifacts;
               isEmpty := false |}) ->
  In p configs ->
  hasActions p = true ->
  getNetworkGasEstimate (sphinxContext args) configs (chainId p) = None ->
  propose core env args
  = (preamble args ++ map Collecting tr
       ++ map GetNetworkGasEstimate (map chainId (filter hasActions configs)),
     Err (Rejected "getNetworkGasEstimate")).
Proof.
  intros Hkey Hbuilt Hp Hact Hnone.
  destruct (ProposeFacts.propose_built core env args Hkey Hbuilt)
    as [Hout Htr].
  cbv zeta in Hout, Htr.
  assert (Hsim : simulateAndPreview core args configs
                 = (map GetNetworkGasEstimate
                      (map chainId (filter hasActions configs)),
                    Err (Rejected "getNetworkGasEstimate"))).
  { unfold simulateAndPreview.
    match goal with
    | |- bind (promiseAll ?calls) _ = _ =>
        pose proof (trace_promiseAll calls) as Ht;
        assert (Ho : outcome (promiseAll calls)
                     = Err (Rejected "getNetworkGasEstimate"));
        [|destruct (promiseAll calls) as [t o]]
    end.
    - apply promiseAll_rejected.
      + intros c e Hc He. apply in_map_iff in Hc.
        destruct Hc as [q [<- _]]. cbn [snd] in He. unfold await in He.
        revert He.
        destruct (getNetworkGasEstimate (sphinxContext args) configs
                    (chainId q)); intros He; [discriminate|].
        injection He as <-. reflexivity.
      + eexists. split.
        * apply in_map. apply filter_In. split; [exact Hp|exact Hact].
        * cbn. rewrite Hnone. reflexivity.
    - unfold trace, outcome in Ht, Ho. cbn in Ht, Ho. subst t o.
      rewrite map_map. cbn. rewrite map_map. reflexivity. }
  destruct (propose core env args) as [t o]. unfold trace, outcome in *.
  cbn in Hout, Htr. rewrite Hsim in Hout, Htr. cbn in Hout, Htr.
  subst t o. rewrite app_nil_r. reflexivity.
Qed.

(** X20.  The configuration check comes after the preview.  A proposal
    whose chains disagree is simulated and previewed in full, the user being
    asked to confirm it unless the run is confirmed or dry, before it is
    rejected; the trace ends there. *)
Theorem propose_inconsistent_after_preview
  (core : Core) (env : ProcessEnv) (args : ProposeArgs) (key : string)
  (tr : list CollectEvent) (configs : list ParsedConfig)
  (artifacts : ConfigArtifacts) (sp : list GasEstimate * Preview) :
  truthy (SPHINX_API_KEY env) = Some key ->
  buildParsedConfigArray (sphinxContext args) (scriptPath args)
    (isTestnet args) (forceRecompile args) (targetContract args)
  = (tr, Ok {| parsedConfigArray := Some configs;
               configArtifacts := Some artifacts;
               isEmpty := false |}) ->
  outcome (simulateAndPreview core args configs) = Ok sp ->
  elementsEqual (map shouldBeEqualOf configs) = false ->
  propose core env args
  = (preamble args ++ map Collecting tr
       ++ map GetNetworkGasEstimate (map chainId (filter hasActions configs))
       ++ previewEvents core args configs,
     Err InconsistentConfiguration).
Proof.
  intros Hkey Hbuilt Hsim Hne.
  destruct (ProposeFacts.propose_built core env args Hkey Hbuilt)
    as [Hout Htr].
  cbv zeta in Hout, Htr. rewrite Hsim in Hout, Htr.
  destruct (simulateAndPreview_trace core args configs Hsim) as [Hts _].
  unfold finishProposal in Hout, Htr. rewrite Hne in Hout, Htr.
  rewrite Hts in Htr. cbn [negb throw trace outcome fst snd] in Hout, Htr.
  destruct (propose core env args) as [t o]. unfold trace, outcome in *.
  cbn [fst snd] in Hout, Htr. subst t o.
  rewrite ?app_nil_r, <- ?app_assoc. reflexivity.
Qed.

(** *** Concrete runs *)

Lemma propose_simulation_rejected_witness :
  propose Samples.core Samples.env
    (Samples.args false (MoreSamples.failingSimulation Samples.twoSafes))
  = ([Compile true false; GetFoundryToml; ReadInterface "SphinxPluginTypes";
      GetNetworkGasEstimate 1; GetNetworkGasEstimate 2],
     Err (Rejected "getNetworkGasEstimate")).
Proof.
  exact (@propose_simulation_rejected Samples.core Samples.env
           (Samples.args false
              (MoreSamples.failingSimulation Samples.twoSafes))
           "key" [] Samples.twoSafes "artifacts" Samples.otherSafe
           eq_refl eq_refl (or_intror (or_introl eq_refl)) eq_refl eq_refl).
Defined.

Lemma propose_inconsistent_after_preview_witness :
  propose Samples.core Samples.env
    (Samples.args false (Samples.context Samples.twoSafes))
  = ([Compile true false; GetFoundryToml; ReadInterface "SphinxPluginTypes";
      GetNetworkGasEstimate 1; GetNetworkGasEstimate 2; Prompt "preview"],
     Err InconsistentConfiguration).
Proof.
  exact (@propose_inconsistent_after_preview Samples.core Samples.env
           (Samples.args false (Samples.context Samples.twoSafes))
           "key" [] Samples.twoSafes "artifacts"
           ([{| geChainId := 1; estimatedGas := "21000" |};
             {| geChainId := 2; estimatedGas := "21000" |}], "preview")
           eq_refl eq_refl eq_refl eq_refl).
Defined.

Lemma propose_success_trace_witness :
  exists out r,
    outcome (propose Samples.core Samples.env
               (Samples.args false (Samples.context Samples.twoChains)))
      = Ok out
    /\ proposalRequest out = Some r
    /\ trace (propose Samples.core Samples.env
                (Samples.args false (Samples.context Samples.twoChains)))
       = [Compile true false; GetFoundryToml;
          ReadInterface "SphinxPluginTypes"; GetNetworkGasEstimate 1;
          Prompt "preview";
          StoreCanonicalConfig "key" "org" ["artifacts"]; RelayProposal r].
Proof.
  eexists. eexists. split; [reflexivity|]. split; [reflexivity|].
  exact (@propose_success_trace Samples.core Samples.env
           (Samples.args false (Samples.context Samples.twoChains))
           _ _ Samples.twoChains "artifacts"
           eq_refl eq_refl eq_refl eq_refl).
Defined.

Lemma propose_registers_what_it_returns_witness :
  exists out r,
    outcome (propose Samples.core Samples.env
               (Samples.args false (Samples.context Samples.twoChains)))
      = Ok out
    /\ proposalRequest out = Some r
    /\ exists id,
         storeCanonicalConfig (Samples.context Samples.twoChains)
           (apiKey r) (prOrgId r) ["artifacts"] = Some id
         /\ compilerConfigId r = Some id
         /\ relayProposal (Samples.context Samples.twoChains) r = Some tt
         /\ Some "key" = Some (apiKey r).
Proof.
  eexists. eexists. split; [reflexivity|]. split; [reflexivity|].
  exact (@propose_registers_what_it_returns Samples.core Samples.env
           (Samples.args false (Samples.context Samples.twoChains))
           _ _ "artifacts" eq_refl eq_refl eq_refl eq_refl).
Defined.

Lemma propose_request_contents_witness :
  exists out r,
    outcome (propose Samples.core Samples.env
               (Samples.args true (Samples.context Samples.twoChains)))
      = Ok out
    /\ proposalRequest out = Some r
    /\ length (gasEstimates r) = length (chainIds r)
    /\ prOwners r = ["0xA1"; "0xB2"].
Proof.
  eexists. eexists. split; [reflexivity|]. split; [reflexivity|].
  pose proof (@propose_request_contents Samples.core Samples.env
                (Samples.args true (Samples.context Samples.twoChains))
                _ _ Samples.twoChains eq_refl eq_refl eq_refl)
    as [Hall [Hlen _]].
  split; [exact Hlen|].
  exact (proj1 (proj2 (proj2
           (Hall (Samples.chainConfig 2 [] "org")
                 (or_intror (or_introl eq_refl)))))).
Defined.

Lemma propose_store_rejected_witness :
  never isRelay
    (trace (propose Samples.core Samples.env
              (Samples.args false
                 (MoreSamples.refusingRegistry Samples.twoChains)))) = true
  /\ outcome (propose Samples.core Samples.env
                (Samples.args false
                   (MoreSamples.refusingRegistry Samples.twoChains)))
     = Err (Rejected "storeCanonicalConfig").
Proof.
  split; [|reflexivity].
  exact (proj1 (@propose_store_rejected Samples.core Samples.env
                  (Samples.args false
                     (MoreSamples.refusingRegistry Samples.twoChains))
                  eq_refl (fun _ _ _ => eq_refl))).
Defined.

Lemma propose_project_deployments_witness :
  exists out r,
    outcome (propose Samples.core Samples.env
               (Samples.args true (Samples.context Samples.twoChains)))
      = Ok out
    /\ proposalRequest out = Some r
    /\ projectDeployments r
       = [{| pdChainId := 1; deploymentId := "0xroot"; name := "demo";
             pdIsExecuting := false |}].
Proof.
  eexists. eexists. split; [reflexivity|]. split; [reflexivity|].
  exact (proj1 (@propose_project_deployments Samples.core Samples.env
                  (Samples.args true (Samples.context Samples.twoChains))
                  _ _ Samples.twoChains _
                  eq_refl eq_refl eq_refl eq_refl)).
Defined.

Lemma propose_multiple_approval_leaves_witness :
  (exists chain,
      outcome (propose MoreSamples.doubleApproval Samples.env
                 (Samples.args true (Samples.context Samples.oneAction)))
      = Err (MultipleApprovalLeaves chain))
  /\ noRemoteCall
       (trace (propose MoreSamples.doubleApproval Samples.env
                 (Samples.args true (Samples.context Samples.oneAction))))
     = true.
Proof.
  refine (@propose_multiple_approval_leaves MoreSamples.doubleApproval
            Samples.env
            (Samples.args true (Samples.context Samples.oneAction))
            "key" [] Samples.oneAction "artifacts"
            ([{| geChainId := 1; estimatedGas := "21000" |}], "preview")
            (Samples.chainConfig 1 ["deploy"] "org")
            eq_refl eq_refl eq_refl eq_refl (or_introl eq_refl) eq_refl _).
  simpl. lia.
Defined.

Lemma propose_guards_unreachable_witness :
  (exists built,
      outcome (Collect.buildParsedConfigArray MoreSamples.patchyFoundry
                 "script/Deploy.s.sol" false false None) = Ok built
      /\ isEmpty built = false)
  /\ outcome (propose Samples.core Samples.env
                (MoreSamples.mainnetArgs
                   (pluginContext MoreSamples.patchyFoundry
                      (Samples.context []))))
     <> Err (Thrown NotDefinedMessage).
Proof.
  split; [eexists; split; reflexivity|].
  exact (proj1 (@propose_guards_unreachable Samples.core Samples.env
                  (MoreSamples.mainnetArgs
                     (pluginContext MoreSamples.patchyFoundry
                        (Samples.context [])))
                  MoreSamples.patchyFoundry eq_refl)).
Defined.

Lemma propose_preview_channel_witness :
  consoleLogged
    (trace (propose Samples.core Samples.env
              (Samples.args true
                 (pluginContext MoreSamples.brokenForge
                    (Samples.context [])))))
  = ["trace"; "revert"]
  /\ never isPrompt
       (trace (propose Samples.core Samples.env
                 (Samples.args true
                    (pluginContext MoreSamples.brokenForge
                       (Samples.context []))))) = true
  /\ consoleLogged
       (trace (propose Samples.core Samples.env
                 (MoreSamples.mainnetArgs
                    (pluginContext MoreSamples.patchyFoundry
                       (Samples.context [])))))
     = ["preview"].
Proof.
  split; [reflexivity|]. split.
  - exact (proj2 (proj2 (@propose_preview_channel Samples.core Samples.env
                           (Samples.args true
                              (pluginContext MoreSamples.brokenForge
                                 (Samples.context [])))
                           MoreSamples.brokenForge eq_refl)) eq_refl).
  - exact (proj1 (proj2 (@propose_preview_channel Samples.core Samples.env
                           (MoreSamples.mainnetArgs
                              (pluginContext MoreSamples.patchyFoundry
                                 (Samples.context [])))
                           MoreSamples.patchyFoundry eq_refl))
             _ _ eq_refl eq_refl).
Defined.

End ProposeMore.

(** ** The sample project writer *)

Module SampleProjectFacts.
Import SampleProject.

Section WithFileSystem.

Context {FS : Type} {fs : NodeFs FS} {laws : NodeFsLaws fs}.

Lemma keeps_refl (s : FS) : keeps s s.
Proof. intros q Hq. split; [exact Hq|reflexivity]. Qed.

Lemma keeps_trans (s1 s2 s3 : FS) : keeps s1 s2 -> keeps s2 s3 -> keeps s1 s3.
Proof.
  intros H12 H23 q Hq. destruct (H12 q Hq) as [He Hr].
  destruct (H23 q He) as [He' Hr']. split; [exact He'|congruence].
Qed.

Lemma stepOf_keeps (a : Action) (s : FS) : keeps s (fst (stepOf a s)).
Proof.
  destruct a as [p|p data|e]; simpl.
  - unfold mkdirIfMissing. destruct (existsSync s p) eqn:Hp;
      [apply keeps_refl|].
    destruct (mkdirSync s p) as [s'|] eqn:Hm; [|apply keeps_refl].
    intros q Hq. simpl.
    assert (Hne : q <> p) by congruence.
    destruct (@mkdir_frame _ _ laws _ _ _ _ Hm Hne) as [He Hr]. split; congruence.
  - unfold writeIfMissing. destruct (existsSync s p) eqn:Hp;
      [apply keeps_refl|].
    destruct (writeFileSync s p data) as [s'|] eqn:Hw; [|apply keeps_refl].
    intros q Hq. simpl.
    assert (Hne : q <> p) by congruence.
    destruct (@write_frame _ _ laws _ _ _ _ _ Hw Hne) as [He Hr]. split; congruence.
  - apply keeps_refl.
Qed.

Lemma runPlan_keeps (plan : list Action) :
  forall s, keeps s (fst (runPlan plan s)).
Proof.
  induction plan as [|a rest IH]; intros s; [apply keeps_refl|].
  simpl. unfold andThen. pose proof (stepOf_keeps a s) as Ha.
  destruct (stepOf a s) as [s1 [e|]]; simpl in *; [exact Ha|].
  eapply keeps_trans; [exact Ha|apply IH].
Qed.

Lemma pathsOf_cons (a : Action) (rest : list Action) (p : string) :
  In p (pathsOf (a :: rest)) <-> In p (pathsOf [a]) \/ In p (pathsOf rest).
Proof.
  unfold pathsOf. simpl. rewrite app_nil_r. split.
  - apply in_app_or.
  - apply in_or_app.
Qed.

Lemma stepOf_success (a : Action) (s s' : FS) :
  stepOf a s = (s', None) ->
  throws [a] = false
  /\ forall p, In p (pathsOf [a]) -> existsSync s' p = true.
Proof.
  destruct a as [p|p data|e]; simpl.
  - unfold mkdirIfMissing. destruct (existsSync s p) eqn:Hp.
    + intros H. injection H as <-. split; [reflexivity|].
      intros q [<-|[]]. exact Hp.
    + destruct (mkdirSync s p) as [s1|] eqn:Hm; [|discriminate].
      intros H. injection H as <-. split; [reflexivity|].
      intros q [<-|[]]. exact (@mkdir_exists _ _ laws _ _ _ Hm).
  - unfold writeIfMissing. destruct (existsSync s p) eqn:Hp.
    + intros H. injection H as <-. split; [reflexivity|].
      intros q [<-|[]]. exact Hp.
    + destruct (writeFileSync s p data) as [s1|] eqn:Hw; [|discriminate].
      intros H. injection H as <-. split; [reflexivity|].
      intros q [<-|[]]. exact (proj1 (@write_exists _ _ laws _ _ _ _ Hw)).
  - discriminate.
Qed.

(** A plan that goes through throws nothing on its own and leaves every
    one of its paths in existence. *)
Lemma runPlan_success (plan : list Action) :
  forall s s',
    runPlan plan s = (s', None) ->
    throws plan = false
    /\ forall p, In p (pathsOf plan) -> existsSync s' p = true.
Proof.
  induction plan as [|a rest IH]; intros s s' H.
  - split; [reflexivity|intros p []].
  - simpl in H. unfold andThen in H.
    destruct (stepOf a s) as [s1 [e|]] eqn:Ha; [discriminate|].
    destruct (@stepOf_success _ _ _ Ha) as [Hta Hpa].
    destruct (IH _ _ H) as [Htr Hpr].
    split.
    + simpl in *. rewrite orb_false_r in Hta. rewrite Hta. exact Htr.
    + intros p Hp. apply pathsOf_cons in Hp.
      destruct Hp as [Hp|Hp]; [|apply Hpr, Hp].
      pose proof (runPlan_keeps rest s1) as Hk. rewrite H in Hk.
      apply (Hk p). apply Hpa. exact Hp.
Qed.

(** A plan that throws nothing on its own does nothing where all its paths
    exist. *)
Lemma runPlan_settled (plan : list Action) (s : FS) :
  throws plan = false ->
  (forall p, In p (pathsOf plan) -> existsSync s p = true) ->
  runPlan plan s = (s, None).
Proof.
  induction plan as [|a rest IH]; intros Ht Hp; [reflexivity|].
  simpl in Ht. apply orb_false_iff in Ht. destruct Ht as [Hta Htr].
  assert (Ha : stepOf a s = (s, None)).
  { destruct a as [p|p data|e]; simpl; [| |discriminate].
    - unfold mkdirIfMissing. rewrite (Hp p); [reflexivity|left; reflexivity].
    - unfold writeIfMissing. rewrite (Hp p); [reflexivity|left; reflexivity]. }
  simpl. unfold andThen. rewrite Ha. apply IH; [exact Htr|].
  intros p Hin. apply Hp. apply pathsOf_cons. right. exact Hin.
Qed.

(** Only a [Throw] of the plan fails otherwise than through the file
    system. *)
Lemma runPlan_failure (plan : list Action) :
  forall s s' e,
    throws plan = false ->
    runPlan plan s = (s', Some e) ->
    exists operation path, e = FsFailure operation path.
Proof.
  induction plan as [|a rest IH]; intros s s' e Ht H; [discriminate|].
  simpl in Ht. apply orb_false_iff in Ht. destruct Ht as [Hta Htr].
  simpl in H. unfold andThen in H.
  destruct (stepOf a s) as [s1 [e1|]] eqn:Ha.
  - injection H as <- <-. destruct a as [p|p data|e0]; simpl in *;
      [| |discriminate].
    + unfold mkdirIfMissing in Ha. destruct (existsSync s p); [discriminate|].
      destruct (mkdirSync s p); [discriminate|].
      injection Ha as _ <-. eexists. eexists. reflexivity.
    + unfold writeIfMissing in Ha. destruct (existsSync s p); [discriminate|].
      destruct (writeFileSync s p data); [discriminate|].
      injection Ha as _ <-. eexists. eexists. reflexivity.
  - eapply IH; [exact Htr|exact H].
Qed.

Lemma runPlan_app (l1 l2 : list Action) (s : FS) :
  runPlan (l1 ++ l2) s
  = match runPlan l1 s with
    | (s1, None) => runPlan l2 s1
    | (s1, Some e) => (s1, Some e)
    end.
Proof.
  revert s. induction l1 as [|a rest IH]; intros s; [reflexivity|].
  simpl. unfold andThen. destruct (stepOf a s) as [s1 [e|]];
    [reflexivity|apply IH].
Qed.

Lemma andThen_done (a : Step FS) (s : FS) : andThen a done s = a s.
Proof. unfold andThen, done. destruct (a s) as [s' [e|]]; reflexivity. Qed.

Lemma andThen_ext (a b b' : Step FS) (s : FS) :
  (forall s1, b s1 = b' s1) -> andThen a b s = andThen a b' s.
Proof.
  intros H. unfold andThen. destruct (a s) as [s1 [e|]]; [reflexivity|apply H].
Qed.

(** The function runs its plan. *)
Lemma writeSampleProjectFiles_plan (files : SampleFiles)
  (configDirPath contractDirPath testDirPath : string)
  (isTypeScriptProject : bool) (solcVersion integration : string)
  (scriptDirPath : option string) (s : FS) :
  writeSampleProjectFiles files configDirPath contractDirPath testDirPath
    isTypeScriptProject solcVersion integration scriptDirPath s
  = runPlan (planOf files configDirPath contractDirPath testDirPath
               isTypeScriptProject solcVersion integration scriptDirPath) s.
Proof.
  unfold writeSampleProjectFiles, planOf. cbn [app runPlan stepOf].
  do 5 (apply andThen_ext; intros ?).
  unfold writeTestFiles, testPlan.
  destruct (String.eqb integration "hardhat").
  - cbn [runPlan stepOf]. symmetry. apply andThen_done.
  - destruct (String.eqb integration "foundry"); [|reflexivity].
    destruct (Propose.truthy scriptDirPath) as [dir|];
      cbn [runPlan stepOf].
    + do 2 (apply andThen_ext; intros ?). symmetry. apply andThen_done.
    + symmetry. apply andThen_done.
Qed.

Section OneCall.

Variables (files : SampleFiles)
  (configDirPath contractDirPath testDirPath : string)
  (isTypeScriptProject : bool) (solcVersion integration : string)
  (scriptDirPath : option string).

(** X21.  Whatever existed before the call exists after it with the
    contents it had, whether the call returns or throws: the function
    overwrites nothing and removes nothing. *)
Theorem writeSampleProjectFiles_overwrites_nothing (s : FS) (q : string) :
  existsSync s q = true ->
  existsSync
    (fst (writeSampleProjectFiles files configDirPath contractDirPath
            testDirPath isTypeScriptProject solcVersion integration
            scriptDirPath s)) q = true
  /\ readFileSync
       (fst (writeSampleProjectFiles files configDirPath contractDirPath
               testDirPath isTypeScriptProject solcVersion integration
               scriptDirPath s)) q
     = readFileSync s q.
Proof.
  intros Hq. rewrite writeSampleProjectFiles_plan.
  apply (runPlan_keeps _ s q Hq).
Qed.

(** X22.  A second call after a call that returned changes nothing and
    returns as well. *)
Theorem writeSampleProjectFiles_idempotent (s s' : FS) :
  writeSampleProjectFiles files configDirPath contractDirPath testDirPath
    isTypeScriptProject solcVersion integration scriptDirPath s
  = (s', None) ->
  writeSampleProjectFiles files configDirPath contractDirPath testDirPath
    isTypeScriptProject solcVersion integration scriptDirPath s'
  = (s', None).
Proof.
  rewrite !writeSampleProjectFiles_plan. intros H.
  destruct (runPlan_success _ _ H) as [Ht Hp].
  apply runPlan_settled; assumption.
Qed.

(** X23.  After a call that returned, the three folders, the configuration
    file of the chosen language and the contract file exist; with the
    hardhat integration so does the test file of the chosen language; with
    the foundry integration a script folder was given, and it, the Forge
    test file and the Forge script file exist. *)
Theorem writeSampleProjectFiles_creates (s s' : FS) :
  writeSampleProjectFiles files configDirPath contractDirPath testDirPath
    isTypeScriptProject solcVersion integration scriptDirPath s
  = (s', None) ->
  existsSync s' configDirPath = true
  /\ existsSync s' contractDirPath = true
  /\ existsSync s' testDirPath = true
  /\ existsSync s' (configPathOf configDirPath isTypeScriptProject) = true
  /\ existsSync s' (pathJoin contractDirPath sampleContractFileName) = true
  /\ (integration = "hardhat" ->
      existsSync s'
        (pathJoin testDirPath
           (if isTypeScriptProject then hhTestFileNameTypeScript
            else hhTestFileNameJavaScript)) = true)
  /\ (integration = "foundry" ->
      exists scriptDir,
        Propose.truthy scriptDirPath = Some scriptDir
        /\ existsSync s' scriptDir = true
        /\ existsSync s' (pathJoin testDirPath foundryTestFileName) = true
        /\ existsSync s' (pathJoin scriptDir foundryScriptFileName) = true).
Proof.
  rewrite writeSampleProjectFiles_plan. intros H.
  destruct (runPlan_success _ _ H) as [Ht Hp].
  unfold planOf in Ht, Hp. unfold pathsOf in Hp.
  rewrite flat_map_app in Hp. cbn [flat_map app] in Hp.
  assert (Hin : forall p,
             In p [configDirPath; contractDirPath; testDirPath;
                   configPathOf configDirPath isTypeScriptProject;
                   pathJoin contractDirPath sampleContractFileName] ->
             existsSync s' p = true).
  { intros p Hin. apply Hp. simpl. simpl in Hin. tauto. }
  assert (Htest : forall p,
             In p (pathsOf (testPlan files testDirPath isTypeScriptProject
                              solcVersion integration scriptDirPath
                              (configPathOf configDirPath
                                 isTypeScriptProject))) ->
             existsSync s' p = true).
  { intros p Hin'. apply Hp. simpl. do 5 right. exact Hin'. }
  repeat split; try (apply Hin; simpl; tauto).
  - intros ->. apply Htest. left. reflexivity.
  - intros ->. unfold testPlan in Ht, Htest.
    cbn [String.eqb Ascii.eqb Bool.eqb] in Ht, Htest.
    destruct (Propose.truthy scriptDirPath) as [dir|].
    + exists dir. repeat split; apply Htest; simpl; tauto.
    + simpl in Ht. rewrite ?orb_true_r in Ht. discriminate.
Qed.

(** X24.  With the foundry integration and no script folder the call never
    returns.  When it fails for the missing script folder, and not earlier
    in the file system, the three folders, the configuration file and the
    contract file are already there: the error comes after the writes. *)
Theorem writeSampleProjectFiles_foundry_without_script (s : FS) :
  integration = "foundry" ->
  Propose.truthy scriptDirPath = None ->
  exists s' e,
    writeSampleProjectFiles files configDirPath contractDirPath testDirPath
      isTypeScriptProject solcVersion integration scriptDirPath s
    = (s', Some e)
    /\ ((exists operation path, e = FsFailure operation path)
        \/ e = ScriptPathRequired
           /\ existsSync s' configDirPath = true
           /\ existsSync s' contractDirPath = true
           /\ existsSync s' testDirPath = true
           /\ existsSync s'
                (configPathOf configDirPath isTypeScriptProject) = true
           /\ existsSync s'
                (pathJoin contractDirPath sampleContractFileName) = true).
Proof.
  intros -> Hnone. rewrite writeSampleProjectFiles_plan.
  unfold planOf, testPlan. cbn [String.eqb Ascii.eqb Bool.eqb].
  rewrite Hnone, runPlan_app.
  match goal with
  | |- context [runPlan ?l s] => destruct (runPlan l s) as [s1 [e|]] eqn:Hrun
  end.
  - exists s1, e. split; [reflexivity|]. left.
    eapply runPlan_failure; [|exact Hrun]. reflexivity.
  - exists s1, ScriptPathRequired. split; [reflexivity|]. right.
    destruct (runPlan_success _ _ Hrun) as [_ Hp].
    split; [reflexivity|].
    repeat split; apply Hp; simpl; tauto.
Qed.

End OneCall.

End WithFileSystem.

(** The file system in memory obeys the laws. *)
#[export] Instance tableFsLaws : NodeFsLaws tableFs.
Proof.
  assert (Hcons : forall (s : Table) (p q : string) (n : Node),
             q <> p -> lookupPath ((p, n) :: s) q = lookupPath s q).
  { intros s p q n Hne. unfold lookupPath. simpl.
    destruct (String.eqb_spec p q) as [Heq|_]; [congruence|reflexivity]. }
  assert (Hhead : forall (s : Table) (p : string) (n : Node),
             lookupPath ((p, n) :: s) p = Some n).
  { intros s p n. unfold lookupPath. simpl. rewrite String.eqb_refl.
    reflexivity. }
  split; simpl.
  - intros s s' p H. injection H as <-. rewrite Hhead. reflexivity.
  - intros s s' p q H Hne. injection H as <-. rewrite (Hcons _ _ _ _ Hne).
    split; reflexivity.
  - intros s s' p data H. injection H as <-. rewrite Hhead.
    split; reflexivity.
  - intros s s' p q data H Hne. injection H as <-.
    rewrite (Hcons _ _ _ _ Hne). split; reflexivity.
Qed.

(** The laws that tell paths apart by their strings give the ones that do
    not. *)
Lemma laws_keep (FS : Type) (fs : NodeFs FS) :
  NodeFsLaws fs -> NodeFsKeeps fs.
Proof.
  intros laws. split.
  - intros s s' p Hp Hm q Hq.
    assert (Hne : q <> p) by congruence.
    destruct (@mkdir_frame _ _ laws _ _ _ _ Hm Hne) as [He Hr].
    split; congruence.
  - intros s s' p data Hp Hw q Hq.
    assert (Hne : q <> p) by congruence.
    destruct (@write_frame _ _ laws _ _ _ _ _ Hw Hne) as [He Hr].
    split; congruence.
  - intros s s' p data Hw. exact (@write_exists _ _ laws _ _ _ _ Hw).
Qed.

#[export] Instance tableFsKeeps : NodeFsKeeps tableFs.
Proof. exact (laws_keep tableFsLaws). Qed.

Section AnyPaths.

Context {FS : Type} {fs : NodeFs FS} {safe : NodeFsKeeps fs}.

Lemma stepOf_keeps_any (a : Action) (s : FS) : keeps s (fst (stepOf a s)).
Proof.
  destruct a as [p|p data|e]; simpl.
  - unfold mkdirIfMissing. destruct (existsSync s p) eqn:Hp;
      [apply keeps_refl|].
    destruct (mkdirSync s p) as [s'|] eqn:Hm; [|apply keeps_refl].
    exact (@mkdir_keeps _ _ safe _ _ _ Hp Hm).
  - unfold writeIfMissing. destruct (existsSync s p) eqn:Hp;
      [apply keeps_refl|].
    destruct (writeFileSync s p data) as [s'|] eqn:Hw; [|apply keeps_refl].
    exact (@write_keeps _ _ safe _ _ _ _ Hp Hw).
  - apply keeps_refl.
Qed.

Lemma runPlan_keeps_any (plan : list Action) :
  forall s, keeps s (fst (runPlan plan s)).
Proof.
  induction plan as [|a rest IH]; intros s; [apply keeps_refl|].
  simpl. unfold andThen. pose proof (stepOf_keeps_any a s) as Ha.
  destruct (stepOf a s) as [s1 [e|]]; simpl in *; [exact Ha|].
  eapply keeps_trans; [exact Ha|apply IH].
Qed.

(** X25.  If the path of the configuration file is still free once the
    three folders are there, then after a call that returned the file holds
    the sample text of the chosen language: TypeScript for a TypeScript
    project, JavaScript otherwise.  This asks nothing of how path strings
    relate: two strings may name the same path. *)
Theorem writeSampleProjectFiles_config_text (files : SampleFiles)
  (configDirPath contractDirPath testDirPath : string)
  (isTypeScriptProject : bool) (solcVersion integration : string)
  (scriptDirPath : option string) (s s' : FS) :
  existsSync (fst (makeFolders configDirPath contractDirPath testDirPath s))
    (configPathOf configDirPath isTypeScriptProject) = false ->
  writeSampleProjectFiles files configDirPath contractDirPath testDirPath
    isTypeScriptProject solcVersion integration scriptDirPath s
  = (s', None) ->
  readFileSync s' (configPathOf configDirPath isTypeScriptProject)
  = Some (if isTypeScriptProject then sampleSphinxFileTypeScript files
          else sampleSphinxFileJavaScript files).
Proof.
  intros Hfree. rewrite writeSampleProjectFiles_plan.
  unfold planOf. cbn [app runPlan stepOf].
  set (cp := configPathOf configDirPath isTypeScriptProject) in *.
  unfold makeFolders in Hfree. revert Hfree.
  unfold andThen at 1 2 3 4 5.
  destruct (mkdirIfMissing configDirPath s) as [s1 [e|]];
    [discriminate|].
  destruct (mkdirIfMissing contractDirPath s1) as [s2 [e|]];
    [discriminate|].
  destruct (mkdirIfMissing testDirPath s2) as [s3 [e|]];
    [discriminate|].
  cbn [fst]. intros Hfree.
  unfold andThen at 1. unfold writeIfMissing at 1. rewrite Hfree.
  destruct (writeFileSync s3 cp _) as [s4|] eqn:Hw; [|discriminate].
  destruct (@write_reads _ _ safe _ _ _ _ Hw) as [He Hr].
  intros Hrest.
  match type of Hrest with
  | andThen (writeIfMissing ?p ?d) (runPlan ?l) s4 = _ =>
      change (runPlan (Write p d :: l) s4 = (s', None)) in Hrest;
      pose proof (runPlan_keeps_any (Write p d :: l) s4) as Hk
  end.
  rewrite Hrest in Hk. cbn [fst] in Hk.
  destruct (Hk cp He) as [_ Hread]. rewrite Hread. exact Hr.
Qed.

End AnyPaths.

(** *** Concrete runs *)

Lemma writeSampleProjectFiles_overwrites_nothing_witness :
  readFileSync
    (fst (writeSampleProjectFiles sampleFiles "cfg" "contracts" "test" true
            "0.8.20" "hardhat" None MoreSamples.ownConfig))
    "cfg/HelloSphinx.config.ts"
  = Some "mine".
Proof.
  exact (proj2 (@writeSampleProjectFiles_overwrites_nothing Table tableFs
                  tableFsLaws sampleFiles "cfg" "contracts" "test" true
                  "0.8.20" "hardhat" None MoreSamples.ownConfig
                  "cfg/HelloSphinx.config.ts" eq_refl)).
Defined.

Lemma writeSampleProjectFiles_idempotent_witness :
  exists s',
    writeSampleProjectFiles sampleFiles "cfg" "contracts" "test" false
      "0.8.20" "foundry" (Some "script") ([] : Table) = (s', None)
    /\ length s' = 8%nat
    /\ writeSampleProjectFiles sampleFiles "cfg" "contracts" "test" false
         "0.8.20" "foundry" (Some "script") s' = (s', None).
Proof.
  eexists. split; [reflexivity|]. split; [reflexivity|].
  exact (@writeSampleProjectFiles_idempotent Table tableFs tableFsLaws
           sampleFiles "cfg" "contracts" "test" false "0.8.20" "foundry"
           (Some "script") [] _ eq_refl).
Defined.

Lemma writeSampleProjectFiles_creates_witness :
  exists s',
    writeSampleProjectFiles sampleFiles "cfg" "contracts" "test" true
      "0.8.20" "hardhat" None ([] : Table) = (s', None)
    /\ existsSync s' "test/HelloSphinx.spec.ts" = true.
Proof.
  eexists. split; [reflexivity|].
  pose proof (@writeSampleProjectFiles_creates Table tableFs tableFsLaws
                sampleFiles "cfg" "contracts" "test" true "0.8.20" "hardhat"
                None [] _ eq_refl) as (_ & _ & _ & _ & _ & Hh & _).
  exact (Hh eq_refl).
Defined.

Lemma writeSampleProjectFiles_foundry_without_script_witness :
  exists s',
    writeSampleProjectFiles sampleFiles "cfg" "contracts" "test" true
      "0.8.20" "foundry" None ([] : Table) = (s', Some ScriptPathRequired)
    /\ existsSync s' "cfg/HelloSphinx.config.ts" = true.
Proof.
  pose proof (@writeSampleProjectFiles_foundry_without_script Table tableFs
                tableFsLaws sampleFiles "cfg" "contracts" "test" true
                "0.8.20" "foundry" None [] eq_refl eq_refl)
    as (s' & e & Hrun & _).
  eexists. split; reflexivity.
Defined.

Lemma writeSampleProjectFiles_config_text_witness :
  exists s',
    writeSampleProjectFiles sampleFiles "cfg" "contracts" "test" false
      "0.8.20" "other" None ([] : Table) = (s', None)
    /\ readFileSync s' "cfg/HelloSphinx.config.js" = Some "config.js".
Proof.
  eexists. split; [reflexivity|].
  exact (@writeSampleProjectFiles_config_text Table tableFs tableFsKeeps
           sampleFiles "cfg" "contracts" "test" false "0.8.20" "other"
           None [] _ eq_refl eq_refl).
Defined.

End SampleProjectFacts.
